(** * The match engine and the connection hub of the dating server

    A shallow embedding of
    - [internal/models] ([Match], [Like], [Dislike], [Conversation],
      [Notification], [User], [BlockedUser]),
    - the match handlers [LikeUser], [DislikeUser], [Unmatch] with their
      helpers [createMatchNotification] and [cacheMatchData],
    - [internal/websocket/hub.go]: [Hub], [Client], the cases of [Hub.Run],
      [BroadcastToConversation], [BroadcastToUser], [HandleWebSocket],
      [readPump] and [writePump],
    followed by the properties of the specification that are settled on it.

    Conventions.  A Go [uint] is an [N]; no arithmetic is done on ids apart
    from the store's sequences, so no wrap-around is written out.  A table of
    the relational store is the list of its rows in insertion order together
    with the next value of its id sequence.  Time stamps ([CreatedAt],
    [UpdatedAt], the 24 hour expiry of a cache key) play no part in any
    decision of the code below and are left out.  No handler of the
    repository soft-deletes a user, a match or a conversation, so the
    [DeletedAt] column is always NULL and is left out as well.

    The handlers are functions from the store to an answer and a store.  The
    hub is a state (the clients allocated so far and [Hub.clients]) and its
    operations are state transformers that run one at a time, the way the
    coordinator of the specification serialises them; what the goroutines do
    when they interleave freely is outside this development.  A run-time
    panic (send on a closed channel, close of a closed channel) is [None]. *)

From Stdlib Require Import SpecFloat.
From stdpp Require Import gmap list strings pretty.

Open Scope N_scope.

(** ** strconv *)

Module strconv.

(** The value of a decimal digit, [None] for any other byte. *)
Definition digit (c : Ascii.ascii) : option N :=
  let n := Ascii.N_of_ascii c in
  if (48 <=? n) && (n <=? 57) then Some (n - 48) else None.

Fixpoint digits (s : string) (acc : N) : option N :=
  match s with
  | EmptyString => Some acc
  | String c s' =>
      match digit c with
      | Some d => digits s' (10 * acc + d)
      | None => None
      end
  end.

(** [strconv.ParseUint(s, 10, bitSize)]: [None] stands for a non-nil
    [err] (syntax error on the empty string or on a byte that is no digit,
    range error when the value needs more than [bitSize] bits). *)
Definition ParseUint (s : string) (bitSize : N) : option N :=
  match s with
  | EmptyString => None
  | _ =>
      match digits s 0 with
      | Some n => if n <? 2 ^ bitSize then Some n else None
      | None => None
      end
  end.

(** [strconv.FormatUint(n, 10)]. *)
Definition FormatUint (n : N) : string := pretty n.

End strconv.

(** ** internal/models *)

Module User.
(** The columns of [models.User] that the match engine reads or hands
    back; the profile columns are carried as one opaque [FirstName]. *)
Record t := mk { ID : N; FirstName : string; IsActive : bool }.
End User.

Module BlockedUser.
Record t := mk { ID : N; BlockerID : N; BlockedID : N }.
End BlockedUser.

Module Like.
Record t := mk { ID : N; LikerID : N; LikedID : N }.
End Like.

Module Dislike.
Record t := mk { ID : N; DislikerID : N; DislikedID : N }.
End Dislike.

Module Match.
Record t := mk { ID : N; User1ID : N; User2ID : N; IsActive : bool }.
End Match.

Module Conversation.
Record t := mk { ID : N; MatchID : N; IsActive : bool }.
End Conversation.

Module Notification.
Record t := mk {
  ID : N; UserID : N; Type_ : string; Title : string; Body : string;
  Data : string; IsRead : bool }.
End Notification.

(** ** The persistent store (gorm over PostgreSQL) and the cache (redis) *)

Module Store.

(** A table: rows in insertion order and the id sequence. *)
Record Table (A : Type) := mkTable { rows : list A; next_id : N }.
Arguments mkTable {A} _ _.
Arguments rows {A} _.
Arguments next_id {A} _.

Definition empty_table {A} : Table A := mkTable [] 1.

(** [INSERT]: the row gets the next id of the sequence. *)
Definition insert {A} (mkrow : N → A) (t : Table A) : A * Table A :=
  let r := mkrow (next_id t) in
  (r, mkTable (rows t ++ [r]) (next_id t + 1)).

(** What [cacheMatchData] stores under a key. *)
Record MatchData := mkMatchData { md_id : N; md_user1_id : N; md_user2_id : N }.

Record DB := mkDB {
  users : Table User.t;
  blocked_users : Table BlockedUser.t;
  likes : Table Like.t;
  dislikes : Table Dislike.t;
  matches : Table Match.t;
  conversations : Table Conversation.t;
  notifications : Table Notification.t;
  redis : gmap string MatchData
}.

Definition empty : DB :=
  mkDB empty_table empty_table empty_table empty_table empty_table
       empty_table empty_table ∅.

Definition with_likes (db : DB) (t : Table Like.t) : DB :=
  mkDB (users db) (blocked_users db) t (dislikes db) (matches db)
       (conversations db) (notifications db) (redis db).
Definition with_dislikes (db : DB) (t : Table Dislike.t) : DB :=
  mkDB (users db) (blocked_users db) (likes db) t (matches db)
       (conversations db) (notifications db) (redis db).
Definition with_matches (db : DB) (t : Table Match.t) : DB :=
  mkDB (users db) (blocked_users db) (likes db) (dislikes db) t
       (conversations db) (notifications db) (redis db).
Definition with_conversations (db : DB) (t : Table Conversation.t) : DB :=
  mkDB (users db) (blocked_users db) (likes db) (dislikes db) (matches db)
       t (notifications db) (redis db).
Definition with_notifications (db : DB) (t : Table Notification.t) : DB :=
  mkDB (users db) (blocked_users db) (likes db) (dislikes db) (matches db)
       (conversations db) t (redis db).
Definition with_redis (db : DB) (r : gmap string MatchData) : DB :=
  mkDB (users db) (blocked_users db) (likes db) (dislikes db) (matches db)
       (conversations db) (notifications db) r.
Definition with_blocked_users (db : DB) (t : Table BlockedUser.t) : DB :=
  mkDB (users db) t (likes db) (dislikes db) (matches db)
       (conversations db) (notifications db) (redis db).

(** The writes a request can issue.  Whether the store accepts a write is
    not decided by the handlers: every handler below takes an oracle
    [ok : Write → bool] that says, for the request at hand, which of its
    writes go through.  Reads are answered from the tables. *)
Inductive Write :=
| CreateLike
| CreateDislike
| CreateMatch
| CreateConversation
| CreateNotification (userID : N)
| SaveMatch
| SaveConversation
| CacheHSet
| CacheDel.

Definition all_ok : Write → bool := λ _, true.

(** [db.Where(p).First(&x)]: the first row that satisfies [p]; [None] is
    [gorm.ErrRecordNotFound]. *)
Definition First {A} (p : A → bool) (t : Table A) : option A :=
  List.find p (rows t).

(** [db.Create(&row)]: [None] is a non-nil [Error]. *)
Definition Create {A} (ok : Write → bool) (w : Write)
    (mkrow : N → A) (t : Table A) : option (A * Table A) :=
  if ok w then Some (insert mkrow t) else None.

(** [db.Save(&row)] of a row that was read from the table: rewrites the row
    with that primary key. *)
Definition Save {A} (id : A → N) (r : A) (t : Table A) : Table A :=
  mkTable ((λ x, if id x =? id r then r else x) <$> rows t) (next_id t).

End Store.

(** ** net/http status codes and the JSON answers of the handlers *)

Module http.
Definition StatusOK : N := 200.
Definition StatusCreated : N := 201.
Definition StatusBadRequest : N := 400.
Definition StatusForbidden : N := 403.
Definition StatusNotFound : N := 404.
Definition StatusConflict : N := 409.
Definition StatusInternalServerError : N := 500.
End http.

(** The [gin.H] bodies the match handlers answer with. *)
Inductive Body :=
| Error (msg : string)                      (* {"error": msg} *)
| Message (msg : string)                    (* {"message": msg} *)
| ItsAMatch (id : N) (user : User.t).       (* {"message": "It's a match!", "match": {id, user, created_at}} *)

Record Response := JSON { status : N; body : Body }.

(** ** handlers: the match engine *)

Module MatchHandler.
Import Store.

(** The double quote, for the string literals of the source that hold one. *)
Definition dq : string := String (Ascii.ascii_of_N 34) EmptyString.

Definition createMatchNotification (ok : Write → bool) (db : DB)
    (userID otherUserID matchID : N) : DB :=
  let notification := λ id,
    Notification.mk id userID "match" "New Match!"
      "You have a new match! Start chatting now."
      ("{" +:+ dq +:+ "match_id" +:+ dq +:+ ": " +:+ strconv.FormatUint matchID +:+ "}")
      false in
  match Create ok (CreateNotification userID) notification (notifications db) with
  | Some (_, t) => with_notifications db t
  | None => db
  end.

Definition cacheMatchData (ok : Write → bool) (db : DB)
    (matchID user1ID user2ID : N) : DB :=
  let matchKey := "match:" +:+ strconv.FormatUint matchID in
  let matchData := mkMatchData matchID user1ID user2ID in
  if ok CacheHSet then with_redis db (<[matchKey := matchData]> (redis db)) else db.

Definition LikeUser (ok : Write → bool) (db : DB) (userID : N) (param : string)
    : Response * DB :=
  match strconv.ParseUint param 32 with
  | None => (JSON http.StatusBadRequest (Error "Invalid user ID"), db)
  | Some likedID =>
    (* Check if user exists and is active *)
    match First (λ u, (User.ID u =? likedID) && User.IsActive u)
                (users db) with
    | None => (JSON http.StatusNotFound (Error "User not found"), db)
    | Some likedUser =>
      (* Check if already liked *)
      match First (λ l, (Like.LikerID l =? userID) && (Like.LikedID l =? likedID))
                  (likes db) with
      | Some _ => (JSON http.StatusConflict (Error "User already liked"), db)
      | None =>
        (* Check if user is blocked *)
        match First (λ b, (BlockedUser.BlockerID b =? userID)
                          && (BlockedUser.BlockedID b =? likedID))
                    (blocked_users db) with
        | Some _ => (JSON http.StatusForbidden (Error "Cannot like blocked user"), db)
        | None =>
          (* Create like *)
          match Create ok CreateLike (λ id, Like.mk id userID likedID) (likes db) with
          | None => (JSON http.StatusInternalServerError (Error "Failed to create like"), db)
          | Some (_, t) =>
            let db1 := with_likes db t in
            (* Check for mutual like (match) *)
            match First (λ l, (Like.LikerID l =? likedID) && (Like.LikedID l =? userID))
                        (likes db1) with
            | Some _ =>
              (* Create match *)
              match Create ok CreateMatch (λ id, Match.mk id userID likedID true)
                           (matches db1) with
              | None =>
                  (JSON http.StatusInternalServerError (Error "Failed to create match"), db1)
              | Some (match_, t) =>
                let db2 := with_matches db1 t in
                (* Create conversation *)
                match Create ok CreateConversation
                             (λ id, Conversation.mk id (Match.ID match_) true)
                             (conversations db2) with
                | None =>
                    (JSON http.StatusInternalServerError
                          (Error "Failed to create conversation"), db2)
                | Some (_, t) =>
                  let db3 := with_conversations db2 t in
                  (* Create notifications for both users *)
                  let db4 := createMatchNotification ok db3 userID likedID (Match.ID match_) in
                  let db5 := createMatchNotification ok db4 likedID userID (Match.ID match_) in
                  (* Cache match data in Redis *)
                  let db6 := cacheMatchData ok db5 (Match.ID match_) userID likedID in
                  (JSON http.StatusCreated (ItsAMatch (Match.ID match_) likedUser), db6)
                end
              end
            | None => (JSON http.StatusOK (Message "User liked successfully"), db1)
            end
          end
        end
      end
    end
  end.

Definition DislikeUser (ok : Write → bool) (db : DB) (userID : N) (param : string)
    : Response * DB :=
  match strconv.ParseUint param 32 with
  | None => (JSON http.StatusBadRequest (Error "Invalid user ID"), db)
  | Some dislikedID =>
    (* Check if already disliked *)
    match First (λ d, (Dislike.DislikerID d =? userID) && (Dislike.DislikedID d =? dislikedID))
                (dislikes db) with
    | Some _ => (JSON http.StatusConflict (Error "User already disliked"), db)
    | None =>
      (* Create dislike *)
      match Create ok CreateDislike (λ id, Dislike.mk id userID dislikedID) (dislikes db) with
      | None => (JSON http.StatusInternalServerError (Error "Failed to create dislike"), db)
      | Some (_, t) =>
          (JSON http.StatusOK (Message "User disliked successfully"), with_dislikes db t)
      end
    end
  end.

Definition Unmatch (ok : Write → bool) (db : DB) (userID : N) (param : string)
    : Response * DB :=
  match strconv.ParseUint param 32 with
  | None => (JSON http.StatusBadRequest (Error "Invalid match ID"), db)
  | Some matchID =>
    (* Find match *)
    match First (λ m, (Match.ID m =? matchID)
                      && ((Match.User1ID m =? userID) || (Match.User2ID m =? userID))
                      && Match.IsActive m)
                (matches db) with
    | None => (JSON http.StatusNotFound (Error "Match not found"), db)
    | Some m =>
      (* Deactivate match *)
      let match_ := Match.mk (Match.ID m) (Match.User1ID m) (Match.User2ID m) false in
      if ok SaveMatch then
        let db1 := with_matches db (Save Match.ID match_ (matches db)) in
        (* Deactivate conversation *)
        let db2 :=
          match First (λ c, Conversation.MatchID c =? matchID) (conversations db1) with
          | Some c =>
              let conversation :=
                Conversation.mk (Conversation.ID c) (Conversation.MatchID c) false in
              if ok SaveConversation
              then with_conversations db1 (Save Conversation.ID conversation (conversations db1))
              else db1
          | None => db1
          end in
        (* Remove from Redis cache *)
        let db3 :=
          if ok CacheDel
          then with_redis db2 (delete ("match:" +:+ strconv.FormatUint matchID) (redis db2))
          else db2 in
        (JSON http.StatusOK (Message "Unmatched successfully"), db3)
      else (JSON http.StatusInternalServerError (Error "Failed to unmatch"), db)
    end
  end.

End MatchHandler.

(** ** internal/websocket: the hub *)

Module websocket.

(** *** Decoded JSON

    [json.Unmarshal] into a [map[string]interface{}] yields [nil], [bool],
    [float64], [string], [[]interface{}] and [map[string]interface{}]
    values.  A [float64] is an IEEE 754 binary64 datum. *)
Definition float64 := spec_float.

#[local] Set Warnings "-register-all".
Inductive JValue :=
| JNull
| JBool (b : bool)
| JNumber (f : float64)
| JString (s : string)
| JArray (l : list JValue)
| JObject (m : list (string * JValue)).

(** The integer part of a finite [float64] (the fraction is discarded). *)
Definition float64_trunc (f : float64) : option Z :=
  match f with
  | S754_zero _ => Some 0%Z
  | S754_finite s m e =>
      let a := Z.shiftl (Z.pos m) e in Some (if s then (- a)%Z else a)
  | S754_infinity _ => None
  | S754_nan => None
  end.

(** Go leaves the result of [uint(f)] to the implementation when [f] has
    no integer part that a [uint] can hold; the platform decides. *)
Class Platform := mkPlatform { uint_unrepresentable : float64 → N }.

(** The conversion [uint(f)] of a [float64], on a 64-bit platform. *)
Definition uint `{Platform} (f : float64) : N :=
  match float64_trunc f with
  | Some z =>
      if ((0 <=? z) && (z <? 2 ^ 64))%Z then Z.to_N z else uint_unrepresentable f
  | None => uint_unrepresentable f
  end.

(** *** Outbound frames *)

Record TypingMessage := mkTypingMessage {
  Type_ : string;            (* json:"type" *)
  ConversationID : N;        (* json:"conversation_id" *)
  UserID : N;                (* json:"user_id" *)
  IsTyping : bool            (* json:"is_typing" *)
}.

Definition dq : string := String (Ascii.ascii_of_N 34) EmptyString.

(** A JSON string without characters that need an escape, which is the
    case of the field names and of the one string value the hub marshals. *)
Definition json_string (s : string) : string := dq +:+ s +:+ dq.

Definition json_bool (b : bool) : string := if b then "true" else "false".

(** [json.Marshal] of a [TypingMessage]: the fields in declaration order
    under their tags. *)
Definition Marshal (m : TypingMessage) : string :=
  "{" +:+ json_string "type" +:+ ":" +:+ json_string (Type_ m)
  +:+ "," +:+ json_string "conversation_id" +:+ ":" +:+ strconv.FormatUint (ConversationID m)
  +:+ "," +:+ json_string "user_id" +:+ ":" +:+ strconv.FormatUint (UserID m)
  +:+ "," +:+ json_string "is_typing" +:+ ":" +:+ json_bool (IsTyping m)
  +:+ "}".

(** *** Channels and connections *)

(** A [chan []byte]: the buffered messages, oldest first, and whether the
    channel was closed.  [None] below is a run-time panic. *)
Record Chan := mkChan { buf : list string; closed : bool }.

(** [make(chan []byte, 256)] *)
Definition capacity : nat := 256.
Definition make_chan : Chan := mkChan [] false.

Inductive Select := Sent (ch : Chan) | Default.

(** [select { case ch <- message: default: }] *)
Definition select_send (ch : Chan) (message : string) : option Select :=
  if closed ch then None
  else if (length (buf ch) <? capacity)%nat
       then Some (Sent (mkChan (buf ch ++ [message]) false))
       else Some Default.

(** [close(ch)] *)
Definition close (ch : Chan) : option Chan :=
  if closed ch then None else Some (mkChan (buf ch) true).

Inductive Frame := TextMessage (data : string) | CloseMessage.

(** A [*websocket.Conn]: what was written to the peer, and whether the
    socket was closed. *)
Record Conn := mkConn { written : list Frame; conn_closed : bool }.

(** [conn.WriteMessage]: [None] is a non-nil error. *)
Definition WriteMessage (conn : Conn) (f : Frame) : option Conn :=
  if conn_closed conn then None else Some (mkConn (written conn ++ [f]) false).

(** [conn.Close()] *)
Definition Close (conn : Conn) : Conn := mkConn (written conn) true.

(** *** Clients and the hub *)

Record Client := mkClient {
  conn : Conn;
  send : Chan;
  userID : N;
  conversationID : N
}.

Definition with_send (c : Client) (ch : Chan) : Client :=
  mkClient (conn c) ch (userID c) (conversationID c).
Definition with_conn (c : Client) (k : Conn) : Client :=
  mkClient k (send c) (userID c) (conversationID c).
Definition with_conversationID (c : Client) (id : N) : Client :=
  mkClient (conn c) (send c) (userID c) id.

(** A [*Client] is an address. *)
Abbreviation ptr := positive (only parsing).

(** The clients allocated so far, by address, and [Hub.clients]. *)
Record State := mkState {
  heap : gmap positive Client;
  clients : gmap positive bool
}.

(** [NewHub()] *)
Definition NewHub : State := mkState ∅ ∅.

Definition store (p : ptr) (c : Client) (st : State) : State :=
  mkState (<[p := c]> (heap st)) (clients st).

(** The body shared by the three broadcast loops:
    [select { case client.send <- message: default: close(client.send); delete(h.clients, client) }] *)
Definition offer (message : string) (p : ptr) (st : State) : option State :=
  c ← heap st !! p;
  r ← select_send (send c) message;
  match r with
  | Sent ch => Some (store p (with_send c ch) st)
  | Default =>
      ch ← close (send c);
      Some (mkState (<[p := with_send c ch]> (heap st)) (delete p (clients st)))
  end.

(** [for client := range h.clients { body }], over the keys in the order
    the run time happens to yield them.  The bodies below delete at most
    the key they are visiting. *)
Fixpoint range (keys : list ptr) (body : ptr → State → option State) (st : State)
    : option State :=
  match keys with
  | [] => Some st
  | p :: keys' => st' ← body p st; range keys' body st'
  end.

Definition keys (st : State) : list ptr := (map_to_list (clients st)).*1.

(** The cases of [Hub.Run]. *)
Definition register (client : ptr) (st : State) : State :=
  mkState (heap st) (<[client := true]> (clients st)).

Definition unregister (client : ptr) (st : State) : option State :=
  match clients st !! client with
  | Some _ =>
      c ← heap st !! client;
      ch ← close (send c);
      Some (mkState (<[client := with_send c ch]> (heap st)) (delete client (clients st)))
  | None => Some st
  end.

Definition broadcast (message : string) (st : State) : option State :=
  range (keys st) (offer message) st.

Definition BroadcastToConversation (conversationID_ : N) (message : string) (st : State)
    : option State :=
  range (keys st)
    (λ p st, c ← heap st !! p;
             if conversationID c =? conversationID_ then offer message p st else Some st)
    st.

Definition BroadcastToUser (userID_ : N) (message : string) (st : State)
    : option State :=
  range (keys st)
    (λ p st, c ← heap st !! p;
             if userID c =? userID_ then offer message p st else Some st)
    st.

(** [HandleWebSocket]: [upgraded] says whether [upgrader.Upgrade]
    succeeded, [user_id] is what the authentication middleware left in the
    request context.  Answers the state and the client it registered. *)
Definition HandleWebSocket (upgraded : bool) (user_id : option N) (st : State)
    : State * option ptr :=
  if upgraded then
    match user_id with
    | None => (st, None)
    | Some uid =>
        let client := fresh (dom (heap st)) in
        let st' := store client (mkClient (mkConn [] false) make_chan uid 0) st in
        (register client st', Some client)
    end
  else (st, None).

(** *** The pumps *)

(** What one turn of the read loop gets from the two library calls it
    makes: an error of [conn.ReadMessage] (unreadable socket, violation of
    the WebSocket protocol), bytes that [json.Unmarshal] rejects (anything
    but a JSON object or [null]), or the map it decodes the bytes to. *)
Inductive Inbound :=
| ReadError
| Unparsable
| Parsed (message : gmap string JValue).

Inductive Pump := Blocked | Returned.

Definition typing `{Platform} (c : ptr) (message : gmap string JValue)
    (is_typing : bool) (st : State) : option State :=
  match message !! "conversation_id" with
  | Some (JNumber convID) =>
      cl ← heap st !! c;
      let typingMsg := mkTypingMessage "typing" (uint convID) (userID cl) is_typing in
      BroadcastToConversation (uint convID) (Marshal typingMsg) st
  | _ => Some st
  end.

(** The [switch message["type"]] of the read loop. *)
Definition dispatch `{Platform} (c : ptr) (message : gmap string JValue) (st : State)
    : option State :=
  match message !! "type" with
  | Some (JString ty) =>
      if decide (ty = "join_conversation") then
        match message !! "conversation_id" with
        | Some (JNumber convID) =>
            cl ← heap st !! c;
            Some (store c (with_conversationID cl (uint convID)) st)
        | _ => Some st
        end
      else if decide (ty = "typing") then typing c message true st
      else if decide (ty = "stop_typing") then typing c message false st
      else Some st
  | _ => Some st
  end.

(** The deferred function of [readPump]. *)
Definition readPump_deferred (c : ptr) (st : State) : option State :=
  st' ← unregister c st;
  cl ← heap st' !! c;
  Some (store c (with_conn cl (Close (conn cl))) st').

(** [readPump] on the inputs its socket yields; when they run out the pump
    is blocked in [ReadMessage]. *)
Fixpoint readPump `{Platform} (c : ptr) (inputs : list Inbound) (st : State)
    : option (State * Pump) :=
  match inputs with
  | [] => Some (st, Blocked)
  | ReadError :: _ => st' ← readPump_deferred c st; Some (st', Returned)
  | Unparsable :: rest => readPump c rest st
  | Parsed message :: rest => st' ← dispatch c message st; readPump c rest st'
  end.

(** The loop of [writePump] on the messages buffered in [c.send]. *)
Fixpoint writePump_loop (pending : list string) (chan_closed : bool) (k : Conn)
    : list string * Conn * Pump :=
  match pending with
  | message :: rest =>
      match WriteMessage k (TextMessage message) with
      | Some k' => writePump_loop rest chan_closed k'
      | None => (rest, Close k, Returned)
      end
  | [] =>
      if chan_closed then
        match WriteMessage k CloseMessage with
        | Some k' => ([], Close k', Returned)
        | None => ([], Close k, Returned)
        end
      else ([], k, Blocked)
  end.

Definition writePump (c : ptr) (st : State) : option (State * Pump) :=
  cl ← heap st !! c;
  let '(rest, k, pump) := writePump_loop (buf (send cl)) (closed (send cl)) (conn cl) in
  Some (store c (mkClient k (mkChan rest (closed (send cl))) (userID cl) (conversationID cl)) st,
        pump).

End websocket.

(** ** Vocabulary of the specification *)

Import Store.

(** Is there an active account [u]? *)
Definition active_user (db : DB) (u : N) : bool :=
  existsb (λ r, (User.ID r =? u) && User.IsActive r) (rows (users db)).

(** Is there a Like row [a → b]? *)
Definition has_like (db : DB) (a b : N) : bool :=
  existsb (λ l, (Like.LikerID l =? a) && (Like.LikedID l =? b)) (rows (likes db)).

(** Is there a Dislike row [a → b]? *)
Definition has_dislike (db : DB) (a b : N) : bool :=
  existsb (λ d, (Dislike.DislikerID d =? a) && (Dislike.DislikedID d =? b))
          (rows (dislikes db)).

(** Has [a] blocked [b]? *)
Definition has_block (db : DB) (a b : N) : bool :=
  existsb (λ x, (BlockedUser.BlockerID x =? a) && (BlockedUser.BlockedID x =? b))
          (rows (blocked_users db)).

(** No Like row and no block between [a] and [b], in either direction. *)
Definition no_prior_interaction (db : DB) (a b : N) : Prop :=
  has_like db a b = false ∧ has_like db b a = false ∧
  has_block db a b = false ∧ has_block db b a = false.

(** Is [u] one of the two users of [m]? *)
Definition participant (u : N) (m : Match.t) : bool :=
  (Match.User1ID m =? u) || (Match.User2ID m =? u).

(** The row [Unmatch] looks for: the match [mid], active, with [u] in it. *)
Definition unmatch_query (u mid : N) (m : Match.t) : bool :=
  (Match.ID m =? mid) && participant u m && Match.IsActive m.

(** What the primary keys and the sequences of the store guarantee for the
    two tables the match engine rewrites rows of. *)
Record db_wf (db : DB) : Prop := mk_db_wf {
  wf_match_ids : NoDup (Match.ID <$> rows (matches db));
  wf_match_seq :
    Forall (λ i, i < next_id (matches db)) (Match.ID <$> rows (matches db));
  wf_conv_ids : NoDup (Conversation.ID <$> rows (conversations db));
  wf_conv_seq :
    Forall (λ i, i < next_id (conversations db))
           (Conversation.ID <$> rows (conversations db));
  wf_conv_match : NoDup (Conversation.MatchID <$> rows (conversations db));
  wf_conv_match_seq :
    Forall (λ i, i < next_id (matches db))
           (Conversation.MatchID <$> rows (conversations db))
}.

(** The rows [Unmatch] leaves behind. *)
Definition deactivate_match (m : Match.t) : Match.t :=
  Match.mk (Match.ID m) (Match.User1ID m) (Match.User2ID m) false.
Definition deactivate_conversation (c : Conversation.t) : Conversation.t :=
  Conversation.mk (Conversation.ID c) (Conversation.MatchID c) false.

(** The requests of the match engine. *)
Inductive Request :=
| ReqLike (userID : N) (param : string)
| ReqDislike (userID : N) (param : string)
| ReqUnmatch (userID : N) (param : string).

Definition serve (ok : Write → bool) (db : DB) (rq : Request) : Response * DB :=
  match rq with
  | ReqLike u p => MatchHandler.LikeUser ok db u p
  | ReqDislike u p => MatchHandler.DislikeUser ok db u p
  | ReqUnmatch u p => MatchHandler.Unmatch ok db u p
  end.

(** The store after a sequence of requests, each with its own oracle. *)
Fixpoint serve_all (db : DB) (rqs : list ((Write → bool) * Request)) : DB :=
  match rqs with
  | [] => db
  | (ok, rq) :: rqs' => serve_all (serve ok db rq).2 rqs'
  end.

(** *** The hub *)

Import websocket.

(** Every registered client is allocated and its [send] channel is open. *)
Definition hub_inv (st : State) : Prop :=
  ∀ p b, clients st !! p = Some b →
         ∃ c, heap st !! p = Some c ∧ closed (send c) = false.

(** Is there room in the outbound queue of [c]? *)
Definition has_room (c : Client) : bool :=
  (length (buf (send c)) <? capacity)%nat.

(** The client after a broadcast loop has offered it [message]: the message is
    queued when there is room, otherwise the channel is closed. *)
Definition offered (message : string) (c : Client) : Client :=
  if has_room c
  then with_send c (mkChan (buf (send c) ++ [message]) false)
  else with_send c (mkChan (buf (send c)) true).

(** The body of the conversation and user loops: the test on the client,
    then the [select]. *)
Definition fanout (sel : Client → bool) (message : string) (p : ptr) (st : State)
    : option State :=
  c ← heap st !! p; if sel c then offer message p st else Some st.

(** The operations on the hub. *)
Inductive HubOp :=
| OpConnect (upgraded : bool) (user_id : option N)     (* HandleWebSocket, which registers *)
| OpUnregister (client : ptr)
| OpBroadcast (message : string)
| OpToConversation (conversationID_ : N) (message : string)
| OpToUser (userID_ : N) (message : string).

(** [None] is a run-time panic. *)
Definition run_op (op : HubOp) (st : State) : option State :=
  match op with
  | OpConnect upgraded user_id => Some (HandleWebSocket upgraded user_id st).1
  | OpUnregister client => unregister client st
  | OpBroadcast message => broadcast message st
  | OpToConversation id message => BroadcastToConversation id message st
  | OpToUser id message => BroadcastToUser id message st
  end.

(** The clients a broadcast operation selects. *)
Definition op_selects (op : HubOp) (c : Client) : bool :=
  match op with
  | OpBroadcast _ => true
  | OpToConversation id _ => conversationID c =? id
  | OpToUser id _ => userID c =? id
  | _ => false
  end.

(** The typing frame as the protocol table of the specification writes it:
    [{"type":"typing","conversation_id":c,"user_id":u,"is_typing":b}]. *)
Definition typing_frame (conversation_id user_id : N) (is_typing : bool) : string :=
  let q := λ s : string, dq +:+ s +:+ dq in
  "{" +:+ q "type" +:+ ":" +:+ q "typing" +:+ ","
  +:+ q "conversation_id" +:+ ":" +:+ pretty conversation_id +:+ ","
  +:+ q "user_id" +:+ ":" +:+ pretty user_id +:+ ","
  +:+ q "is_typing" +:+ ":" +:+ (if is_typing then "true" else "false") +:+ "}".

(** The [float64] datum whose value is the integer [n]. *)
Definition represents (f : float64) (n : N) : Prop :=
  float64_trunc f = Some (Z.of_N n) ∧ n < 2 ^ 64.

(** A session that was torn down: out of the registry, socket closed. *)
Definition torn_down (st : State) (p : ptr) : Prop :=
  clients st !! p = None ∧ (conn_closed ∘ conn) <$> heap st !! p = Some true.

(** ** Sample data *)

(** A platform on which an unrepresentable conversion yields [1 << 63]. *)
#[local] Instance amd64 : Platform := mkPlatform (λ _, 9223372036854775808).

(** 7.0 as a binary64 datum: mantissa 7 * 2^50, exponent -50. *)
Definition seven : float64 := S754_finite false 7881299347898368 (-50).

Definition join_7 : gmap string JValue :=
  {[ "type" := JString "join_conversation"; "conversation_id" := JNumber seven ]}.
Definition typing_7 : gmap string JValue :=
  {[ "type" := JString "typing"; "conversation_id" := JNumber seven ]}.
Definition stop_typing_7 : gmap string JValue :=
  {[ "type" := JString "stop_typing"; "conversation_id" := JNumber seven ]}.

(** A hub with one connected client, of user 5, at address 1. *)
Definition st_one : State := (HandleWebSocket true (Some 5) NewHub).1.

(** The same client with 256 undelivered messages, joined to conversation 7. *)
Definition st_full : State :=
  mkState {[ 1%positive := mkClient (mkConn [] false) (mkChan (replicate 256 "m") false) 5 7 ]}
          {[ 1%positive := true ]}.

Definition alice : User.t := User.mk 1 "Alice" true.
Definition bob : User.t := User.mk 2 "Bob" true.
Definition carol : User.t := User.mk 3 "Carol" true.
Definition dave : User.t := User.mk 4 "Dave" false.   (* a deactivated account *)

(** Four accounts and nothing else. *)
Definition db0 : DB :=
  mkDB (mkTable [alice; bob; carol; dave] 5) empty_table empty_table empty_table
       empty_table empty_table empty_table ∅.

(** Alice liked Dave and blocked him before his account was deactivated. *)
Definition db_dave : DB :=
  mkDB (mkTable [alice; bob; carol; dave] 5)
       (mkTable [BlockedUser.mk 1 1 4] 2)
       (mkTable [Like.mk 1 1 4] 2)
       empty_table empty_table empty_table empty_table ∅.

(** Alice has blocked Bob; Carol was blocked by Bob. *)
Definition db_blocks : DB :=
  mkDB (mkTable [alice; bob; carol; dave] 5)
       (mkTable [BlockedUser.mk 1 1 2; BlockedUser.mk 2 2 3] 3)
       empty_table empty_table empty_table empty_table empty_table ∅.

(** [BlockUser]'s insert: [a] blocks [b]. *)
Definition add_block (db : DB) (a b : N) : DB :=
  with_blocked_users db (insert (λ id, BlockedUser.mk id a b) (blocked_users db)).2.

(** Alice and Bob have liked each other: one match, one conversation. *)
Definition db_matched : DB :=
  (MatchHandler.LikeUser all_ok (MatchHandler.LikeUser all_ok db0 1 "2").2 2 "1").2.

(** ** utils *)

Module utils.
Import Stdlib.Strings.Ascii.

(** [char >= '0' && char <= '9'] *)
Definition isDigit (c : Ascii.ascii) : bool :=
  let n := Ascii.N_of_ascii c in (48 <=? n) && (n <=? 57).

(** The loop of [FormatPhoneNumber] that keeps the digits.  The source
    ranges over the runes of the string; a digit is a one-byte rune and no
    byte of a longer (or of an invalid) encoding lies in ['0', '9'], so the
    loop keeps exactly the digit bytes. *)
Fixpoint cleaned (phone : string) : string :=
  match phone with
  | EmptyString => EmptyString
  | String c rest => if isDigit c then String c (cleaned rest) else cleaned rest
  end.

(** [s[1:]] of a non-empty string. *)
Definition tail (s : string) : string :=
  match s with EmptyString => EmptyString | String _ rest => rest end.

(** [s[0] == c] *)
Definition first_is (c : Ascii.ascii) (s : string) : bool :=
  match s with EmptyString => false | String d _ => Ascii.eqb d c end.

Definition FormatPhoneNumber (phone : string) : string :=
  let cleaned := cleaned phone in
  (* Add Ethiopian country code if not present *)
  if (String.length cleaned =? 9)%nat && first_is "9"%char cleaned then "+251" +:+ cleaned
  else if (String.length cleaned =? 10)%nat && first_is "0"%char cleaned
  then "+251" +:+ tail cleaned
  else if (String.length cleaned =? 12)%nat && String.eqb (String.substring 0 3 cleaned) "251"
  then "+" +:+ cleaned
  else "+" +:+ cleaned.

(** [n] copies of ['0']. *)
Fixpoint zeros (n : nat) : string :=
  match n with O => EmptyString | S n' => String "0"%char (zeros n') end.

(** [fmt.Sprintf("%06d", n)] for a non-negative [n]: the decimal digits,
    padded with zeros on the left to six characters. *)
Definition Sprintf_06d (n : N) : string :=
  let s := strconv.FormatUint n in
  zeros (6 - String.length s) +:+ s.

(** [GenerateOTP]; [draw] is what [rand.Int(rand.Reader, 999999)] returned,
    [None] for its error. *)
Definition GenerateOTP (draw : option N) : option string :=
  match draw with
  | None => None
  | Some n => Some (Sprintf_06d n)
  end.

End utils.

(** ** More vocabulary for the hub *)

(** No outbound queue holds more than its channel can buffer. *)
Definition queues_bounded (st : State) : Prop :=
  ∀ p c, heap st !! p = Some c → (length (buf (send c)) ≤ capacity)%nat.

(** The two statements of the [default] branch of the broadcast loops, one
    at a time: [close(client.send)], then [delete(h.clients, client)].  The
    loops of [BroadcastToConversation] and [BroadcastToUser] run on the
    goroutine of their caller and the hub takes no lock, so another
    goroutine can run between the two. *)
Definition evict_close (p : ptr) (st : State) : option State :=
  c ← heap st !! p;
  ch ← close (send c);
  Some (store p (with_send c ch) st).

Definition evict_delete (p : ptr) (st : State) : State :=
  mkState (heap st) (delete p (clients st)).

(** ** The other tables and handlers *)

Module Favorite.
Record t := mk { ID : N; UserID : N; FavoriteID : N }.
End Favorite.

Module ChatMessage.
(** [models.Message]; [ReadAt] is set together with [IsRead] and is left
    out with the other time stamps. *)
Record t := mk {
  ID : N; ConversationID : N; SenderID : N; Content : string;
  MessageType : string; IsRead : bool }.
End ChatMessage.

Module UserActivity.
Record t := mk {
  ID : N; UserID : N; Action : string; IPAddress : string; UserAgent : string }.
End UserActivity.

Module AppStore.

(** The store of [Store], with the tables the handlers below use besides. *)
Record AppDB := mkAppDB {
  core : DB;
  favorites : Table Favorite.t;
  messages : Table ChatMessage.t;
  activities : Table UserActivity.t
}.

Definition with_core (db : AppDB) (c : DB) : AppDB :=
  mkAppDB c (favorites db) (messages db) (activities db).
Definition with_favorites (db : AppDB) (t : Table Favorite.t) : AppDB :=
  mkAppDB (core db) t (messages db) (activities db).
Definition with_messages (db : AppDB) (t : Table ChatMessage.t) : AppDB :=
  mkAppDB (core db) (favorites db) t (activities db).
Definition with_activities (db : AppDB) (t : Table UserActivity.t) : AppDB :=
  mkAppDB (core db) (favorites db) (messages db) t.
Definition with_users (db : DB) (t : Table User.t) : DB :=
  mkDB t (blocked_users db) (likes db) (dislikes db) (matches db)
       (conversations db) (notifications db) (redis db).

(** The writes of these handlers; as in [Store], an oracle says which of
    them the store accepts. *)
Inductive AppWrite :=
| CreateBlockedUser
| DeleteBlockedUser
| CreateFavorite
| DeleteFavorite
| SaveUser
| CreateUserActivity
| CreateMessage
| UpdateMessages
| CreateMessageNotification.

Definition all_accepted : AppWrite → bool := λ _, true.

(** [db.Where(p).Delete(&T{})] on a table without [DeletedAt]: the rows that
    satisfy [p] are removed. *)
Definition Delete {A} (p : A → bool) (t : Table A) : Table A :=
  mkTable (List.filter (λ x, negb (p x)) (rows t)) (next_id t).

(** [db.Model(&T{}).Where(p).Updates(...)]: the rows that satisfy [p] are
    rewritten by [f]. *)
Definition Updates {A} (p : A → bool) (f : A → A) (t : Table A) : Table A :=
  mkTable ((λ x, if p x then f x else x) <$> rows t) (next_id t).

End AppStore.

Module UserHandler.
Import AppStore.

Definition BlockUser (ok : AppWrite → bool) (db : AppDB) (userID : N) (param : string)
    : Response * AppDB :=
  match strconv.ParseUint param 32 with
  | None => (JSON http.StatusBadRequest (Error "Invalid user ID"), db)
  | Some blockedID =>
    (* Check if user exists *)
    match First (λ u, User.ID u =? blockedID) (users (core db)) with
    | None => (JSON http.StatusNotFound (Error "User not found"), db)
    | Some _ =>
      (* Check if already blocked *)
      match First (λ b, (BlockedUser.BlockerID b =? userID)
                        && (BlockedUser.BlockedID b =? blockedID))
                  (blocked_users (core db)) with
      | Some _ => (JSON http.StatusConflict (Error "User already blocked"), db)
      | None =>
        (* Block user *)
        if ok CreateBlockedUser then
          let db1 :=
            with_core db
              (with_blocked_users (core db)
                 (insert (λ id, BlockedUser.mk id userID blockedID)
                         (blocked_users (core db))).2) in
          (* Remove from favorites if exists *)
          let db2 :=
            if ok DeleteFavorite
            then with_favorites db1
                   (Delete (λ f, (Favorite.UserID f =? userID)
                                 && (Favorite.FavoriteID f =? blockedID))
                           (favorites db1))
            else db1 in
          (JSON http.StatusCreated (Message "User blocked successfully"), db2)
        else (JSON http.StatusInternalServerError (Error "Failed to block user"), db)
      end
    end
  end.

Definition UnblockUser (ok : AppWrite → bool) (db : AppDB) (userID : N) (param : string)
    : Response * AppDB :=
  match strconv.ParseUint param 32 with
  | None => (JSON http.StatusBadRequest (Error "Invalid user ID"), db)
  | Some blockedID =>
    if ok DeleteBlockedUser then
      (JSON http.StatusOK (Message "User unblocked successfully"),
       with_core db
         (with_blocked_users (core db)
            (Delete (λ b, (BlockedUser.BlockerID b =? userID)
                          && (BlockedUser.BlockedID b =? blockedID))
                    (blocked_users (core db)))))
    else (JSON http.StatusInternalServerError (Error "Failed to unblock user"), db)
  end.

Definition AddToFavorites (ok : AppWrite → bool) (db : AppDB) (userID : N) (param : string)
    : Response * AppDB :=
  match strconv.ParseUint param 32 with
  | None => (JSON http.StatusBadRequest (Error "Invalid user ID"), db)
  | Some favoriteID =>
    (* Check if user exists *)
    match First (λ u, User.ID u =? favoriteID) (users (core db)) with
    | None => (JSON http.StatusNotFound (Error "User not found"), db)
    | Some _ =>
      (* Check if already in favorites *)
      match First (λ f, (Favorite.UserID f =? userID) && (Favorite.FavoriteID f =? favoriteID))
                  (favorites db) with
      | Some _ => (JSON http.StatusConflict (Error "User already in favorites"), db)
      | None =>
        if ok CreateFavorite then
          (JSON http.StatusCreated (Message "Added to favorites successfully"),
           with_favorites db
             (insert (λ id, Favorite.mk id userID favoriteID) (favorites db)).2)
        else (JSON http.StatusInternalServerError (Error "Failed to add to favorites"), db)
      end
    end
  end.

Definition RemoveFromFavorites (ok : AppWrite → bool) (db : AppDB) (userID : N)
    (param : string) : Response * AppDB :=
  match strconv.ParseUint param 32 with
  | None => (JSON http.StatusBadRequest (Error "Invalid user ID"), db)
  | Some favoriteID =>
    if ok DeleteFavorite then
      (JSON http.StatusOK (Message "Removed from favorites successfully"),
       with_favorites db
         (Delete (λ f, (Favorite.UserID f =? userID) && (Favorite.FavoriteID f =? favoriteID))
                 (favorites db)))
    else (JSON http.StatusInternalServerError (Error "Failed to remove from favorites"), db)
  end.

End UserHandler.

Module AdminHandler.
Import AppStore.

(** [UpdateUserStatus]; [body] is the status of the request as
    [ShouldBindJSON] decodes it, [None] when the body does not decode, and
    [bindError] the text of the error the binder gives when it rejects the
    request. *)
Definition UpdateUserStatus (ok : AppWrite → bool) (db : AppDB) (param : string)
    (body : option string) (bindError clientIP userAgent : string) : Response * AppDB :=
  match strconv.ParseUint param 32 with
  | None => (JSON http.StatusBadRequest (Error "Invalid user ID"), db)
  | Some userID =>
    match body with
    | None => (JSON http.StatusBadRequest (Error bindError), db)
    | Some status_ =>
      (* binding:"required,oneof=active inactive suspended" *)
      if negb (bool_decide (status_ ∈ ["active"; "inactive"; "suspended"]))
      then (JSON http.StatusBadRequest (Error bindError), db)
      else
        match First (λ u, User.ID u =? userID) (users (core db)) with
        | None => (JSON http.StatusNotFound (Error "User not found"), db)
        | Some user =>
          (* Update status *)
          let user' :=
            if decide (status_ = "active")
            then User.mk (User.ID user) (User.FirstName user) true
            else if decide (status_ = "inactive")
            then User.mk (User.ID user) (User.FirstName user) false
            else if decide (status_ = "suspended")
            then User.mk (User.ID user) (User.FirstName user) false
            else user in
          if ok SaveUser then
            let db1 := with_core db (with_users (core db) (Save User.ID user' (users (core db)))) in
            (* Log admin action *)
            let db2 :=
              if ok CreateUserActivity
              then with_activities db1
                     (insert (λ id, UserActivity.mk id userID "status_updated" clientIP userAgent)
                             (activities db1)).2
              else db1 in
            (JSON http.StatusOK (Message "User status updated successfully"), db2)
          else (JSON http.StatusInternalServerError (Error "Failed to update user status"), db)
        end
    end
  end.

End AdminHandler.

Module MessageHandler.
Import AppStore.

Record SendMessageRequest := mkSendMessageRequest {
  req_Content : string;       (* json:"content" binding:"required" *)
  req_MessageType : string    (* json:"message_type" binding:"omitempty,oneof=text image emoji" *)
}.

Record MessageResponse := mkMessageResponse {
  resp_ID : N;
  resp_SenderID : N;
  resp_Content : string;
  resp_MessageType : string;
  resp_IsRead : bool;
  resp_Sender : option User.t   (* [None] is the zero [models.User] *)
}.

(** What the message handlers answer with. *)
Inductive Payload :=
| PError (msg : string)               (* {"error": msg} *)
| PBindError                          (* {"error": err.Error()}, the text is the binder's *)
| PInfo (msg : string)                (* {"message": msg} *)
| PMessage (m : MessageResponse).     (* {"message": messageResponse} *)

Record Answer := mkAnswer { code : N; payload : Payload }.

(** [websocket.Message], the chat frame. *)
Record Frame := mkFrame {
  frame_Type : string;            (* json:"type" *)
  frame_ConversationID : N;       (* json:"conversation_id" *)
  frame_SenderID : N;             (* json:"sender_id" *)
  frame_Content : string;         (* json:"content" *)
  frame_MessageType : string;     (* json:"message_type" *)
  frame_Timestamp : string        (* json:"timestamp" *)
}.

(** How [encoding/json] writes a Go string as a JSON string, escapes
    included. *)
Class JSONStrings := json_quote : string → string.

(** [json.Marshal] of a chat frame. *)
Definition MarshalFrame `{JSONStrings} (m : Frame) : string :=
  "{" +:+ json_string "type" +:+ ":" +:+ json_quote (frame_Type m)
  +:+ "," +:+ json_string "conversation_id" +:+ ":"
  +:+ strconv.FormatUint (frame_ConversationID m)
  +:+ "," +:+ json_string "sender_id" +:+ ":" +:+ strconv.FormatUint (frame_SenderID m)
  +:+ "," +:+ json_string "content" +:+ ":" +:+ json_quote (frame_Content m)
  +:+ "," +:+ json_string "message_type" +:+ ":" +:+ json_quote (frame_MessageType m)
  +:+ "," +:+ json_string "timestamp" +:+ ":" +:+ json_quote (frame_Timestamp m)
  +:+ "}".

(** [conversations JOIN matches ON conversations.match_id = matches.id] *)
Definition conversations_join_matches (db : DB) : list (Conversation.t * Match.t) :=
  c ← rows (conversations db);
  (λ m, (c, m)) <$> List.filter (λ m, Match.ID m =? Conversation.MatchID c) (rows (matches db)).

Definition userHasAccessToConversation (db : DB) (userID conversationID : N) : bool :=
  (* Check if user is part of the match that owns this conversation *)
  let count :=
    length (List.filter
              (λ '(c, m), (Conversation.ID c =? conversationID)
                          && ((Match.User1ID m =? userID) || (Match.User2ID m =? userID))
                          && Conversation.IsActive c)
              (conversations_join_matches db)) in
  (0 <? count)%nat.

Definition createMessageNotification (ok : AppWrite → bool) (db : DB)
    (conversationID senderID : N) (content : string) : DB :=
  (* Get the other user in the conversation *)
  let otherUserID :=
    match List.filter (λ '(c, _), Conversation.ID c =? conversationID)
                      (conversations_join_matches db) with
    | (_, m) :: _ => if Match.User1ID m =? senderID then Match.User2ID m else Match.User1ID m
    | [] => 0
    end in
  if otherUserID =? 0 then db
  else if ok CreateMessageNotification then
    with_notifications db
      (insert (λ id, Notification.mk id otherUserID "message" "New Message" content
                       ("{" +:+ dq +:+ "conversation_id" +:+ dq +:+ ": "
                        +:+ strconv.FormatUint conversationID +:+ "}")
                       false)
              (notifications db)).2
  else db.

(** The [binding] tags of [SendMessageRequest]. *)
Definition valid (req : SendMessageRequest) : bool :=
  negb (String.eqb (req_Content req) EmptyString)
  && (String.eqb (req_MessageType req) EmptyString
      || bool_decide (req_MessageType req ∈ ["text"; "image"; "emoji"])).

(** [SendMessage].  [body] is the request as [ShouldBindJSON] decodes it
    ([None] when it does not decode), [now] the creation time of the
    message row in RFC 3339 form.  The answer comes with the store and the
    hub afterwards; [None] is a panic of the broadcast. *)
Definition SendMessage `{JSONStrings} (ok : AppWrite → bool) (now : string)
    (db : AppDB) (st : State) (userID : N) (param : string)
    (body : option SendMessageRequest) : option (Answer * AppDB * State) :=
  match strconv.ParseUint param 32 with
  | None => Some (mkAnswer http.StatusBadRequest (PError "Invalid conversation ID"), db, st)
  | Some conversationID =>
    match body with
    | None => Some (mkAnswer http.StatusBadRequest PBindError, db, st)
    | Some req =>
      if negb (valid req) then Some (mkAnswer http.StatusBadRequest PBindError, db, st)
      else
        (* Set default message type *)
        let messageType :=
          if String.eqb (req_MessageType req) EmptyString then "text" else req_MessageType req in
        (* Verify user has access to this conversation *)
        if negb (userHasAccessToConversation (core db) userID conversationID)
        then Some (mkAnswer http.StatusForbidden (PError "Access denied to this conversation"),
                   db, st)
        else
          (* Create message *)
          if ok CreateMessage then
            let '(message, t) :=
              insert (λ id, ChatMessage.mk id conversationID userID (req_Content req)
                              messageType false)
                     (messages db) in
            let db1 := with_messages db t in
            (* Load sender information *)
            let sender := First (λ u, User.ID u =? ChatMessage.SenderID message)
                                (users (core db1)) in
            (* Broadcast message via WebSocket *)
            let messageData :=
              mkFrame "message" conversationID userID (req_Content req) messageType now in
            st' ← BroadcastToConversation conversationID (MarshalFrame messageData) st;
            (* Create notification for the other user *)
            let db2 :=
              with_core db1
                (createMessageNotification ok (core db1) conversationID userID
                                           (req_Content req)) in
            Some (mkAnswer http.StatusCreated
                    (PMessage (mkMessageResponse (ChatMessage.ID message)
                                 (ChatMessage.SenderID message) (ChatMessage.Content message)
                                 (ChatMessage.MessageType message) (ChatMessage.IsRead message)
                                 sender)),
                  db2, st')
          else Some (mkAnswer http.StatusInternalServerError (PError "Failed to send message"),
                     db, st)
    end
  end.

(** The rows [MarkAsRead] and [GetMessages] rewrite: the unread messages of
    the conversation that the user did not send. *)
Definition unread_by (userID conversationID : N) (m : ChatMessage.t) : bool :=
  (ChatMessage.ConversationID m =? conversationID)
  && negb (ChatMessage.SenderID m =? userID)
  && negb (ChatMessage.IsRead m).

Definition mark_read (m : ChatMessage.t) : ChatMessage.t :=
  ChatMessage.mk (ChatMessage.ID m) (ChatMessage.ConversationID m) (ChatMessage.SenderID m)
                 (ChatMessage.Content m) (ChatMessage.MessageType m) true.

Definition MarkAsRead (ok : AppWrite → bool) (db : AppDB) (userID : N) (param : string)
    : Answer * AppDB :=
  match strconv.ParseUint param 32 with
  | None => (mkAnswer http.StatusBadRequest (PError "Invalid conversation ID"), db)
  | Some conversationID =>
    (* Verify user has access to this conversation *)
    if negb (userHasAccessToConversation (core db) userID conversationID)
    then (mkAnswer http.StatusForbidden (PError "Access denied to this conversation"), db)
    else
      (* Mark all messages in this conversation as read *)
      if ok UpdateMessages then
        (mkAnswer http.StatusOK (PInfo "Messages marked as read"),
         with_messages db (Updates (unread_by userID conversationID) mark_read (messages db)))
      else (mkAnswer http.StatusInternalServerError (PError "Failed to mark messages as read"),
            db)
  end.

End MessageHandler.

(** ** More sample data *)

(** Two connected clients: user 5 at address 1, user 6 at address 2. *)
Definition st_two : State := (HandleWebSocket true (Some 6) st_one).1.

(** A client whose queue was closed with two messages left in it. *)
Definition st_closing : State :=
  mkState {[ 1%positive := mkClient (mkConn [] false) (mkChan ["a"; "b"] true) 5 7 ]} ∅.

(** The same client after the teardown of its read pump: the socket is closed. *)
Definition st_hung_up : State :=
  mkState {[ 1%positive := mkClient (mkConn [] true) (mkChan ["a"; "b"] true) 5 7 ]} ∅.

(** The store of Alice and Bob after their match, with no further tables. *)
Definition app_matched : AppStore.AppDB :=
  AppStore.mkAppDB db_matched empty_table empty_table empty_table.

Definition app0 : AppStore.AppDB :=
  AppStore.mkAppDB db0 empty_table empty_table empty_table.

(** Strings that need no escape are written between double quotes. *)
#[local] Instance plain_strings : MessageHandler.JSONStrings := json_string.

(** 8.0 as a binary64 datum: mantissa 2^52, exponent -49. *)
Definition eight : float64 := S754_finite false 4503599627370496 (-49).

Definition join_8 : gmap string JValue :=
  {[ "type" := JString "join_conversation"; "conversation_id" := JNumber eight ]}.

(** ** More vocabulary for the store *)

Import AppStore.

(** Is there an account row [u], active or not? *)
Definition user_exists (db : DB) (u : N) : bool :=
  existsb (λ r, User.ID r =? u) (rows (users db)).

(** What the schema of [migrate] adds to the answers of the store.
    [AutoMigrate] creates the foreign keys of the belongs-to fields
    [Disliker] and [Disliked] of [models.Dislike] (the [gorm.Config] of
    [Initialize] does not disable them), so the store refuses a Dislike row
    that names an id without a users row, whatever else it would accept. *)
Definition migrated (db : DB) (dislikerID dislikedID : N) (ok : Write → bool)
    : Write → bool :=
  λ w, match w with
       | CreateDislike => user_exists db dislikerID && user_exists db dislikedID && ok w
       | _ => ok w
       end.

(** Has [u] put [f] among their favorites? *)
Definition is_favorite (db : AppDB) (u f : N) : bool :=
  existsb (λ x, (Favorite.UserID x =? u) && (Favorite.FavoriteID x =? f))
          (rows (favorites db)).

(** How many messages of the conversation, sent by others, [u] has not read. *)
Definition unread_count (db : AppDB) (u conversationID : N) : nat :=
  length (List.filter (MessageHandler.unread_by u conversationID) (rows (messages db))).

(** * Properties *)

(** ** Reading the tables *)

Section Tables.
Context {A : Type}.
Implicit Types (p : A → bool) (t : Table A).

Lemma First_None p t : First p t = None ↔ existsb p (rows t) = false.
Proof.
  unfold First. induction (rows t) as [|x l IH]; simpl; [done|].
  destruct (p x); simpl; [split; discriminate | exact IH].
Qed.

Lemma First_Some p t x : First p t = Some x → x ∈ rows t ∧ p x = true.
Proof.
  unfold First. intros H. apply find_some in H as [H1 H2].
  split; [by apply list_elem_of_In | done].
Qed.

Lemma First_is_Some p t : existsb p (rows t) = true → ∃ x, First p t = Some x.
Proof.
  intros H. destruct (First p t) eqn:E; [eauto|].
  apply First_None in E. congruence.
Qed.

Lemma existsb_elem p (l : list A) : existsb p l = true ↔ ∃ x, x ∈ l ∧ p x = true.
Proof.
  rewrite existsb_exists. split; intros (x & H1 & H2); exists x;
    (split; [by apply list_elem_of_In | done]).
Qed.

Lemma existsb_snoc p (l : list A) x : existsb p (l ++ [x]) = existsb p l || p x.
Proof. rewrite existsb_app. simpl. by rewrite orb_false_r. Qed.

(** A column without duplicates identifies the row. *)
Lemma NoDup_fmap_eq {B} (f : A → B) (l : list A) x y :
  NoDup (f <$> l) → x ∈ l → y ∈ l → f x = f y → x = y.
Proof.
  induction l as [|z l IH]; simpl; [by intros _ ?%elem_of_nil|].
  intros [Hz Hl]%NoDup_cons [->|Hx]%elem_of_cons [->|Hy]%elem_of_cons Hf; try done.
  - destruct Hz. rewrite Hf. by apply list_elem_of_fmap_2.
  - destruct Hz. rewrite <- Hf. by apply list_elem_of_fmap_2.
  - by apply IH.
Qed.

(** [Save] keeps every column on which the saved row agrees with the rows it
    replaces. *)
Lemma Save_fmap {B} (f : A → B) (id : A → N) (r : A) t :
  (∀ x, x ∈ rows t → id x = id r → f r = f x) →
  f <$> rows (Save id r t) = f <$> rows t.
Proof.
  destruct t as [l n]. unfold Save. simpl. intros H.
  induction l as [|x l IH]; [done|]. rewrite !fmap_cons.
  rewrite IH by (intros; apply H; [by right | done]). f_equal.
  destruct (N.eqb_spec (id x) (id r)); [|done]. apply H; [by left | done].
Qed.

Lemma Save_rows (id : A → N) (r : A) (g : A → A) t :
  (∀ x, x ∈ rows t → (if id x =? id r then r else x) = g x) →
  rows (Save id r t) = g <$> rows t.
Proof.
  destruct t as [l n]. unfold Save. simpl. intros H.
  induction l as [|x l IH]; [done|]. rewrite !fmap_cons.
  rewrite IH by (intros; apply H; by right). f_equal. apply H. by left.
Qed.

Lemma NoDup_snoc_fresh {B} (f : A → B) (l : list A) x :
  NoDup (f <$> l) → f x ∉ f <$> l → NoDup (f <$> (l ++ [x])).
Proof.
  intros Hl Hx. rewrite fmap_app. apply NoDup_app. split; [done|]. split.
  - intros y Hy [->|[]%elem_of_nil]%elem_of_cons. done.
  - simpl. apply NoDup_singleton.
Qed.
End Tables.

Lemma Forall_lt_fresh (l : list N) (n : N) : Forall (λ i, i < n) l → n ∉ l.
Proof. intros H Hn. rewrite Forall_forall in H. specialize (H _ Hn). lia. Qed.

Lemma Forall_lt_succ (l : list N) (n : N) :
  Forall (λ i, i < n) l → Forall (λ i, i < n + 1) l.
Proof. intros H. eapply Forall_impl; [exact H|]. intros. simpl in *. lia. Qed.

(** ** The match engine *)

Section MatchEngine.
Import MatchHandler.
Implicit Types (db : DB) (ok : Write → bool) (u a b : N) (p : string).

(** Case analysis on the scrutinee of the first [match] or [if] of the goal. *)
Ltac branch :=
  match goal with
  | |- context [match ?x with _ => _ end] =>
      lazymatch x with
      | context [match _ with _ => _ end] => fail
      | _ => let E := fresh "E" in destruct x eqn:E
      end
  end.

Lemma First_active db b :
  active_user db b = true →
  ∃ r, First (λ r, (User.ID r =? b) && User.IsActive r) (users db) = Some r
       ∧ User.ID r = b ∧ User.IsActive r = true.
Proof.
  intros H. destruct (First_is_Some _ _ H) as [r Hr]. exists r. split; [done|].
  apply First_Some in Hr as [_ Hr]. apply andb_true_iff in Hr as [H1 H2].
  by apply N.eqb_eq in H1.
Qed.

Lemma First_inactive db b :
  active_user db b = false →
  First (λ r, (User.ID r =? b) && User.IsActive r) (users db) = None.
Proof. intros H. by apply First_None. Qed.

Lemma has_like_insert db u b a c :
  has_like (with_likes db (insert (λ id, Like.mk id u b) (likes db)).2) a c
  = has_like db a c || ((u =? a) && (b =? c)).
Proof. unfold has_like. simpl. by rewrite existsb_snoc. Qed.

(** What [LikeUser] answers once the request has passed its guards. *)
Lemma LikeUser_guards_passed ok db u p b :
  strconv.ParseUint p 32 = Some b →
  active_user db b = true →
  has_like db u b = false →
  has_block db u b = false →
  ok CreateLike = true →
  ∃ likedUser,
    First (λ r, (User.ID r =? b) && User.IsActive r) (users db) = Some likedUser ∧
    let db1 := with_likes db (insert (λ id, Like.mk id u b) (likes db)).2 in
    LikeUser ok db u p =
      if has_like db1 b u then
        match Create ok CreateMatch (λ id, Match.mk id u b true) (matches db1) with
        | None => (JSON http.StatusInternalServerError (Error "Failed to create match"), db1)
        | Some (m, t) =>
            let db2 := with_matches db1 t in
            match Create ok CreateConversation (λ id, Conversation.mk id (Match.ID m) true)
                         (conversations db2) with
            | None => (JSON http.StatusInternalServerError
                            (Error "Failed to create conversation"), db2)
            | Some (_, t) =>
                let db3 := with_conversations db2 t in
                let db4 := createMatchNotification ok db3 u b (Match.ID m) in
                let db5 := createMatchNotification ok db4 b u (Match.ID m) in
                (JSON http.StatusCreated (ItsAMatch (Match.ID m) likedUser),
                 cacheMatchData ok db5 (Match.ID m) u b)
            end
        end
      else (JSON http.StatusOK (Message "User liked successfully"), db1).
Proof.
  intros Hp Ha Hl Hb Hok.
  destruct (First_active _ _ Ha) as (r & Hr & _). exists r. split; [done|].
  unfold LikeUser. rewrite Hp, Hr.
  unfold has_like in *. rewrite (proj2 (First_None _ _)) by done.
  unfold has_block in *. rewrite (proj2 (First_None _ _)) by done.
  unfold Create at 1. rewrite Hok. unfold insert. cbn [snd]. cbv zeta.
  match goal with |- context [First ?q (likes ?d)] => destruct (First q (likes d)) eqn:E end.
  - apply First_Some in E as [E1 E2].
    rewrite (proj2 (existsb_elem _ _)) by eauto. done.
  - apply First_None in E. by rewrite E.
Qed.

(** The guards of [LikeUser], in the order the handler tries them. *)
Lemma LikeUser_not_found ok db u p b :
  strconv.ParseUint p 32 = Some b → active_user db b = false →
  LikeUser ok db u p = (JSON http.StatusNotFound (Error "User not found"), db).
Proof.
  intros Hp Ha. unfold LikeUser. by rewrite Hp, (First_inactive _ _ Ha).
Qed.

Lemma LikeUser_conflict ok db u p b :
  strconv.ParseUint p 32 = Some b → active_user db b = true → has_like db u b = true →
  LikeUser ok db u p = (JSON http.StatusConflict (Error "User already liked"), db).
Proof.
  intros Hp Ha Hl. destruct (First_active _ _ Ha) as (r & Hr & _).
  unfold LikeUser. rewrite Hp, Hr.
  destruct (First_is_Some _ _ Hl) as [l ->]. done.
Qed.

Lemma LikeUser_forbidden ok db u p b :
  strconv.ParseUint p 32 = Some b → active_user db b = true →
  has_like db u b = false → has_block db u b = true →
  LikeUser ok db u p = (JSON http.StatusForbidden (Error "Cannot like blocked user"), db).
Proof.
  intros Hp Ha Hl Hb. destruct (First_active _ _ Ha) as (r & Hr & _).
  unfold LikeUser. rewrite Hp, Hr.
  unfold has_like in Hl. rewrite (proj2 (First_None _ _)) by done.
  destruct (First_is_Some _ _ Hb) as [x ->]. done.
Qed.

Lemma LikeUser_write_refused ok db u p b :
  strconv.ParseUint p 32 = Some b → active_user db b = true →
  has_like db u b = false → has_block db u b = false → ok CreateLike = false →
  LikeUser ok db u p = (JSON http.StatusInternalServerError (Error "Failed to create like"), db).
Proof.
  intros Hp Ha Hl Hb Hok. destruct (First_active _ _ Ha) as (r & Hr & _).
  unfold LikeUser. rewrite Hp, Hr.
  unfold has_like in Hl. rewrite (proj2 (First_None _ _)) by done.
  unfold has_block in Hb. rewrite (proj2 (First_None _ _)) by done.
  unfold Create. by rewrite Hok.
Qed.

(** What [LikeUser] leaves alone, whatever it answers. *)
Lemma LikeUser_frame ok db u p :
  users (LikeUser ok db u p).2 = users db ∧
  blocked_users (LikeUser ok db u p).2 = blocked_users db ∧
  dislikes (LikeUser ok db u p).2 = dislikes db.
Proof.
  unfold LikeUser, createMatchNotification, cacheMatchData, Create.
  repeat branch; simpl; done.
Qed.

Lemma LikeUser_likes ok db u p :
  ∃ new, rows (likes (LikeUser ok db u p).2) = rows (likes db) ++ new.
Proof.
  unfold LikeUser, createMatchNotification, cacheMatchData, Create, insert.
  repeat branch; simplify_eq/=; try (by exists []; rewrite app_nil_r); by eexists [_].
Qed.

(** A like that was answered 200 or 201 went through the guards and left its row. *)
Lemma LikeUser_success ok db u p r db' :
  LikeUser ok db u p = (r, db') →
  status r = http.StatusOK ∨ status r = http.StatusCreated →
  ∃ b, strconv.ParseUint p 32 = Some b ∧ active_user db b = true ∧
       has_like db u b = false ∧ has_block db u b = false ∧ ok CreateLike = true ∧
       has_like db' u b = true.
Proof.
  intros H Hs.
  destruct (strconv.ParseUint p 32) as [b|] eqn:Hp.
  2:{ unfold LikeUser in H. rewrite Hp in H. simplify_eq/=. by destruct Hs. }
  exists b. split; [done|].
  destruct (active_user db b) eqn:Ha.
  2:{ rewrite (LikeUser_not_found _ _ _ _ _ Hp Ha) in H. simplify_eq/=. by destruct Hs. }
  destruct (has_like db u b) eqn:Hl.
  { rewrite (LikeUser_conflict _ _ _ _ _ Hp Ha Hl) in H. simplify_eq/=. by destruct Hs. }
  destruct (has_block db u b) eqn:Hb.
  { rewrite (LikeUser_forbidden _ _ _ _ _ Hp Ha Hl Hb) in H. simplify_eq/=. by destruct Hs. }
  destruct (ok CreateLike) eqn:Hok.
  2:{ rewrite (LikeUser_write_refused _ _ _ _ _ Hp Ha Hl Hb Hok) in H. simplify_eq/=.
      by destruct Hs. }
  repeat split; try done.
  destruct (LikeUser_likes ok db u p) as [new Hnew]. rewrite H in Hnew. simpl in Hnew.
  destruct (LikeUser_guards_passed ok db u p b Hp Ha Hl Hb Hok) as (lu & _ & Heq).
  cbv zeta in Heq. rewrite H in Heq.
  assert (Hin : has_like (with_likes db (insert (λ id, Like.mk id u b) (likes db)).2) u b = true).
  { rewrite has_like_insert, !N.eqb_refl. by rewrite orb_true_r. }
  revert Heq. unfold createMatchNotification, cacheMatchData, Create, insert.
  repeat branch; intros; simplify_eq/=; try done; by destruct Hs.
Qed.

(** C1.  Let A and B be distinct active accounts without a Like row or a
    block between them, and let the store accept the writes.  Then
    [like(A,B)] is answered with the plain 200 "liked" result and the
    following [like(B,A)] with the 201 "match" result.  The second call adds
    exactly one Match row, [{User1ID: B, User2ID: A, IsActive: true}] (the
    later liker is the first user), and exactly one Conversation row, active
    and carrying that match's id; the answer names that match id and the
    liked account A. *)
Theorem mutual_like_creates_match ok1 ok2 db A B pa pb :
  A ≠ B →
  strconv.ParseUint pa 32 = Some A → strconv.ParseUint pb 32 = Some B →
  active_user db A = true → active_user db B = true →
  no_prior_interaction db A B →
  ok1 CreateLike = true →
  ok2 CreateLike = true → ok2 CreateMatch = true → ok2 CreateConversation = true →
  ∃ db1 db2 userA m c,
    LikeUser ok1 db A pb = (JSON http.StatusOK (Message "User liked successfully"), db1) ∧
    LikeUser ok2 db1 B pa = (JSON http.StatusCreated (ItsAMatch (Match.ID m) userA), db2) ∧
    User.ID userA = A ∧
    m = Match.mk (next_id (matches db)) B A true ∧
    c = Conversation.mk (next_id (conversations db)) (Match.ID m) true ∧
    rows (matches db1) = rows (matches db) ∧
    rows (conversations db1) = rows (conversations db) ∧
    rows (matches db2) = rows (matches db) ++ [m] ∧
    rows (conversations db2) = rows (conversations db) ++ [c].
Proof.
  intros Hne Hpa Hpb HA HB (Hab & Hba & Bab & Bba) Hok1 Hok2 Hokm Hokc.
  destruct (LikeUser_guards_passed ok1 db A pb B Hpb HB Hab Bab Hok1) as (uB & _ & H1).
  cbv zeta in H1. rewrite has_like_insert, Hba in H1.
  assert ((A =? B) = false) as HAB by by apply N.eqb_neq.
  rewrite HAB in H1. simpl in H1.
  set (db1 := with_likes db (insert (λ id, Like.mk id A B) (likes db)).2) in *.
  assert (active_user db1 A = true) as HA1 by done.
  assert (has_like db1 B A = false) as Hba1.
  { unfold db1. by rewrite has_like_insert, Hba, HAB. }
  assert (has_block db1 B A = false) as Bba1 by done.
  destruct (LikeUser_guards_passed ok2 db1 B pa A Hpa HA1 Hba1 Bba1 Hok2) as (uA & HuA & H2).
  cbv zeta in H2. rewrite has_like_insert in H2.
  replace (has_like db1 A B) with true in H2
    by (unfold db1; by rewrite has_like_insert, !N.eqb_refl, orb_true_r).
  simpl in H2. unfold Create in H2. rewrite Hokm, Hokc in H2. simpl in H2.
  apply First_Some in HuA as [_ HuA]. apply andb_true_iff in HuA as [HuA _].
  apply N.eqb_eq in HuA.
  eexists db1, _, uA, (Match.mk (next_id (matches db)) B A true), _.
  split; [exact H1|]. split; [exact H2|].
  unfold createMatchNotification, cacheMatchData, Create.
  repeat split; try done; repeat branch; done.
Qed.

Lemma mutual_like_creates_match_witness :
  ∃ db1 db2 userA m c,
    LikeUser all_ok db0 1 "2" = (JSON http.StatusOK (Message "User liked successfully"), db1) ∧
    LikeUser all_ok db1 2 "1" = (JSON http.StatusCreated (ItsAMatch (Match.ID m) userA), db2) ∧
    User.ID userA = 1 ∧
    m = Match.mk (next_id (matches db0)) 2 1 true ∧
    c = Conversation.mk (next_id (conversations db0)) (Match.ID m) true ∧
    rows (matches db1) = rows (matches db0) ∧
    rows (conversations db1) = rows (conversations db0) ∧
    rows (matches db2) = rows (matches db0) ++ [m] ∧
    rows (conversations db2) = rows (conversations db0) ++ [c].
Proof.
  apply (mutual_like_creates_match all_ok all_ok db0 1 2 "1" "2");
    try reflexivity; try done.
Defined.

(** C2.  After a [like(A,B)] that was answered 200 or 201, a further
    [like(A,B)] (the path parameter denoting the same id) is answered 409
    Conflict and leaves the store exactly as it was: no Like row, no Match,
    nothing else is written, whatever the store would have accepted. *)
Theorem repeated_like_conflicts ok1 ok2 db A p p' r db1 :
  LikeUser ok1 db A p = (r, db1) →
  status r = http.StatusOK ∨ status r = http.StatusCreated →
  strconv.ParseUint p' 32 = strconv.ParseUint p 32 →
  LikeUser ok2 db1 A p' = (JSON http.StatusConflict (Error "User already liked"), db1).
Proof.
  intros H Hs Hp.
  destruct (LikeUser_success _ _ _ _ _ _ H Hs) as (b & Hb & Ha & _ & _ & _ & Hl).
  apply (LikeUser_conflict ok2 db1 A p' b); [congruence | | done].
  destruct (LikeUser_frame ok1 db A p) as (Hu & _). rewrite H in Hu. simpl in Hu.
  unfold active_user. by rewrite Hu.
Qed.

Lemma repeated_like_conflicts_witness :
  LikeUser all_ok (LikeUser all_ok db0 1 "2").2 1 "02"
  = (JSON http.StatusConflict (Error "User already liked"), (LikeUser all_ok db0 1 "2").2).
Proof.
  apply (repeated_like_conflicts all_ok all_ok db0 1 "2" "02" (LikeUser all_ok db0 1 "2").1).
  - reflexivity.
  - left. reflexivity.
  - reflexivity.
Defined.

(** An answer 403 comes from the block guard only. *)
Lemma LikeUser_forbidden_inv ok db u p :
  status (LikeUser ok db u p).1 = http.StatusForbidden →
  ∃ b, strconv.ParseUint p 32 = Some b ∧ active_user db b = true ∧
       has_like db u b = false ∧ has_block db u b = true.
Proof.
  intros H.
  destruct (strconv.ParseUint p 32) as [b|] eqn:Hp.
  2:{ unfold LikeUser in H. by rewrite Hp in H. }
  exists b. split; [done|].
  destruct (active_user db b) eqn:Ha.
  2:{ by rewrite (LikeUser_not_found _ _ _ _ _ Hp Ha) in H. }
  destruct (has_like db u b) eqn:Hl.
  { by rewrite (LikeUser_conflict _ _ _ _ _ Hp Ha Hl) in H. }
  destruct (has_block db u b) eqn:Hb; [done|].
  destruct (ok CreateLike) eqn:Hok.
  2:{ by rewrite (LikeUser_write_refused _ _ _ _ _ Hp Ha Hl Hb Hok) in H. }
  destruct (LikeUser_guards_passed ok db u p b Hp Ha Hl Hb Hok) as (lu & _ & Heq).
  cbv zeta in Heq. rewrite Heq in H. revert H.
  unfold createMatchNotification, cacheMatchData, Create, insert.
  repeat branch; done.
Qed.

Lemma has_block_add_block db a b x y :
  has_block (add_block db a b) x y = has_block db x y || ((a =? x) && (b =? y)).
Proof. unfold has_block, add_block. simpl. by rewrite existsb_snoc. Qed.

(** The answer of [LikeUser] reads the block table through one question only. *)
Lemma LikeUser_blocks_ext ok db db' u p :
  users db' = users db → likes db' = likes db → matches db' = matches db →
  conversations db' = conversations db →
  (∀ b, has_block db' u b = has_block db u b) →
  (LikeUser ok db' u p).1 = (LikeUser ok db u p).1.
Proof.
  intros Hu Hl Hm Hc Hb.
  destruct (strconv.ParseUint p 32) as [b|] eqn:Hp.
  2:{ unfold LikeUser. by rewrite Hp. }
  assert (active_user db' b = active_user db b) as Ha' by (unfold active_user; by rewrite Hu).
  assert (has_like db' u b = has_like db u b) as Hl' by (unfold has_like; by rewrite Hl).
  destruct (active_user db b) eqn:Ha.
  2:{ by rewrite !(LikeUser_not_found _ _ _ _ b) by done. }
  destruct (has_like db u b) eqn:Hlk.
  { by rewrite !(LikeUser_conflict _ _ _ _ b) by done. }
  specialize (Hb b).
  destruct (has_block db u b) eqn:Hbl.
  { by rewrite !(LikeUser_forbidden _ _ _ _ b) by done. }
  destruct (ok CreateLike) eqn:Hok.
  2:{ by rewrite !(LikeUser_write_refused _ _ _ _ b) by done. }
  destruct (LikeUser_guards_passed ok db u p b Hp Ha Hlk Hbl Hok) as (lu & Hlu & ->).
  destruct (LikeUser_guards_passed ok db' u p b Hp Ha' Hl' Hb Hok) as (lu' & Hlu' & ->).
  rewrite Hu, Hlu in Hlu'. simplify_eq. cbv zeta.
  rewrite !has_like_insert. unfold has_like. rewrite Hl.
  unfold createMatchNotification, cacheMatchData, Create, insert. simpl.
  rewrite Hm, Hc. repeat branch; done.
Qed.

(** C7 as the specification states it fails: with the block of the liked
    user by the liker in place, [LikeUser] answers 404 when the liked
    account is deactivated, and 409 when the liker liked the account before
    blocking it. *)
Lemma blocked_like_is_not_always_forbidden :
  (has_block db_dave 1 4 = true ∧
   status (LikeUser all_ok db_dave 1 "4").1 = http.StatusNotFound) ∧
  (let liked := with_core app0 (LikeUser all_ok (core app0) 1 "2").2 in
   let blocked := (UserHandler.BlockUser all_accepted liked 1 "2").2 in
   status (LikeUser all_ok (core app0) 1 "2").1 = http.StatusOK ∧
   status (UserHandler.BlockUser all_accepted liked 1 "2").1 = http.StatusCreated ∧
   has_block (core blocked) 1 2 = true ∧
   status (LikeUser all_ok (core blocked) 1 "2").1 = http.StatusConflict).
Proof. repeat split; reflexivity. Qed.

(** C7.  For a request whose path parameter names [liked]:
    - the answer is 403 Forbidden exactly when the liked user is an active
      account, the liker has not liked it yet and the liker has blocked it:
      the guards for 404 and 409 come first, so a block alone does not
      give 403;
    - on 403 nothing is written (the store is unchanged);
    - the guard looks one way only: adding a block of the liker by the
      liked user changes nothing in the answer, so it never causes 403. *)
Theorem like_forbidden_when_liker_blocked ok db liker liked p :
  strconv.ParseUint p 32 = Some liked →
  (status (LikeUser ok db liker p).1 = http.StatusForbidden ↔
     active_user db liked = true ∧ has_like db liker liked = false ∧
     has_block db liker liked = true) ∧
  (status (LikeUser ok db liker p).1 = http.StatusForbidden →
     LikeUser ok db liker p
     = (JSON http.StatusForbidden (Error "Cannot like blocked user"), db)) ∧
  (liker ≠ liked →
     (LikeUser ok (add_block db liked liker) liker p).1 = (LikeUser ok db liker p).1 ∧
     (has_block db liker liked = false →
        status (LikeUser ok (add_block db liked liker) liker p).1 ≠ http.StatusForbidden)).
Proof.
  intros Hp.
  assert (status (LikeUser ok db liker p).1 = http.StatusForbidden →
          active_user db liked = true ∧ has_like db liker liked = false ∧
          has_block db liker liked = true) as Hinv.
  { intros H. destruct (LikeUser_forbidden_inv _ _ _ _ H) as (b & Hb & Ha & Hl & Hbl).
    assert (b = liked) as -> by congruence. done. }
  split; [|split].
  - split; [exact Hinv|]. intros (Ha & Hl & Hb).
    by rewrite (LikeUser_forbidden _ _ _ _ liked Hp Ha Hl Hb).
  - intros H. destruct (Hinv H) as (Ha & Hl & Hb).
    by apply (LikeUser_forbidden _ _ _ _ liked).
  - intros Hne.
    assert (∀ b, has_block (add_block db liked liker) liker b = has_block db liker b) as Hext.
    { intros b. rewrite has_block_add_block.
      replace (liked =? liker) with false by (symmetry; apply N.eqb_neq; congruence).
      by rewrite orb_false_r. }
    assert ((LikeUser ok (add_block db liked liker) liker p).1 = (LikeUser ok db liker p).1) as Heq
      by by apply LikeUser_blocks_ext.
    split; [done|]. intros Hb H. rewrite Heq in H.
    destruct (Hinv H) as (_ & _ & Hbl). congruence.
Qed.

Lemma like_forbidden_when_liker_blocked_witness :
  LikeUser all_ok db_blocks 1 "2"
    = (JSON http.StatusForbidden (Error "Cannot like blocked user"), db_blocks) ∧
  status (LikeUser all_ok (add_block db_blocks 2 3) 3 "2").1 ≠ http.StatusForbidden.
Proof.
  pose proof (like_forbidden_when_liker_blocked all_ok db_blocks 1 2 "2" eq_refl)
    as ([_ Hyes] & Hsame & _).
  pose proof (like_forbidden_when_liker_blocked all_ok db_blocks 3 2 "2" eq_refl)
    as (_ & _ & Hother).
  split.
  - apply Hsame, Hyes. repeat split; reflexivity.
  - apply Hother; [discriminate | reflexivity].
Defined.

(** *** Dislikes *)

Lemma DislikeUser_conflict ok db u p b :
  strconv.ParseUint p 32 = Some b → has_dislike db u b = true →
  DislikeUser ok db u p = (JSON http.StatusConflict (Error "User already disliked"), db).
Proof.
  intros Hp Hd. unfold DislikeUser. rewrite Hp.
  destruct (First_is_Some _ _ Hd) as [d ->]. done.
Qed.

Lemma DislikeUser_created ok db u p b :
  strconv.ParseUint p 32 = Some b → has_dislike db u b = false → ok CreateDislike = true →
  DislikeUser ok db u p =
    (JSON http.StatusOK (Message "User disliked successfully"),
     with_dislikes db (mkTable (rows (dislikes db) ++ [Dislike.mk (next_id (dislikes db)) u b])
                               (next_id (dislikes db) + 1))).
Proof.
  intros Hp Hd Hok. unfold DislikeUser. rewrite Hp.
  unfold has_dislike in Hd. rewrite (proj2 (First_None _ _)) by done.
  unfold Create. by rewrite Hok.
Qed.

(** [DislikeUser] writes to the Dislike table and to nothing else. *)
Lemma DislikeUser_frame ok db u p :
  ∃ t, (DislikeUser ok db u p).2 = with_dislikes db t.
Proof.
  unfold DislikeUser, Create, insert.
  repeat branch; simpl; try (by eexists); exists (dislikes db); by destruct db.
Qed.

Lemma DislikeUser_refused ok db u p b :
  strconv.ParseUint p 32 = Some b → has_dislike db u b = false → ok CreateDislike = false →
  DislikeUser ok db u p
  = (JSON http.StatusInternalServerError (Error "Failed to create dislike"), db).
Proof.
  intros Hp Hd Hok. unfold DislikeUser. rewrite Hp.
  unfold has_dislike in Hd. rewrite (proj2 (First_None _ _)) by done.
  unfold Create. by rewrite Hok.
Qed.

(** C10 as the specification states it fails: user 9 has no account row,
    the handler makes no check and issues the insert, the foreign key of the
    dislikes table refuses it, and the dislike is answered 500 with no row
    written. *)
Lemma dislike_of_a_missing_account_fails :
  user_exists db0 9 = false ∧ has_dislike db0 1 9 = false ∧
  DislikeUser (migrated db0 1 9 all_ok) db0 1 "9"
  = (JSON http.StatusInternalServerError (Error "Failed to create dislike"), db0).
Proof. repeat split; reflexivity. Qed.

(** C10.  When the path parameter names an id without an active account
    (no account, or a deactivated one), [LikeUser] answers 404 Not Found and
    writes nothing, whatever Like rows and blocks the store holds: the
    existence guard runs first.  [DislikeUser] has no such guard: for a
    pair not disliked before it issues the insert and answers by what the
    store says, 200 with the Dislike row appended when the row is accepted
    and 500 with nothing written when it is refused.  Under the foreign
    keys of the schema a deactivated account, which still has its row, is
    disliked with 200, and an id without an account row gets 500. *)
Theorem like_checks_target_but_dislike_does_not ok db u target p :
  strconv.ParseUint p 32 = Some target →
  active_user db target = false →
  LikeUser ok db u p = (JSON http.StatusNotFound (Error "User not found"), db) ∧
  (has_dislike db u target = false →
   (ok CreateDislike = true →
    ∃ db', DislikeUser ok db u p
             = (JSON http.StatusOK (Message "User disliked successfully"), db') ∧
           rows (dislikes db')
             = rows (dislikes db) ++ [Dislike.mk (next_id (dislikes db)) u target]) ∧
   (ok CreateDislike = false →
    DislikeUser ok db u p
    = (JSON http.StatusInternalServerError (Error "Failed to create dislike"), db)) ∧
   (user_exists db u = true → user_exists db target = true → ok CreateDislike = true →
    ∃ db', DislikeUser (migrated db u target ok) db u p
             = (JSON http.StatusOK (Message "User disliked successfully"), db') ∧
           rows (dislikes db')
             = rows (dislikes db) ++ [Dislike.mk (next_id (dislikes db)) u target]) ∧
   (user_exists db target = false →
    DislikeUser (migrated db u target ok) db u p
    = (JSON http.StatusInternalServerError (Error "Failed to create dislike"), db))).
Proof.
  intros Hp Ha. split.
  - by apply (LikeUser_not_found _ _ _ _ target).
  - intros Hd. split; [|split; [|split]].
    + intros Hok. eexists. split; [by apply (DislikeUser_created _ _ _ _ target)|done].
    + intros Hok. by apply (DislikeUser_refused _ _ _ _ target).
    + intros Hu Ht Hok. eexists. split.
      * apply (DislikeUser_created _ _ _ _ target); [done..|].
        unfold migrated. by rewrite Hu, Ht, Hok.
      * done.
    + intros Ht. apply (DislikeUser_refused _ _ _ _ target); [done..|].
      unfold migrated. rewrite Ht. by rewrite andb_false_r.
Qed.

Lemma like_checks_target_but_dislike_does_not_witness :
  (has_like db_dave 1 4 = true ∧ has_block db_dave 1 4 = true ∧
   LikeUser all_ok db_dave 1 "4" = (JSON http.StatusNotFound (Error "User not found"), db_dave)) ∧
  (∃ db', DislikeUser (migrated db_dave 1 4 all_ok) db_dave 1 "4"
            = (JSON http.StatusOK (Message "User disliked successfully"), db') ∧
          rows (dislikes db') = [Dislike.mk 1 1 4]).
Proof.
  pose proof (like_checks_target_but_dislike_does_not all_ok db_dave 1 4 "4" eq_refl eq_refl)
    as (Hlike & Hdislike).
  split.
  - split; [reflexivity|]. split; [reflexivity|]. exact Hlike.
  - destruct (Hdislike eq_refl) as (_ & _ & Hrow & _).
    apply Hrow; reflexivity.
Defined.

(** A like that was answered with the plain 200 found no like coming back
    and wrote its own row only. *)
Lemma LikeUser_plain ok db u p r db' :
  LikeUser ok db u p = (r, db') → status r = http.StatusOK →
  ∃ b, strconv.ParseUint p 32 = Some b ∧
       db' = with_likes db (insert (λ id, Like.mk id u b) (likes db)).2 ∧
       has_like db' u b = true ∧ has_like db' b u = false.
Proof.
  intros H Hs.
  destruct (LikeUser_success _ _ _ _ _ _ H (or_introl Hs)) as (b & Hp & Ha & Hl & Hb & Hok & Hl').
  exists b. split; [done|].
  destruct (LikeUser_guards_passed ok db u p b Hp Ha Hl Hb Hok) as (lu & _ & Heq).
  cbv zeta in Heq. rewrite H in Heq. revert Heq.
  destruct (has_like _ b u) eqn:E.
  - unfold createMatchNotification, cacheMatchData, Create, insert.
    repeat branch; intros; simplify_eq/=.
  - intros. by simplify_eq.
Qed.

(** *** The keys of the store *)

Lemma db_wf_empty : db_wf Store.empty.
Proof. split; simpl; try apply NoDup_nil_2; by apply Forall_nil. Qed.

Lemma db_wf_ext db db' :
  matches db' = matches db → conversations db' = conversations db → db_wf db → db_wf db'.
Proof. intros Hm Hc [? ? ? ? ? ?]. split; by rewrite ?Hm, ?Hc. Qed.

Lemma db_wf_insert_match db a b :
  db_wf db → db_wf (with_matches db (insert (λ id, Match.mk id a b true) (matches db)).2).
Proof.
  intros [H1 H2 H3 H4 H5 H6]. split; simpl; try done.
  - apply NoDup_snoc_fresh; [done|]. by apply Forall_lt_fresh.
  - rewrite fmap_app. apply Forall_app. split; [by apply Forall_lt_succ|].
    apply Forall_singleton. simpl. lia.
  - by apply Forall_lt_succ.
Qed.

Lemma db_wf_insert_conversation db mid :
  db_wf db → mid < next_id (matches db) →
  mid ∉ Conversation.MatchID <$> rows (conversations db) →
  db_wf (with_conversations db
           (insert (λ id, Conversation.mk id mid true) (conversations db)).2).
Proof.
  intros [H1 H2 H3 H4 H5 H6] Hlt Hfresh. split; simpl; try done.
  - apply NoDup_snoc_fresh; [done|]. by apply Forall_lt_fresh.
  - rewrite fmap_app. apply Forall_app. split; [by apply Forall_lt_succ|].
    apply Forall_singleton. simpl. lia.
  - by apply NoDup_snoc_fresh.
  - rewrite fmap_app. apply Forall_app. split; [done|]. by apply Forall_singleton.
Qed.

(** [LikeUser] adds at most one match and, with it, at most one conversation. *)
Lemma LikeUser_tables ok db u p :
  (matches (LikeUser ok db u p).2 = matches db ∧
   conversations (LikeUser ok db u p).2 = conversations db) ∨
  (∃ b, matches (LikeUser ok db u p).2
          = (insert (λ id, Match.mk id u b true) (matches db)).2 ∧
        (conversations (LikeUser ok db u p).2 = conversations db ∨
         conversations (LikeUser ok db u p).2
           = (insert (λ id, Conversation.mk id (next_id (matches db)) true)
                     (conversations db)).2)).
Proof.
  unfold LikeUser, createMatchNotification, cacheMatchData, Create, insert.
  repeat branch; simplify_eq/=; eauto.
Qed.

Lemma LikeUser_wf ok db u p : db_wf db → db_wf (LikeUser ok db u p).2.
Proof.
  intros Hwf.
  destruct (LikeUser_tables ok db u p) as [[Hm Hc]|(b & Hm & [Hc|Hc])].
  - by eapply db_wf_ext.
  - apply (db_wf_ext (with_matches db (insert (λ id, Match.mk id u b true) (matches db)).2));
      [exact Hm|exact Hc|]. by apply db_wf_insert_match.
  - apply (db_wf_ext
             (with_conversations
                (with_matches db (insert (λ id, Match.mk id u b true) (matches db)).2)
                (insert (λ id, Conversation.mk id (next_id (matches db)) true)
                        (conversations db)).2));
      [exact Hm|exact Hc|].
    apply (db_wf_insert_conversation (with_matches db _) (next_id (matches db))).
    + by apply db_wf_insert_match.
    + simpl. lia.
    + simpl. apply Forall_lt_fresh, Hwf.
Qed.

Lemma DislikeUser_wf ok db u p : db_wf db → db_wf (DislikeUser ok db u p).2.
Proof.
  intros Hwf. destruct (DislikeUser_frame ok db u p) as [t ->].
  by eapply db_wf_ext; [| |exact Hwf].
Qed.

(** *** Unmatch *)

Lemma Unmatch_not_found ok db u p mid :
  strconv.ParseUint p 32 = Some mid →
  existsb (unmatch_query u mid) (rows (matches db)) = false →
  Unmatch ok db u p = (JSON http.StatusNotFound (Error "Match not found"), db).
Proof.
  intros Hp H. unfold Unmatch. rewrite Hp.
  apply First_None in H. unfold unmatch_query, participant in H. by rewrite H.
Qed.

Lemma Unmatch_refused ok db u p mid :
  strconv.ParseUint p 32 = Some mid →
  existsb (unmatch_query u mid) (rows (matches db)) = true →
  ok SaveMatch = false →
  Unmatch ok db u p = (JSON http.StatusInternalServerError (Error "Failed to unmatch"), db).
Proof.
  intros Hp H Hok. unfold Unmatch. rewrite Hp.
  destruct (First_is_Some _ _ H) as [m Hm]. unfold unmatch_query, participant in Hm.
  by rewrite Hm, Hok.
Qed.

(** The effect of an [Unmatch] that goes through, under the keys of the store. *)
Lemma Unmatch_done ok db u p mid :
  strconv.ParseUint p 32 = Some mid →
  db_wf db →
  existsb (unmatch_query u mid) (rows (matches db)) = true →
  ok SaveMatch = true →
  ∃ db',
    Unmatch ok db u p = (JSON http.StatusOK (Message "Unmatched successfully"), db') ∧
    rows (matches db')
      = (λ x, if Match.ID x =? mid then deactivate_match x else x) <$> rows (matches db) ∧
    next_id (matches db') = next_id (matches db) ∧
    next_id (conversations db') = next_id (conversations db) ∧
    rows (conversations db')
      = (if ok SaveConversation
         then (λ c, if Conversation.MatchID c =? mid then deactivate_conversation c else c)
                <$> rows (conversations db)
         else rows (conversations db)) ∧
    users db' = users db ∧ blocked_users db' = blocked_users db ∧
    likes db' = likes db ∧ dislikes db' = dislikes db ∧
    notifications db' = notifications db.
Proof.
  intros Hp Hwf H Hok. unfold Unmatch. rewrite Hp.
  destruct (First_is_Some _ _ H) as [m Hm]. unfold unmatch_query, participant in Hm.
  rewrite Hm, Hok. apply First_Some in Hm as [Hin Hq].
  apply andb_true_iff in Hq as [[Hid _]%andb_true_iff _]. apply N.eqb_eq in Hid.
  eexists. split; [done|].
  assert (rows (Save Match.ID (Match.mk (Match.ID m) (Match.User1ID m) (Match.User2ID m) false)
                     (matches db))
          = (λ x, if Match.ID x =? mid then deactivate_match x else x) <$> rows (matches db))
    as Hrows.
  { apply Save_rows. intros x Hx. simpl. rewrite Hid.
    destruct (N.eqb_spec (Match.ID x) mid) as [Hxm|]; [|done].
    assert (x = m) as ->
      by (apply (NoDup_fmap_eq Match.ID (rows (matches db))); [apply Hwf|done..|congruence]).
    unfold deactivate_match. by rewrite Hid. }
  assert (∀ db1 : DB, conversations db1 = conversations db →
    rows (conversations
      match First (λ c, Conversation.MatchID c =? mid) (conversations db1) with
      | Some c =>
          if ok SaveConversation
          then with_conversations db1
                 (Save Conversation.ID
                    (Conversation.mk (Conversation.ID c) (Conversation.MatchID c) false)
                    (conversations db1))
          else db1
      | None => db1
      end)
    = (if ok SaveConversation
       then (λ c, if Conversation.MatchID c =? mid then deactivate_conversation c else c)
              <$> rows (conversations db)
       else rows (conversations db))) as Hconv.
  { intros db1 Hdb1. rewrite Hdb1.
    destruct (First _ (conversations db)) as [c|] eqn:Hc.
    - apply First_Some in Hc as [Hcin Hcm]. apply N.eqb_eq in Hcm.
      destruct (ok SaveConversation); [|by rewrite Hdb1]. cbn [conversations with_conversations].
      apply (Save_rows Conversation.ID _
               (λ c0, if Conversation.MatchID c0 =? mid then deactivate_conversation c0 else c0)).
      intros x Hx. simpl.
      destruct (N.eqb_spec (Conversation.ID x) (Conversation.ID c)) as [Hxc|Hxc].
      + assert (x = c) as ->
          by (apply (NoDup_fmap_eq Conversation.ID (rows (conversations db)));
              [apply Hwf|done..]).
        by rewrite (proj2 (N.eqb_eq _ _) Hcm).
      + destruct (N.eqb_spec (Conversation.MatchID x) mid) as [Hxm|]; [|done].
        destruct Hxc. f_equal.
        apply (NoDup_fmap_eq Conversation.MatchID (rows (conversations db)));
          [apply Hwf|done..|congruence].
    - apply First_None in Hc. rewrite Hdb1. destruct (ok SaveConversation); [|done].
      rewrite <- (list_fmap_id (rows (conversations db))) at 1.
      apply list_fmap_ext. intros i x Hx. simpl.
      destruct (N.eqb_spec (Conversation.MatchID x) mid) as [Hxm|]; [|done].
      apply not_true_iff_false in Hc. destruct Hc. apply existsb_elem.
      exists x. split; [by eapply list_elem_of_lookup_2|]. by apply N.eqb_eq. }
  match goal with
  | |- context [if ok CacheDel then with_redis ?d _ else _] => set (db2 := d)
  end.
  pose proof (Hconv (with_matches db (Save Match.ID (deactivate_match m) (matches db)))
                    eq_refl) as Hc2.
  match type of Hc2 with _ = ?rhs => change (rows (conversations db2) = rhs) in Hc2 end.
  assert (matches db2 = Save Match.ID (deactivate_match m) (matches db) ∧
          next_id (conversations db2) = next_id (conversations db) ∧
          users db2 = users db ∧ blocked_users db2 = blocked_users db ∧
          likes db2 = likes db ∧ dislikes db2 = dislikes db ∧
          notifications db2 = notifications db) as (Hm2 & Hn2 & ? & ? & ? & ? & ?).
  { unfold db2. destruct (First _ _); [destruct (ok SaveConversation)|]; done. }
  clearbody db2.
  assert (∀ r, matches (with_redis db2 r) = matches db2 ∧
               conversations (with_redis db2 r) = conversations db2) as Hr by done.
  destruct (ok CacheDel); rewrite ?(proj1 (Hr _)), ?(proj2 (Hr _)), ?Hm2;
    repeat split; try done; by rewrite <- Hrows.
Qed.

(** [Unmatch] removes nothing from the Like and Dislike tables, whatever it answers. *)
Lemma Unmatch_frame ok db u p :
  users (Unmatch ok db u p).2 = users db ∧
  blocked_users (Unmatch ok db u p).2 = blocked_users db ∧
  likes (Unmatch ok db u p).2 = likes db ∧
  dislikes (Unmatch ok db u p).2 = dislikes db.
Proof. unfold Unmatch. repeat branch; done. Qed.

Lemma db_wf_rows db db' :
  db_wf db →
  Match.ID <$> rows (matches db') = Match.ID <$> rows (matches db) →
  next_id (matches db') = next_id (matches db) →
  Conversation.ID <$> rows (conversations db') = Conversation.ID <$> rows (conversations db) →
  Conversation.MatchID <$> rows (conversations db')
    = Conversation.MatchID <$> rows (conversations db) →
  next_id (conversations db') = next_id (conversations db) →
  db_wf db'.
Proof. intros [] H1 H2 H3 H4 H5. split; by rewrite ?H1, ?H2, ?H3, ?H4, ?H5. Qed.

Lemma Unmatch_wf ok db u p : db_wf db → db_wf (Unmatch ok db u p).2.
Proof.
  intros Hwf.
  destruct (strconv.ParseUint p 32) as [mid|] eqn:Hp.
  2:{ unfold Unmatch. by rewrite Hp. }
  destruct (existsb (unmatch_query u mid) (rows (matches db))) eqn:Hq.
  2:{ by rewrite (Unmatch_not_found _ _ _ _ _ Hp Hq). }
  destruct (ok SaveMatch) eqn:Hok.
  2:{ by rewrite (Unmatch_refused _ _ _ _ _ Hp Hq Hok). }
  destruct (Unmatch_done ok db u p mid Hp Hwf Hq Hok)
    as (db' & -> & Hm & Hnm & Hnc & Hc & _).
  apply (db_wf_rows db); simpl; try done.
  - rewrite Hm, <- list_fmap_compose. apply list_fmap_ext. intros i x _. simpl.
    by destruct (Match.ID x =? mid).
  - rewrite Hc. destruct (ok SaveConversation); [|done].
    rewrite <- list_fmap_compose. apply list_fmap_ext. intros i x _. simpl.
    by destruct (Conversation.MatchID x =? mid).
  - rewrite Hc. destruct (ok SaveConversation); [|done].
    rewrite <- list_fmap_compose. apply list_fmap_ext. intros i x _. simpl.
    by destruct (Conversation.MatchID x =? mid).
Qed.

(** The keys hold in every store the match engine can reach from one
    without matches and conversations. *)
Lemma db_wf_initial db :
  rows (matches db) = [] → rows (conversations db) = [] → db_wf db.
Proof. intros Hm Hc. split; rewrite ?Hm, ?Hc; simpl; by constructor. Qed.

Lemma serve_wf ok db rq : db_wf db → db_wf (serve ok db rq).2.
Proof. destruct rq; [apply LikeUser_wf | apply DislikeUser_wf | apply Unmatch_wf]. Qed.

Lemma serve_all_wf db rqs : db_wf db → db_wf (serve_all db rqs).
Proof.
  revert db. induction rqs as [|[ok rq] rqs IH]; intros db Hwf; [done|].
  simpl. by apply IH, serve_wf.
Qed.

(** C3.  For a request whose path parameter names the match [mid]:
    - the answer is 404 Not Found exactly when the Match table holds no row
      [mid] that is active and has the requester as one of its two users,
      and then the store is unchanged;
    - in particular a user who is neither user of the match [mid] gets 404;
    - when the answer is 200, the match [mid] is inactive afterwards and
      every other match is as it was; the conversation of the match [mid] is
      inactive afterwards (when the store accepts that write, whose error
      the handler does not look at) and every other conversation is as it
      was; the Like and Dislike tables are untouched. *)
Theorem unmatch_needs_active_participant ok db requester p mid :
  strconv.ParseUint p 32 = Some mid →
  db_wf db →
  (status (Unmatch ok db requester p).1 = http.StatusNotFound ↔
     ¬ ∃ m, m ∈ rows (matches db) ∧ Match.ID m = mid ∧
            participant requester m = true ∧ Match.IsActive m = true) ∧
  (status (Unmatch ok db requester p).1 = http.StatusNotFound →
     (Unmatch ok db requester p).2 = db) ∧
  (∀ m, m ∈ rows (matches db) → Match.ID m = mid → participant requester m = false →
     Unmatch ok db requester p = (JSON http.StatusNotFound (Error "Match not found"), db)) ∧
  (status (Unmatch ok db requester p).1 = http.StatusOK →
     rows (matches (Unmatch ok db requester p).2)
       = (λ x, if Match.ID x =? mid then deactivate_match x else x) <$> rows (matches db) ∧
     (ok SaveConversation = true →
        rows (conversations (Unmatch ok db requester p).2)
          = (λ c, if Conversation.MatchID c =? mid then deactivate_conversation c else c)
              <$> rows (conversations db)) ∧
     likes (Unmatch ok db requester p).2 = likes db ∧
     dislikes (Unmatch ok db requester p).2 = dislikes db).
Proof.
  intros Hp Hwf.
  assert (existsb (unmatch_query requester mid) (rows (matches db)) = true ↔
          ∃ m, m ∈ rows (matches db) ∧ Match.ID m = mid ∧
               participant requester m = true ∧ Match.IsActive m = true) as Hq.
  { rewrite existsb_elem. unfold unmatch_query.
    split; intros (m & Hin & H); exists m; (split; [done|]).
    - apply andb_true_iff in H as [[H1 H2]%andb_true_iff H3]. by apply N.eqb_eq in H1.
    - destruct H as (H1 & H2 & H3). apply N.eqb_eq in H1. by rewrite H1, H2, H3. }
  destruct (existsb (unmatch_query requester mid) (rows (matches db))) eqn:Hex.
  - assert (status (Unmatch ok db requester p).1 ≠ http.StatusNotFound) as Hne.
    { destruct (ok SaveMatch) eqn:Hok.
      - by destruct (Unmatch_done ok db requester p mid Hp Hwf Hex Hok) as (db' & -> & _).
      - by rewrite (Unmatch_refused _ _ _ _ _ Hp Hex Hok). }
    split; [|split; [|split]].
    + split; [done|]. intros Hn. destruct Hn. by apply Hq.
    + done.
    + intros m Hin Hid Hpart. exfalso.
      destruct (proj1 Hq eq_refl) as (m' & Hin' & Hid' & Hpart' & _).
      assert (m' = m) as ->
        by (apply (NoDup_fmap_eq Match.ID (rows (matches db))); [apply Hwf|done..|congruence]).
      congruence.
    + destruct (ok SaveMatch) eqn:Hok.
      2:{ by rewrite (Unmatch_refused _ _ _ _ _ Hp Hex Hok). }
      destruct (Unmatch_done ok db requester p mid Hp Hwf Hex Hok)
        as (db' & -> & Hm & _ & _ & Hc & _ & _ & Hl & Hd & _).
      intros _. simpl. repeat split; try done. intros Hsc. by rewrite Hc, Hsc.
  - rewrite (Unmatch_not_found _ _ _ _ _ Hp Hex). simpl.
    split; [|split; [|split]]; try done.
    split; [|done]. intros _ Hm. apply Hq in Hm. done.
Qed.

Lemma unmatch_needs_active_participant_witness :
  Unmatch all_ok db_matched 3 "1"
    = (JSON http.StatusNotFound (Error "Match not found"), db_matched) ∧
  rows (matches (Unmatch all_ok db_matched 1 "1").2) = [Match.mk 1 2 1 false] ∧
  rows (conversations (Unmatch all_ok db_matched 1 "1").2) = [Conversation.mk 1 1 false] ∧
  likes (Unmatch all_ok db_matched 1 "1").2 = likes db_matched.
Proof.
  assert (db_wf db_matched) as Hwf.
  { apply (LikeUser_wf all_ok _ 2 "1"), (LikeUser_wf all_ok db0 1 "2").
    by apply db_wf_initial. }
  split.
  - destruct (unmatch_needs_active_participant all_ok db_matched 3 "1" 1 eq_refl Hwf)
      as (_ & _ & H & _).
    apply (H (Match.mk 1 2 1 true)); [by left | reflexivity | reflexivity].
  - destruct (unmatch_needs_active_participant all_ok db_matched 1 "1" 1 eq_refl Hwf)
      as (_ & _ & _ & H).
    destruct (H eq_refl) as (Hm & Hc & Hl & _).
    split; [exact Hm|]. split; [exact (Hc eq_refl) | exact Hl].
Defined.

(** [DislikeUser] reads the Dislike table and nothing else: swapping the
    Like and block tables for any others changes neither its answer nor
    what it writes. *)
Lemma DislikeUser_reads_dislikes_only ok db u p tl tb :
  DislikeUser ok (with_blocked_users (with_likes db tl) tb) u p
  = ((DislikeUser ok db u p).1,
     with_blocked_users (with_likes (DislikeUser ok db u p).2 tl) tb).
Proof. unfold DislikeUser, Create, insert. simpl. repeat branch; done. Qed.

(** C6.  Like rows are append-only: whatever request the match engine
    serves, the Like table afterwards is the one before, possibly extended.
    [DislikeUser] neither reads nor writes the Like table or the blocks.
    So after a plain [like(A,B)] and any [dislike(A,B)], a [like(B,A)] that
    passes its own guards (A is an active account, B has not blocked A, the
    store accepts the writes) still finds the like of A and is answered with
    the 201 match result, the Match row being [{User1ID: B, User2ID: A}]. *)
Theorem dislike_keeps_likes :
  (∀ ok db rq, ∃ new, rows (likes (serve ok db rq).2) = rows (likes db) ++ new) ∧
  (∀ ok db u p tl tb,
     DislikeUser ok (with_blocked_users (with_likes db tl) tb) u p
     = ((DislikeUser ok db u p).1,
        with_blocked_users (with_likes (DislikeUser ok db u p).2 tl) tb)) ∧
  (∀ ok0 ok1 ok2 db A B pa pb r0 db1 r1 db2,
     strconv.ParseUint pa 32 = Some A → strconv.ParseUint pb 32 = Some B →
     LikeUser ok0 db A pb = (r0, db1) → status r0 = http.StatusOK →
     DislikeUser ok1 db1 A pb = (r1, db2) →
     active_user db A = true → has_block db B A = false →
     ok2 CreateLike = true → ok2 CreateMatch = true → ok2 CreateConversation = true →
     likes db2 = likes db1 ∧ has_like db2 A B = true ∧
     ∃ userA db3,
       LikeUser ok2 db2 B pa
         = (JSON http.StatusCreated (ItsAMatch (next_id (matches db)) userA), db3) ∧
       User.ID userA = A ∧
       rows (matches db3) = rows (matches db) ++ [Match.mk (next_id (matches db)) B A true]).
Proof.
  split; [|split].
  - intros ok db [u p|u p|u p]; simpl.
    + apply LikeUser_likes.
    + destruct (DislikeUser_frame ok db u p) as [t ->]. exists []. by rewrite app_nil_r.
    + destruct (Unmatch_frame ok db u p) as (_ & _ & -> & _). exists []. by rewrite app_nil_r.
  - apply DislikeUser_reads_dislikes_only.
  - intros ok0 ok1 ok2 db A B pa pb r0 db1 r1 db2 Hpa Hpb H0 Hs0 H1 HA HB Hok Hokm Hokc.
    destruct (LikeUser_plain _ _ _ _ _ _ H0 Hs0) as (b & Hb & Hdb1 & Hab & Hba).
    assert (b = B) as -> by congruence.
    assert (users db1 = users db ∧ blocked_users db1 = blocked_users db ∧
            matches db1 = matches db) as (Hu0 & Hb0 & Hm0) by by rewrite Hdb1.
    destruct (DislikeUser_frame ok1 db1 A pb) as [t Hd]. rewrite H1 in Hd. simpl in Hd.
    subst db2. split; [done|]. split; [done|].
    assert (active_user (with_dislikes db1 t) A = true) as HA2
      by (unfold active_user; simpl; by rewrite Hu0).
    assert (has_block (with_dislikes db1 t) B A = false) as HB2
      by (unfold has_block; simpl; by rewrite Hb0).
    destruct (LikeUser_guards_passed ok2 (with_dislikes db1 t) B pa A Hpa HA2 Hba HB2 Hok)
      as (uA & HuA & ->).
    cbv zeta. rewrite has_like_insert.
    replace (has_like (with_dislikes db1 t) A B) with true by done.
    simpl. unfold Create. rewrite Hokm, Hokc. simpl. rewrite Hm0.
    apply First_Some in HuA as [_ HuA]. apply andb_true_iff in HuA as [HuA _].
    apply N.eqb_eq in HuA.
    eexists uA, _. split; [done|]. split; [done|].
    unfold createMatchNotification, cacheMatchData, Create.
    repeat branch; done.
Qed.

Lemma dislike_keeps_likes_witness :
  let db1 := (LikeUser all_ok db0 1 "2").2 in
  let db2 := (DislikeUser all_ok db1 1 "2").2 in
  likes db2 = likes db1 ∧ has_like db2 1 2 = true ∧
  ∃ userA db3,
    LikeUser all_ok db2 2 "1" = (JSON http.StatusCreated (ItsAMatch 1 userA), db3) ∧
    User.ID userA = 1 ∧
    rows (matches db3) = [Match.mk 1 2 1 true].
Proof.
  destruct dislike_keeps_likes as (_ & _ & H).
  apply (H all_ok all_ok all_ok db0 1 2 "1" "2"
           (LikeUser all_ok db0 1 "2").1 (LikeUser all_ok db0 1 "2").2
           (DislikeUser all_ok (LikeUser all_ok db0 1 "2").2 1 "2").1
           (DislikeUser all_ok (LikeUser all_ok db0 1 "2").2 1 "2").2);
    reflexivity.
Defined.

End MatchEngine.

(** ** The hub *)

Section Hub.
Implicit Types (st : State) (p q : ptr) (c : Client) (sel : Client → bool)
  (message : string).

Lemma keys_spec st p : p ∈ keys st ↔ is_Some (clients st !! p).
Proof.
  unfold keys. rewrite list_elem_of_fmap. split.
  - intros ([q b] & -> & H). apply elem_of_map_to_list in H. eauto.
  - intros [b H]. exists (p, b). split; [done|]. by apply elem_of_map_to_list.
Qed.

Lemma keys_NoDup st : NoDup (keys st).
Proof. apply NoDup_fst_map_to_list. Qed.

(** The [select] on an allocated client with an open channel. *)
Lemma offer_open message p st c :
  heap st !! p = Some c → closed (send c) = false →
  offer message p st
  = Some (mkState (<[p := offered message c]> (heap st))
                  (if has_room c then clients st else delete p (clients st))).
Proof.
  intros Hc Ho. unfold offer, offered, select_send, close, has_room, store.
  rewrite Hc. simpl. rewrite Ho. by destruct (_ <? _)%nat.
Qed.

Lemma offer_is_fanout message p st : offer message p st = fanout (λ _, true) message p st.
Proof. unfold fanout, offer. by destruct (heap st !! p). Qed.

(** What a broadcast loop does, client by client: it touches the clients
    among the visited keys that it selects, and nothing else. *)
Lemma range_fanout sel message ks st :
  NoDup ks →
  (∀ p, p ∈ ks → ∃ c, heap st !! p = Some c ∧ closed (send c) = false) →
  ∃ st',
    range ks (fanout sel message) st = Some st' ∧
    (∀ q, heap st' !! q
          = (λ c, if bool_decide (q ∈ ks) && sel c then offered message c else c)
              <$> heap st !! q) ∧
    (∀ q, clients st' !! q
          = match heap st !! q with
            | Some c =>
                if bool_decide (q ∈ ks) && sel c && negb (has_room c)
                then None else clients st !! q
            | None => clients st !! q
            end).
Proof.
  revert st. induction ks as [|p ks IH]; intros st Hnd Hks.
  - exists st. split; [done|]. split; intros q.
    + by destruct (heap st !! q) as [c|].
    + by destruct (heap st !! q) as [c|].
  - apply NoDup_cons in Hnd as [Hp Hnd].
    destruct (Hks p) as (c & Hc & Ho); [by left|].
    assert (∃ st1, fanout sel message p st = Some st1 ∧
              heap st1 = (if sel c then <[p := offered message c]> (heap st) else heap st) ∧
              clients st1 = (if sel c && negb (has_room c)
                             then delete p (clients st) else clients st))
      as (st1 & Hst1 & Hh1 & Hc1).
    { unfold fanout. rewrite Hc. simpl. destruct (sel c); [|by exists st].
      rewrite (offer_open _ _ _ _ Hc Ho). eexists. split; [done|]. simpl.
      by destruct (has_room c). }
    destruct (IH st1 Hnd) as (st' & Hst' & Hh' & Hc').
    { intros q Hq. assert (q ≠ p) by (intros ->; done).
      destruct (Hks q) as (cq & Hcq & Hoq); [by right|]. exists cq. split; [|done].
      rewrite Hh1. destruct (sel c); [by rewrite lookup_insert_ne|done]. }
    exists st'. split; [simpl; by rewrite Hst1|]. split; intros q.
    + rewrite Hh', Hh1. destruct (decide (q = p)) as [->|Hne].
      * rewrite (bool_decide_eq_false_2 (p ∈ ks)) by done.
        rewrite (bool_decide_eq_true_2 (p ∈ p :: ks)) by by left.
        rewrite Hc. simpl. destruct (sel c); [by rewrite lookup_insert_eq|by rewrite Hc].
      * replace (bool_decide (q ∈ p :: ks)) with (bool_decide (q ∈ ks))
          by (apply bool_decide_ext; rewrite elem_of_cons; intuition congruence).
        destruct (sel c); [by rewrite lookup_insert_ne|done].
    + rewrite Hc', Hh1, Hc1. destruct (decide (q = p)) as [->|Hne].
      * rewrite (bool_decide_eq_false_2 (p ∈ ks)) by done.
        rewrite (bool_decide_eq_true_2 (p ∈ p :: ks)) by by left.
        rewrite Hc. simpl. destruct (sel c); simpl.
        -- rewrite lookup_insert_eq. simpl.
           destruct (has_room c); simpl; [done|by rewrite lookup_delete_eq].
        -- by rewrite Hc.
      * replace (bool_decide (q ∈ p :: ks)) with (bool_decide (q ∈ ks))
          by (apply bool_decide_ext; rewrite elem_of_cons; intuition congruence).
        assert ((if sel c then <[p:=offered message c]> (heap st) else heap st) !! q
                = heap st !! q) as ->.
        { destruct (sel c); [by rewrite lookup_insert_ne|done]. }
        assert ((if sel c && negb (has_room c) then delete p (clients st) else clients st) !! q
                = clients st !! q) as ->.
        { destruct (sel c && negb (has_room c)); [by rewrite lookup_delete_ne|done]. }
        done.
Qed.

Lemma range_ext (f g : ptr → State → option State) ks st :
  (∀ p st, f p st = g p st) → range ks f st = range ks g st.
Proof.
  intros H. revert st. induction ks as [|p ks IH]; intros st; [done|].
  simpl. rewrite H. destruct (g p st); simpl; [apply IH|done].
Qed.

Lemma offered_open message c : has_room c = true → closed (send (offered message c)) = false.
Proof. unfold offered. by intros ->. Qed.

Lemma offered_changes message c : closed (send c) = false → offered message c ≠ c.
Proof.
  unfold offered. destruct c as [k [b cl] u i]. simpl. intros ->.
  destruct (has_room _); unfold with_send; simpl; intros H; [|done].
  assert (b ++ [message] = b) as Hb by congruence.
  apply (f_equal length) in Hb. rewrite length_app in Hb. simpl in Hb. lia.
Qed.

(** A broadcast loop over the registry in a state that satisfies the
    invariant: it does not panic, it offers the message to the registered
    clients it selects and to nobody else, it drops from the registry the
    selected clients without room, and the invariant holds afterwards. *)
Lemma fanout_registry sel message st :
  hub_inv st →
  ∃ st',
    range (keys st) (fanout sel message) st = Some st' ∧
    (∀ q, heap st' !! q
          = (λ c, if bool_decide (is_Some (clients st !! q)) && sel c
                  then offered message c else c) <$> heap st !! q) ∧
    (∀ q, clients st' !! q
          = match heap st !! q with
            | Some c => if sel c && negb (has_room c) then None else clients st !! q
            | None => clients st !! q
            end) ∧
    hub_inv st'.
Proof.
  intros Hinv.
  destruct (range_fanout sel message (keys st) st (keys_NoDup st)) as (st' & Hr & Hh & Hc).
  { intros p [b Hb]%keys_spec. eauto. }
  exists st'. split; [done|].
  assert (∀ q, heap st' !! q
          = (λ c, if bool_decide (is_Some (clients st !! q)) && sel c
                  then offered message c else c) <$> heap st !! q) as Hh'.
  { intros q. rewrite Hh. destruct (heap st !! q); [|done]. simpl.
    by rewrite (bool_decide_ext _ _ (keys_spec st q)). }
  assert (∀ q, clients st' !! q
          = match heap st !! q with
            | Some c => if sel c && negb (has_room c) then None else clients st !! q
            | None => clients st !! q
            end) as Hc'.
  { intros q. rewrite Hc. destruct (heap st !! q) as [c|]; [|done].
    destruct (decide (is_Some (clients st !! q))) as [Hq|Hq].
    - by rewrite (bool_decide_eq_true_2 _ (proj2 (keys_spec st q) Hq)).
    - rewrite (bool_decide_eq_false_2 (q ∈ keys st)) by by rewrite keys_spec.
      simpl. apply eq_None_not_Some in Hq. rewrite Hq. by destruct (_ && _). }
  split; [done|]. split; [done|].
  intros q b Hq. rewrite Hc' in Hq. rewrite Hh'.
  destruct (heap st !! q) as [c|] eqn:Hcq.
  - destruct (sel c && negb (has_room c)) eqn:Hs; [done|].
    destruct (Hinv q b Hq) as (c' & Hc'' & Ho). simplify_eq. simpl.
    rewrite bool_decide_eq_true_2 by eauto. simpl.
    destruct (sel c); simpl in *; [|eauto].
    apply negb_false_iff in Hs. eexists. split; [done|]. by apply offered_open.
  - destruct (Hinv q b Hq) as (c' & Hc'' & Ho). congruence.
Qed.

(** Go does not fix the order in which [range] yields the keys of a map;
    the outcome of the broadcast loops does not depend on it. *)
Lemma range_fanout_order sel message ks ks' st :
  hub_inv st → ks ≡ₚ keys st → ks' ≡ₚ keys st →
  range ks (fanout sel message) st = range ks' (fanout sel message) st.
Proof.
  intros Hinv Hk Hk'.
  assert (∀ l, l ≡ₚ keys st →
            NoDup l ∧ ∀ p, p ∈ l → ∃ c, heap st !! p = Some c ∧ closed (send c) = false) as Hl.
  { intros l Hp. split; [rewrite Hp; apply keys_NoDup|].
    intros p Hin. rewrite Hp in Hin. apply keys_spec in Hin as [b Hb]. eauto. }
  destruct (Hl ks Hk) as [Hnd Hks]. destruct (Hl ks' Hk') as [Hnd' Hks'].
  destruct (range_fanout sel message ks st Hnd Hks) as (s1 & -> & Hh1 & Hc1).
  destruct (range_fanout sel message ks' st Hnd' Hks') as (s2 & -> & Hh2 & Hc2).
  f_equal. destruct s1 as [h1 c1], s2 as [h2 c2]. simpl in *. f_equal; apply map_eq; intros q.
  - rewrite Hh1, Hh2. destruct (heap st !! q); [|done]. simpl.
    by rewrite (bool_decide_ext (q ∈ ks) (q ∈ ks')) by by rewrite Hk, Hk'.
  - rewrite Hc1, Hc2. destruct (heap st !! q); [|done].
    by rewrite (bool_decide_ext (q ∈ ks) (q ∈ ks')) by by rewrite Hk, Hk'.
Qed.

Lemma broadcast_fanout message st :
  broadcast message st = range (keys st) (fanout (λ _, true) message) st.
Proof. apply range_ext. intros. apply offer_is_fanout. Qed.

(** The three broadcasts are one loop with three tests. *)
Lemma run_broadcast_op op st :
  match op with OpBroadcast _ | OpToConversation _ _ | OpToUser _ _ => True | _ => False end →
  ∃ message, run_op op st = range (keys st) (fanout (op_selects op) message) st.
Proof.
  destruct op as [| |m|id m|id m]; try done; intros _; exists m; simpl.
  - apply broadcast_fanout.
  - done.
  - done.
Qed.

Lemma HandleWebSocket_inv upgraded user_id st :
  hub_inv st → hub_inv (HandleWebSocket upgraded user_id st).1.
Proof.
  intros Hinv. unfold HandleWebSocket. destruct upgraded; [|done].
  destruct user_id as [uid|]; [|done]. unfold register, store. intros q b. simpl.
  destruct (decide (q = fresh (dom (heap st)))) as [->|Hne].
  - intros _. rewrite lookup_insert_eq. eauto.
  - rewrite !lookup_insert_ne by done. apply Hinv.
Qed.

Lemma unregister_inv p st :
  hub_inv st →
  ∃ st', unregister p st = Some st' ∧ hub_inv st' ∧ clients st' !! p = None ∧
         (∀ q, q ≠ p → heap st' !! q = heap st !! q ∧ clients st' !! q = clients st !! q) ∧
         (is_Some (heap st !! p) → is_Some (heap st' !! p)).
Proof.
  intros Hinv. unfold unregister. destruct (clients st !! p) as [b|] eqn:Hp.
  - destruct (Hinv p b Hp) as (c & Hc & Ho). rewrite Hc. simpl.
    unfold close. rewrite Ho. simpl. eexists. split; [done|]. simpl.
    split; [|split; [by rewrite lookup_delete_eq|split]].
    + intros q b'. simpl. destruct (decide (q = p)) as [->|Hne].
      * by rewrite lookup_delete_eq.
      * rewrite lookup_delete_ne, lookup_insert_ne by done. apply Hinv.
    + intros q Hne. by rewrite lookup_delete_ne, lookup_insert_ne.
    + intros _. rewrite lookup_insert_eq. eauto.
  - exists st. repeat split; done.
Qed.

Lemma run_op_inv op st : hub_inv st → ∃ st', run_op op st = Some st' ∧ hub_inv st'.
Proof.
  intros Hinv. destruct op as [up uid|p|m|id m|id m]; simpl.
  - eexists. split; [done|]. by apply HandleWebSocket_inv.
  - destruct (unregister_inv p st Hinv) as (st' & ? & ? & _). eauto.
  - rewrite broadcast_fanout.
    destruct (fanout_registry (λ _, true) m st Hinv) as (st' & ? & _ & _ & ?). eauto.
  - destruct (fanout_registry (λ c, conversationID c =? id) m st Hinv)
      as (st' & ? & _ & _ & ?). eauto.
  - destruct (fanout_registry (λ c, userID c =? id) m st Hinv) as (st' & ? & _ & _ & ?). eauto.
Qed.

Lemma hub_inv_NewHub : hub_inv NewHub.
Proof. intros p b H. simpl in H. by rewrite lookup_empty in H. Qed.

Lemma hub_inv_st_one : hub_inv st_one.
Proof. apply HandleWebSocket_inv, hub_inv_NewHub. Qed.

Lemma hub_inv_st_full : hub_inv st_full.
Proof.
  intros p b H. simpl in *. apply lookup_singleton_Some in H as [<- <-].
  rewrite lookup_singleton_eq. eauto.
Qed.

(** C5.  From a state in which every registered session is allocated with
    an open outbound queue, each hub operation (a connection that registers,
    unregister, broadcast to all, to a conversation, to a user) completes without
    a panic and leads to such a state again.  In the state it leads to, a
    fan-out to any conversation reaches exactly the registered sessions
    joined to it, hence registered sessions only.  A registered session that
    a broadcast selects while its queue is full is, in that same step,
    dropped from the registry with its queue closed and nothing queued; any
    later fan-out, to its conversation or another, completes and leaves it
    untouched. *)
Theorem fanout_stays_within_registry op st :
  hub_inv st →
  ∃ st1,
    run_op op st = Some st1 ∧ hub_inv st1 ∧
    (∀ id message, ∃ st2,
       BroadcastToConversation id message st1 = Some st2 ∧
       ∀ q, heap st2 !! q ≠ heap st1 !! q ↔
            is_Some (clients st1 !! q) ∧
            ∃ c, heap st1 !! q = Some c ∧ conversationID c = id) ∧
    (∀ p c, is_Some (clients st !! p) → heap st !! p = Some c →
            op_selects op c = true → has_room c = false →
       clients st1 !! p = None ∧
       heap st1 !! p = Some (with_send c (mkChan (buf (send c)) true)) ∧
       ∀ id message, ∃ st2,
         BroadcastToConversation id message st1 = Some st2 ∧
         heap st2 !! p = heap st1 !! p ∧ clients st2 !! p = None).
Proof.
  intros Hinv. destruct (run_op_inv op st Hinv) as (st1 & Hop & Hinv1).
  exists st1. split; [done|]. split; [done|]. split.
  - intros id message.
    destruct (fanout_registry (λ c, conversationID c =? id) message st1 Hinv1)
      as (st2 & Hr & Hh & _).
    exists st2. split; [exact Hr|]. intros q. rewrite Hh.
    destruct (heap st1 !! q) as [c|] eqn:Hc; simpl.
    + destruct (clients st1 !! q) as [b|] eqn:Hb.
      * destruct (Hinv1 q b Hb) as (c' & Hc' & Ho). simplify_eq.
        rewrite bool_decide_eq_true_2 by eauto. simpl.
        destruct (N.eqb_spec (conversationID c) id) as [Hid|Hid].
        -- split; [eauto|]. intros _ H. simplify_eq. by apply offered_changes in H.
        -- split; [done|]. intros (_ & c' & ? & ?). simplify_eq.
      * rewrite bool_decide_eq_false_2 by (by intros [? ?]). simpl.
        split; [done|]. by intros [[? ?] _].
    + split; [done|]. by intros (_ & c & ? & _).
  - intros p c Hp Hc Hsel Hroom.
    destruct (run_broadcast_op op st) as [message Hrun]; [by destruct op|].
    destruct (fanout_registry (op_selects op) message st Hinv) as (st1' & Hr & Hh & Hcl & _).
    assert (st1' = st1) as -> by congruence.
    assert (clients st1 !! p = None) as Hp1 by by rewrite Hcl, Hc, Hsel, Hroom.
    split; [done|]. split.
    + rewrite Hh, Hc. simpl. rewrite bool_decide_eq_true_2, Hsel by done. simpl.
      unfold offered. by rewrite Hroom.
    + intros id message'.
      destruct (fanout_registry (λ c, conversationID c =? id) message' st1 Hinv1)
        as (st2 & Hr2 & Hh2 & Hcl2 & _).
      exists st2. split; [exact Hr2|]. split.
      * rewrite Hh2. destruct (heap st1 !! p); [|done]. simpl.
        rewrite bool_decide_eq_false_2; [done|]. rewrite Hp1. by intros [? ?].
      * rewrite Hcl2, Hp1. destruct (heap st1 !! p); [|done]. by destruct (_ && _).
Qed.

Lemma fanout_stays_within_registry_witness :
  ∃ st1,
    run_op (OpToConversation 7 "late") st_full = Some st1 ∧
    clients st1 !! 1%positive = None ∧
    ∃ st2, BroadcastToConversation 7 "later" st1 = Some st2 ∧
           heap st2 !! 1%positive = heap st1 !! 1%positive.
Proof.
  destruct (fanout_stays_within_registry (OpToConversation 7 "late") st_full hub_inv_st_full)
    as (st1 & H1 & _ & _ & H).
  exists st1. split; [exact H1|].
  destruct (H 1%positive (mkClient (mkConn [] false) (mkChan (replicate 256 "m") false) 5 7))
    as (Hc & _ & Hb); [by eexists | reflexivity | reflexivity | reflexivity |].
  split; [exact Hc|].
  destruct (Hb 7 "later") as (st2 & H2 & H3 & _). by exists st2.
Defined.

(** *** The read pump *)

Section ReadPump.
Context `{Platform}.

Lemma uint_represents f n : represents f n → uint f = n.
Proof.
  intros [Hf Hn]. unfold uint. rewrite Hf.
  assert ((0 <=? Z.of_N n)%Z && (Z.of_N n <? 2 ^ 64)%Z = true) as ->.
  { apply andb_true_iff. split; [apply Z.leb_le; lia|apply Z.ltb_lt].
    change (2 ^ 64)%Z with (Z.of_N (2 ^ 64)). lia. }
  apply N2Z.id.
Qed.

Lemma Marshal_typing_frame id u b :
  Marshal (mkTypingMessage "typing" id u b) = typing_frame id u b.
Proof. by destruct b. Qed.

Lemma dispatch_join p (message : gmap string JValue) st c f :
  heap st !! p = Some c →
  message !! "type" = Some (JString "join_conversation") →
  message !! "conversation_id" = Some (JNumber f) →
  dispatch p message st = Some (store p (with_conversationID c (uint f)) st).
Proof. intros Hc Ht Hi. unfold dispatch. rewrite Ht, Hi, Hc. by rewrite decide_True. Qed.

Lemma dispatch_typing p (message : gmap string JValue) st c f ty (is_typing : bool) :
  heap st !! p = Some c →
  (ty = "typing" ∧ is_typing = true) ∨ (ty = "stop_typing" ∧ is_typing = false) →
  message !! "type" = Some (JString ty) →
  message !! "conversation_id" = Some (JNumber f) →
  dispatch p message st
  = BroadcastToConversation (uint f) (typing_frame (uint f) (userID c) is_typing) st.
Proof.
  intros Hc Hty Ht Hi. unfold dispatch. rewrite Ht.
  destruct Hty as [[-> ->]|[-> ->]]; simpl; unfold typing; by rewrite Hi, Hc.
Qed.

Lemma store_inv p c c' st :
  hub_inv st → heap st !! p = Some c → send c' = send c → hub_inv (store p c' st).
Proof.
  intros Hinv Hc Hs q b Hq. simpl in *. destruct (Hinv q b Hq) as (cq & Hcq & Ho).
  destruct (decide (q = p)) as [->|Hne].
  - rewrite lookup_insert_eq. simplify_eq. exists c'. by rewrite Hs.
  - rewrite lookup_insert_ne by done. eauto.
Qed.

(** Whatever a decoded frame holds, the read loop handles it without a
    panic, keeps the invariant, and keeps the registry unless it broadcasts. *)
Lemma dispatch_inv p (message : gmap string JValue) st :
  hub_inv st → is_Some (heap st !! p) →
  ∃ st', dispatch p message st = Some st' ∧ hub_inv st' ∧ is_Some (heap st' !! p).
Proof.
  intros Hinv [c Hc].
  assert (∀ b, ∃ st', typing p message b st = Some st' ∧ hub_inv st' ∧ is_Some (heap st' !! p))
    as Hty.
  { intros b. unfold typing. destruct (message !! "conversation_id") as [[]|]; try by eauto.
    rewrite Hc. simpl.
    destruct (fanout_registry (λ c, conversationID c =? uint f)
                (Marshal (mkTypingMessage "typing" (uint f) (userID c) b)) st Hinv)
      as (st' & Hr & Hh & _ & Hinv').
    exists st'. split; [exact Hr|]. split; [done|]. rewrite Hh, Hc. by eexists. }
  unfold dispatch. destruct (message !! "type") as [[]|]; try by eauto.
  repeat case_decide; try by eauto.
  destruct (message !! "conversation_id") as [[]|]; try by eauto.
  rewrite Hc. simpl. eexists. split; [done|]. split.
  - by eapply store_inv.
  - simpl. rewrite lookup_insert_eq. eauto.
Qed.

Lemma readPump_deferred_spec p st :
  hub_inv st → is_Some (heap st !! p) →
  ∃ st', readPump_deferred p st = Some st' ∧ hub_inv st' ∧ torn_down st' p ∧
         ∀ q, q ≠ p → heap st' !! q = heap st !! q ∧ clients st' !! q = clients st !! q.
Proof.
  intros Hinv Hp.
  destruct (unregister_inv p st Hinv) as (st1 & Hu & Hinv1 & Hp1 & Hfr & Hal).
  destruct (Hal Hp) as [c Hc]. unfold readPump_deferred. rewrite Hu. simpl. rewrite Hc. simpl.
  eexists. split; [done|]. split; [|split].
  - intros q b Hq. simpl in *. destruct (decide (q = p)) as [->|Hne]; [congruence|].
    rewrite lookup_insert_ne by done. by apply (Hinv1 q b).
  - split; simpl; [done|]. by rewrite lookup_insert_eq.
  - intros q Hne. simpl. rewrite lookup_insert_ne by done. by apply Hfr.
Qed.

Lemma readPump_inv p inputs st :
  hub_inv st → is_Some (heap st !! p) →
  ∃ st' pump, readPump p inputs st = Some (st', pump) ∧ hub_inv st' ∧ is_Some (heap st' !! p).
Proof.
  revert st. induction inputs as [|[| |message] inputs IH]; intros st Hinv Hp; simpl.
  - eauto.
  - destruct (readPump_deferred_spec p st Hinv Hp) as (st' & -> & Hinv' & [_ Ht] & _).
    simpl. exists st', Returned. split; [done|]. split; [done|].
    destruct (heap st' !! p); [eauto|done].
  - by apply IH.
  - destruct (dispatch_inv p message st Hinv Hp) as (st' & -> & Hinv' & Hp'). simpl.
    by apply IH.
Qed.

(** Until the first read error the pump keeps reading. *)
Lemma readPump_reading p pre st :
  hub_inv st → is_Some (heap st !! p) → ReadError ∉ pre →
  ∃ st1, readPump p pre st = Some (st1, Blocked) ∧ hub_inv st1 ∧ is_Some (heap st1 !! p) ∧
         ∀ rest, readPump p (pre ++ rest) st = readPump p rest st1.
Proof.
  revert st. induction pre as [|[| |message] pre IH]; intros st Hinv Hp Hpre; simpl.
  - eauto.
  - destruct Hpre. by left.
  - apply IH; try done. intros Hin. apply Hpre. by right.
  - destruct (dispatch_inv p message st Hinv Hp) as (st' & -> & Hinv' & Hp'). simpl.
    apply IH; try done. intros Hin. apply Hpre. by right.
Qed.

(** C4, as amended.  An error of [ReadMessage] (an unreadable socket, a
    violation of the WebSocket protocol) ends the read pump: whatever frames
    came before, at the first read error the session is taken out of the
    registry and its socket is closed, and this teardown changes no other
    session and no other registry entry.  A frame that is read but is not
    JSON is not such an error, nor is a JSON frame without a type: it is
    skipped and the pump goes on as if the frame had not arrived. *)
Theorem read_error_tears_down_the_session p pre rest st :
  hub_inv st → is_Some (heap st !! p) → ReadError ∉ pre →
  ∃ st1 st2,
    readPump p pre st = Some (st1, Blocked) ∧
    readPump p (pre ++ ReadError :: rest) st = Some (st2, Returned) ∧
    torn_down st2 p ∧
    (∀ q, q ≠ p → heap st2 !! q = heap st1 !! q ∧ clients st2 !! q = clients st1 !! q) ∧
    readPump p (Unparsable :: pre) st = Some (st1, Blocked) ∧
    (∀ message : gmap string JValue, message !! "type" = None →
       readPump p (Parsed message :: pre) st = Some (st1, Blocked)).
Proof.
  intros Hinv Hp Hpre.
  destruct (readPump_reading p pre st Hinv Hp Hpre) as (st1 & Hr & Hinv1 & Hp1 & Happ).
  destruct (readPump_deferred_spec p st1 Hinv1 Hp1) as (st2 & Hd & _ & Ht & Hfr).
  exists st1, st2. split; [done|]. split; [|split; [done|split; [done|split]]].
  - rewrite Happ. simpl. by rewrite Hd.
  - done.
  - intros message Hm. simpl. unfold dispatch. by rewrite Hm.
Qed.

(** The pump after a join and a typing (or stop_typing) frame for the same
    conversation, on a registered session with room in its queue. *)
Lemma typing_echo p st c b f n (join typing_ : gmap string JValue) ty (is_typing : bool) :
  hub_inv st → clients st !! p = Some b → heap st !! p = Some c → has_room c = true →
  represents f n →
  join !! "type" = Some (JString "join_conversation") →
  join !! "conversation_id" = Some (JNumber f) →
  (ty = "typing" ∧ is_typing = true) ∨ (ty = "stop_typing" ∧ is_typing = false) →
  typing_ !! "type" = Some (JString ty) →
  typing_ !! "conversation_id" = Some (JNumber f) →
  ∃ st',
    readPump p [Parsed join; Parsed typing_] st = Some (st', Blocked) ∧
    clients st' !! p = Some b ∧
    heap st' !! p
      = Some (mkClient (conn c)
                (mkChan (buf (send c) ++ [typing_frame n (userID c) is_typing]) false)
                (userID c) n) ∧
    (∀ q cq, q ≠ p → is_Some (clients st !! q) → heap st !! q = Some cq →
             conversationID cq = n →
             heap st' !! q = Some (offered (typing_frame n (userID c) is_typing) cq)).
Proof.
  intros Hinv Hb Hc Hroom Hf Hj1 Hj2 Hty Ht1 Ht2.
  pose proof (uint_represents f n Hf) as Hu.
  simpl. rewrite (dispatch_join p join st c f Hc Hj1 Hj2). simpl.
  set (c1 := with_conversationID c (uint f)). set (st1 := store p c1 st).
  assert (heap st1 !! p = Some c1) as Hc1 by (simpl; by rewrite lookup_insert_eq).
  assert (hub_inv st1) as Hinv1 by by eapply store_inv.
  rewrite (dispatch_typing p typing_ st1 c1 f ty is_typing Hc1 Hty Ht1 Ht2).
  destruct (fanout_registry (λ c, conversationID c =? uint f)
              (typing_frame (uint f) (userID c1) is_typing) st1 Hinv1)
    as (st2 & Hr & Hh & Hcl & _).
  unfold BroadcastToConversation, fanout in *. rewrite Hr. simpl.
  exists st2. split; [done|]. split; [|split].
  - rewrite Hcl, Hc1. unfold has_room in *. simpl. rewrite Hroom.
    by rewrite andb_false_r.
  - rewrite Hh, Hc1. simpl. rewrite bool_decide_eq_true_2 by (simpl; eauto).
    rewrite N.eqb_refl. simpl. unfold offered, has_room in *. simpl. rewrite Hroom.
    unfold c1, with_send, with_conversationID. simpl. by rewrite Hu.
  - intros q cq Hne Hq Hcq Hid. rewrite Hh. simpl. rewrite lookup_insert_ne by done.
    rewrite Hcq. simpl. rewrite bool_decide_eq_true_2 by done.
    rewrite Hu, (proj2 (N.eqb_eq _ _) Hid). done.
Qed.

(** [writePump] on an open socket writes the queued messages in order and
    then waits. *)
Lemma writePump_loop_open pending (k : Conn) :
  conn_closed k = false →
  writePump_loop pending false k
  = ([], mkConn (written k ++ (TextMessage <$> pending)) false, Blocked).
Proof.
  revert k. induction pending as [|m pending IH]; intros [w cl] Hk; simpl in *; subst.
  - by rewrite app_nil_r.
  - unfold WriteMessage. simpl. rewrite IH by done. simpl. by rewrite <- app_assoc.
Qed.

(** [writePump] leaves the registry and the state of every channel alone. *)
Lemma writePump_inv p st :
  hub_inv st → is_Some (heap st !! p) →
  ∃ st' pump, writePump p st = Some (st', pump) ∧ hub_inv st' ∧ clients st' = clients st.
Proof.
  intros Hinv [c Hc]. unfold writePump. rewrite Hc. simpl.
  destruct (writePump_loop _ _ _) as [[rest k] pump]. eexists _, pump.
  split; [done|]. split; [|done].
  intros q b Hq. simpl in *. destruct (Hinv q b Hq) as (cq & Hcq & Ho).
  destruct (decide (q = p)) as [->|Hne].
  - rewrite lookup_insert_eq. simplify_eq. eauto.
  - rewrite lookup_insert_ne by done. eauto.
Qed.

(** C8.  Take a registered session with room in its outbound queue, a
    join_conversation frame for a conversation n, and then a typing frame for n.
    The session stays registered, is joined to n, and finds at the end of
    its own outbound queue the frame
    [{"type":"typing","conversation_id":n,"user_id":u,"is_typing":true}]
    with u its own user id; every other registered session joined to n is
    offered the same frame; on an open socket [writePump] then writes the
    frame to the sender's peer.  A stop_typing frame gives the same frame
    with ["is_typing":false]. *)
Theorem typing_is_echoed_to_the_sender p st c b f n (join typing_ stop : gmap string JValue) :
  hub_inv st → clients st !! p = Some b → heap st !! p = Some c → has_room c = true →
  represents f n →
  join !! "type" = Some (JString "join_conversation") →
  join !! "conversation_id" = Some (JNumber f) →
  typing_ !! "type" = Some (JString "typing") →
  typing_ !! "conversation_id" = Some (JNumber f) →
  stop !! "type" = Some (JString "stop_typing") →
  stop !! "conversation_id" = Some (JNumber f) →
  (∃ st' st'',
     readPump p [Parsed join; Parsed typing_] st = Some (st', Blocked) ∧
     clients st' !! p = Some b ∧
     heap st' !! p
       = Some (mkClient (conn c)
                 (mkChan (buf (send c) ++ [typing_frame n (userID c) true]) false)
                 (userID c) n) ∧
     (∀ q cq, q ≠ p → is_Some (clients st !! q) → heap st !! q = Some cq →
              conversationID cq = n →
              heap st' !! q = Some (offered (typing_frame n (userID c) true) cq)) ∧
     (conn_closed (conn c) = false →
      writePump p st' = Some (st'', Blocked) ∧
      (written ∘ conn) <$> heap st'' !! p
        = Some (written (conn c) ++ (TextMessage <$> buf (send c))
                ++ [TextMessage (typing_frame n (userID c) true)]))) ∧
  (∃ st',
     readPump p [Parsed join; Parsed stop] st = Some (st', Blocked) ∧
     clients st' !! p = Some b ∧
     heap st' !! p
       = Some (mkClient (conn c)
                 (mkChan (buf (send c) ++ [typing_frame n (userID c) false]) false)
                 (userID c) n)).
Proof.
  intros Hinv Hb Hc Hroom Hf Hj1 Hj2 Ht1 Ht2 Hs1 Hs2. split.
  - destruct (typing_echo p st c b f n join typing_ "typing" true)
      as (st' & Hr & Hcl & Hh & Hothers); try done; [by left|].
    eexists st', _. split; [exact Hr|]. split; [exact Hcl|]. split; [exact Hh|].
    split; [exact Hothers|]. intros Hk. unfold writePump. rewrite Hh. simpl.
    rewrite writePump_loop_open by done. simpl. split; [done|].
    unfold store. simpl. rewrite lookup_insert_eq. simpl. by rewrite fmap_app.
  - destruct (typing_echo p st c b f n join stop "stop_typing" false)
      as (st' & Hr & Hcl & Hh & _); try done; [by right|].
    by exists st'.
Qed.

(** C9.  A join_conversation frame for the conversation n sets the current
    conversation of the session to n.  Nothing but the frame decides this:
    the session may belong to any user, and the hub holds no matches or
    conversations to consult.  From then on, in every state in which the
    session is still registered, still joined to n and has room in its
    queue, [BroadcastToConversation] for n appends the bytes to its outbound
    queue and leaves it registered; this holds in particular right after
    the join. *)
Theorem join_needs_no_membership p st c f n (join : gmap string JValue) :
  heap st !! p = Some c → represents f n →
  join !! "type" = Some (JString "join_conversation") →
  join !! "conversation_id" = Some (JNumber f) →
  ∃ st1,
    readPump p [Parsed join] st = Some (st1, Blocked) ∧
    heap st1 = <[p := with_conversationID c n]> (heap st) ∧
    clients st1 = clients st ∧
    (∀ st2 c2 bytes,
       hub_inv st2 → is_Some (clients st2 !! p) → heap st2 !! p = Some c2 →
       conversationID c2 = n → has_room c2 = true →
       ∃ st3,
         BroadcastToConversation n bytes st2 = Some st3 ∧ hub_inv st3 ∧
         is_Some (clients st3 !! p) ∧
         heap st3 !! p = Some (with_send c2 (mkChan (buf (send c2) ++ [bytes]) false))) ∧
    (hub_inv st → is_Some (clients st !! p) → has_room c = true →
     ∀ bytes, ∃ st3,
       BroadcastToConversation n bytes st1 = Some st3 ∧
       heap st3 !! p
         = Some (mkClient (conn c) (mkChan (buf (send c) ++ [bytes]) false) (userID c) n)).
Proof.
  intros Hc Hf Hj1 Hj2. pose proof (uint_represents f n Hf) as Hu.
  assert (∀ st2 c2 bytes,
    hub_inv st2 → is_Some (clients st2 !! p) → heap st2 !! p = Some c2 →
    conversationID c2 = n → has_room c2 = true →
    ∃ st3,
      BroadcastToConversation n bytes st2 = Some st3 ∧ hub_inv st3 ∧
      is_Some (clients st3 !! p) ∧
      heap st3 !! p = Some (with_send c2 (mkChan (buf (send c2) ++ [bytes]) false))) as Hlater.
  { intros st2 c2 bytes Hinv2 Hp2 Hc2 Hid Hroom.
    destruct (fanout_registry (λ c, conversationID c =? n) bytes st2 Hinv2)
      as (st3 & Hr & Hh & Hcl & Hinv3).
    exists st3. split; [exact Hr|]. split; [done|]. split.
    - rewrite Hcl, Hc2, Hroom. by rewrite andb_false_r.
    - rewrite Hh, Hc2. simpl. rewrite bool_decide_eq_true_2 by done.
      rewrite (proj2 (N.eqb_eq _ _) Hid). simpl. unfold offered. by rewrite Hroom. }
  simpl. rewrite (dispatch_join p join st c f Hc Hj1 Hj2). simpl. rewrite Hu.
  eexists. split; [done|]. split; [done|]. split; [done|]. split; [exact Hlater|].
  intros Hinv Hp Hroom bytes.
  destruct (Hlater (store p (with_conversationID c n) st) (with_conversationID c n) bytes)
    as (st3 & Hr & _ & _ & Hh); try done.
  - by eapply store_inv.
  - simpl. by rewrite lookup_insert_eq.
  - by exists st3.
Qed.

End ReadPump.

(** C4 as the specification states it fails: a session that receives a frame
    that is not JSON is still registered, its socket is still open and its
    read pump is still reading. *)
Lemma malformed_frame_keeps_the_session :
  readPump 1%positive [Unparsable] st_one = Some (st_one, Blocked) ∧
  clients st_one !! 1%positive = Some true ∧
  (conn_closed ∘ conn) <$> heap st_one !! 1%positive = Some false ∧
  ¬ torn_down st_one 1%positive.
Proof.
  split; [reflexivity|]. split; [reflexivity|]. split; [reflexivity|].
  intros [H _]. vm_compute in H. discriminate.
Qed.

Lemma read_error_tears_down_the_session_witness :
  ∃ st1 st2,
    readPump 1%positive [Parsed join_7; Unparsable] st_one = Some (st1, Blocked) ∧
    readPump 1%positive ([Parsed join_7; Unparsable] ++ [ReadError]) st_one
      = Some (st2, Returned) ∧
    torn_down st2 1%positive ∧
    (∀ q, q ≠ 1%positive →
          heap st2 !! q = heap st1 !! q ∧ clients st2 !! q = clients st1 !! q) ∧
    readPump 1%positive (Unparsable :: [Parsed join_7; Unparsable]) st_one
      = Some (st1, Blocked) ∧
    (∀ message : gmap string JValue, message !! "type" = None →
       readPump 1%positive (Parsed message :: [Parsed join_7; Unparsable]) st_one
         = Some (st1, Blocked)).
Proof.
  apply (read_error_tears_down_the_session 1%positive [Parsed join_7; Unparsable] [] st_one).
  - exact hub_inv_st_one.
  - eexists. reflexivity.
  - intros Hin. apply elem_of_cons in Hin as [Hin|Hin]; [discriminate|].
    apply elem_of_cons in Hin as [Hin|Hin]; [discriminate|]. by apply elem_of_nil in Hin.
Defined.

Lemma typing_is_echoed_to_the_sender_witness :
  (∃ st' st'',
     readPump 1%positive [Parsed join_7; Parsed typing_7] st_one = Some (st', Blocked) ∧
     clients st' !! 1%positive = Some true ∧
     heap st' !! 1%positive
       = Some (mkClient (mkConn [] false) (mkChan [typing_frame 7 5 true] false) 5 7) ∧
     (∀ q cq, q ≠ 1%positive → is_Some (clients st_one !! q) → heap st_one !! q = Some cq →
              conversationID cq = 7 →
              heap st' !! q = Some (offered (typing_frame 7 5 true) cq)) ∧
     (false = false →
      writePump 1%positive st' = Some (st'', Blocked) ∧
      (written ∘ conn) <$> heap st'' !! 1%positive
        = Some [TextMessage (typing_frame 7 5 true)])) ∧
  (∃ st',
     readPump 1%positive [Parsed join_7; Parsed stop_typing_7] st_one = Some (st', Blocked) ∧
     clients st' !! 1%positive = Some true ∧
     heap st' !! 1%positive
       = Some (mkClient (mkConn [] false) (mkChan [typing_frame 7 5 false] false) 5 7)).
Proof.
  apply (typing_is_echoed_to_the_sender 1%positive st_one
           (mkClient (mkConn [] false) make_chan 5 0) true seven 7
           join_7 typing_7 stop_typing_7);
    [exact hub_inv_st_one | reflexivity | reflexivity | reflexivity
    | split; reflexivity | reflexivity | reflexivity | reflexivity | reflexivity
    | reflexivity | reflexivity].
Defined.

Lemma join_needs_no_membership_witness :
  ∃ st1,
    readPump 1%positive [Parsed join_7] st_one = Some (st1, Blocked) ∧
    heap st1 = <[1%positive := mkClient (mkConn [] false) make_chan 5 7]> (heap st_one) ∧
    ∀ bytes, ∃ st3,
      BroadcastToConversation 7 bytes st1 = Some st3 ∧
      heap st3 !! 1%positive
        = Some (mkClient (mkConn [] false) (mkChan [bytes] false) 5 7).
Proof.
  destruct (join_needs_no_membership 1%positive st_one
              (mkClient (mkConn [] false) make_chan 5 0) seven 7 join_7)
    as (st1 & H1 & H2 & _ & _ & H3);
    [reflexivity | split; reflexivity | reflexivity | reflexivity |].
  exists st1. split; [exact H1|]. split; [exact H2|].
  apply H3; [exact hub_inv_st_one | eexists; reflexivity | reflexivity].
Defined.

End Hub.

(** ** strconv and utils *)

Section Utils.
Import utils.
Import Stdlib.Strings.Ascii.

Lemma digit_pretty_N_char m : m < 10 → strconv.digit (pretty_N_char m) = Some m.
Proof.
  intros Hm.
  assert (m = 0 ∨ m = 1 ∨ m = 2 ∨ m = 3 ∨ m = 4 ∨ m = 5 ∨ m = 6 ∨ m = 7 ∨ m = 8 ∨ m = 9)
    as Hc by lia.
  repeat destruct Hc as [->|Hc]; try subst m; reflexivity.
Qed.

Lemma isDigit_pretty_N_char m : isDigit (pretty_N_char m) = true.
Proof. unfold pretty_N_char. by repeat case_match. Qed.

(** The digits [pretty_N_go] puts in front of [s]: how many, what they are
    worth, and that they are digits. *)
Lemma pretty_N_go_digits x s :
  ∃ k : nat,
    String.length (pretty_N_go x s) = (k + String.length s)%nat ∧
    x < 10 ^ N.of_nat k ∧
    (0 < x → 10 ^ N.of_nat (k - 1) ≤ x ∧ (0 < k)%nat) ∧
    (x = 0 → k = 0%nat) ∧
    (∀ acc, strconv.digits (pretty_N_go x s) acc = strconv.digits s (acc * 10 ^ N.of_nat k + x)) ∧
    cleaned (pretty_N_go x s) = pretty_N_go x (cleaned s).
Proof.
  revert s. induction (N.lt_wf_0 x) as [x _ IH]. intros s.
  assert (x = 0 ∨ 0 < x) as [->|Hx] by lia.
  - exists 0%nat. rewrite !pretty_N_go_0. simpl.
    repeat split; try done; try lia. intros acc. f_equal. lia.
  - rewrite !pretty_N_go_step by done.
    destruct (IH (x `div` 10)) with (s := String (pretty_N_char (x `mod` 10)) s)
      as (k & Hlen & Hlt & Hge & Hz & Hd & Hc).
    { by apply N.div_lt. }
    pose proof (N.div_mod x 10 ltac:(lia)) as Hdm.
    pose proof (N.mod_lt x 10 ltac:(lia)) as Hm.
    exists (S k). split; [rewrite Hlen; simpl; lia|].
    assert (10 ^ N.of_nat (S k) = 10 * 10 ^ N.of_nat k) as Hpow.
    { rewrite Nat2N.inj_succ, N.pow_succ_r by lia. done. }
    split; [rewrite Hpow; lia|]. split; [|split; [lia|split]].
    + intros _. split; [|lia]. replace (S k - 1)%nat with k by lia.
      destruct (decide (x `div` 10 = 0)) as [H0|H0].
      * rewrite (Hz H0). simpl. lia.
      * destruct Hge as [Hge Hk]; [lia|].
        assert (10 ^ N.of_nat k = 10 * 10 ^ N.of_nat (k - 1)) as ->.
        { replace k with (S (k - 1)) at 1 by lia.
          rewrite Nat2N.inj_succ, N.pow_succ_r by lia. done. }
        generalize dependent (10 ^ N.of_nat (k - 1)). intros. clear -Hge Hdm Hm.
        generalize dependent (x `div` 10). generalize dependent (x `mod` 10). intros. lia.
    + intros acc. rewrite Hd.
      change (strconv.digits (String ?c ?r) ?a)
        with (match strconv.digit c with
              | Some d => strconv.digits r (10 * a + d)
              | None => None
              end).
      rewrite (digit_pretty_N_char _ Hm). f_equal. rewrite Hpow.
      generalize dependent (10 ^ N.of_nat k). intros. clear -Hdm Hm.
      generalize dependent (x `div` 10). generalize dependent (x `mod` 10). intros. lia.
    + rewrite Hc, (pretty_N_go_step x) by done.
      change (cleaned (String ?c ?r)) with (if isDigit c then String c (cleaned r) else cleaned r).
      by rewrite isDigit_pretty_N_char.
Qed.

Lemma FormatUint_digits n :
  ∃ k : nat, String.length (strconv.FormatUint n) = k ∧ (0 < k)%nat ∧
             (0 < n → 10 ^ N.of_nat (k - 1) ≤ n) ∧
             (∀ acc, strconv.digits (strconv.FormatUint n) acc
                     = Some (acc * 10 ^ N.of_nat k + n)) ∧
             cleaned (strconv.FormatUint n) = strconv.FormatUint n.
Proof.
  unfold strconv.FormatUint, pretty, pretty_N.
  destruct (decide (n = 0)) as [->|Hne].
  - exists 1%nat. split; [done|]. split; [lia|]. split; [lia|]. split; [|done].
    intros acc. change (Some (10 * acc + 0) = Some (acc * 10 ^ 1 + 0)). f_equal. lia.
  - destruct (pretty_N_go_digits n EmptyString) as (k & Hlen & _ & Hge & _ & Hd & Hc).
    destruct Hge as [Hge Hk]; [lia|].
    exists k. rewrite Hlen. simpl. repeat split; try done; try lia.
Qed.

(** Round trip: the decimal form of a number that fits parses back to it. *)
Lemma ParseUint_FormatUint n bits :
  n < 2 ^ bits → strconv.ParseUint (strconv.FormatUint n) bits = Some n.
Proof.
  intros Hn. destruct (FormatUint_digits n) as (k & Hlen & Hk & _ & Hd & _).
  unfold strconv.ParseUint. destruct (strconv.FormatUint n) as [|c s] eqn:E.
  { simpl in Hlen. lia. }
  rewrite Hd. replace (0 * 10 ^ N.of_nat k + n) with n by lia.
  by rewrite (proj2 (N.ltb_lt _ _) Hn).
Qed.

Lemma cleaned_length s : (String.length (cleaned s) ≤ String.length s)%nat.
Proof. induction s as [|c s IH]; simpl; [done|]. destruct (isDigit c); simpl; lia. Qed.

Lemma cleaned_idem s : cleaned (cleaned s) = cleaned s.
Proof.
  induction s as [|c s IH]; simpl; [done|].
  destruct (isDigit c) eqn:E; simpl; [|done]. by rewrite E, IH.
Qed.

Lemma cleaned_app a b : cleaned (a +:+ b) = cleaned a +:+ cleaned b.
Proof.
  induction a as [|c a IH]; simpl; [done|]. rewrite IH. by destruct (isDigit c).
Qed.

Lemma cleaned_cons c s : cleaned (String c s) = String c s → isDigit c = true ∧ cleaned s = s.
Proof.
  simpl. destruct (isDigit c) eqn:E; [by intros [= ->]|].
  intros H. pose proof (cleaned_length s) as Hl. rewrite H in Hl. simpl in Hl. lia.
Qed.

Lemma string_length_app (a b : string) :
  String.length (a +:+ b) = (String.length a + String.length b)%nat.
Proof. induction a as [|c a IH]; simpl; [done|]. by rewrite IH. Qed.

Lemma cleaned_zeros n : cleaned (zeros n) = zeros n.
Proof. induction n as [|n IH]; simpl; [done|]. by rewrite IH. Qed.

Lemma length_zeros n : String.length (zeros n) = n.
Proof. induction n as [|n IH]; simpl; [done|]. by rewrite IH. Qed.

Lemma digits_zeros n s : strconv.digits (zeros n +:+ s) 0 = strconv.digits s 0.
Proof. induction n as [|n IH]; simpl; [done|]. exact IH. Qed.

(** X1.  [GenerateOTP]: whatever number below 999999 the random source
    draws, the code is a string of exactly six decimal digits that reads
    back as the number drawn; so two draws give the same code only if they
    are equal, and the code 999999 is never issued. *)
Theorem otp_is_six_digits n :
  n < 999999 →
  ∃ code,
    GenerateOTP (Some n) = Some code ∧
    String.length code = 6%nat ∧
    cleaned code = code ∧
    strconv.ParseUint code 32 = Some n ∧
    code ≠ "999999".
Proof.
  intros Hn. destruct (FormatUint_digits n) as (k & Hlen & Hk & Hge & Hd & Hc).
  assert (k ≤ 6)%nat as Hk6.
  { destruct (decide (n = 0)) as [->|Hne].
    - unfold strconv.FormatUint in Hlen. simpl in Hlen. lia.
    - destruct (decide (k ≤ 6)%nat) as [|Hgt]; [done|]. exfalso.
      assert (10 ^ 6 ≤ 10 ^ N.of_nat (k - 1)) as Hp by (apply N.pow_le_mono_r; lia).
      specialize (Hge ltac:(lia)). change (10 ^ 6) with 1000000 in Hp. lia. }
  assert (strconv.ParseUint (Sprintf_06d n) 32 = Some n) as Hparse.
  { unfold strconv.ParseUint, Sprintf_06d.
    destruct (zeros _ +:+ _) as [|c s] eqn:E.
    - apply (f_equal String.length) in E.
      rewrite string_length_app, length_zeros, Hlen in E. simpl in E. lia.
    - rewrite <- E, digits_zeros, Hd.
      replace (0 * 10 ^ N.of_nat k + n) with n by lia.
      assert (n < 2 ^ 32) as Hb by (change (2 ^ 32) with 4294967296; lia).
      by rewrite (proj2 (N.ltb_lt _ _) Hb). }
  exists (Sprintf_06d n). split; [done|]. split; [|split; [|split; [done|]]].
  - unfold Sprintf_06d. rewrite string_length_app, length_zeros, Hlen. lia.
  - unfold Sprintf_06d. by rewrite cleaned_app, cleaned_zeros, Hc.
  - intros Heq. rewrite Heq in Hparse. vm_compute in Hparse. simplify_eq. lia.
Qed.

Lemma otp_is_six_digits_witness :
  ∃ code,
    GenerateOTP (Some 4711) = Some code ∧
    String.length code = 6%nat ∧
    cleaned code = code ∧
    strconv.ParseUint code 32 = Some 4711 ∧
    code ≠ "999999".
Proof. apply (otp_is_six_digits 4711). reflexivity. Defined.

(** [FormatPhoneNumber] decides on the digits of its argument alone. *)
Lemma FormatPhoneNumber_cleaned phone :
  FormatPhoneNumber (cleaned phone) = FormatPhoneNumber phone.
Proof. unfold FormatPhoneNumber. by rewrite cleaned_idem. Qed.

(** The three branches that add or keep the country code, and the last one. *)
Lemma FormatPhoneNumber_cases phone :
  let d := cleaned phone in
  (String.length d = 9%nat ∧ first_is "9"%char d = true ∧
   FormatPhoneNumber phone = "+251" +:+ d) ∨
  (String.length d = 10%nat ∧ first_is "0"%char d = true ∧
   FormatPhoneNumber phone = "+251" +:+ tail d) ∨
  ((String.length d ≠ 9%nat ∨ first_is "9"%char d = false) ∧
   (String.length d ≠ 10%nat ∨ first_is "0"%char d = false) ∧
   FormatPhoneNumber phone = "+" +:+ d).
Proof.
  intros d. unfold FormatPhoneNumber. fold d.
  destruct (Nat.eqb_spec (String.length d) 9) as [H9|H9];
    destruct (first_is "9"%char d) eqn:F9; simpl; try (by left);
    destruct (Nat.eqb_spec (String.length d) 10) as [H10|H10];
    destruct (first_is "0"%char d) eqn:F0; simpl;
    try (by right; left); right; right;
    (split; [by auto|]); (split; [by auto|]); by destruct (_ && _).
Qed.

(** X2.  [FormatPhoneNumber] gives a plus sign followed by digits only,
    whatever it is given, and formatting a formatted number changes
    nothing. *)
Theorem phone_format_is_idempotent phone :
  (∃ digits, FormatPhoneNumber phone = String "+"%char digits ∧ cleaned digits = digits) ∧
  FormatPhoneNumber (FormatPhoneNumber phone) = FormatPhoneNumber phone.
Proof.
  pose proof (cleaned_idem phone) as Hd.
  assert (∀ d, cleaned d = d → String.length d = 9%nat →
            FormatPhoneNumber ("+251" +:+ d) = "+251" +:+ d) as H251.
  { intros d Hc Hl. unfold FormatPhoneNumber. rewrite cleaned_app, Hc.
    change (cleaned "+251") with "251". rewrite string_length_app, Hl. simpl.
    by destruct (_ =? _)%string. }
  destruct (FormatPhoneNumber_cases phone) as
    [(Hl & Hf & ->)|[(Hl & Hf & ->)|(H9 & H10 & ->)]]; cbv zeta in *.
  - split; [|by apply H251].
    exists ("251" +:+ cleaned phone). split; [done|]. by rewrite cleaned_app, Hd.
  - destruct (cleaned phone) as [|c d] eqn:E; [done|]. apply cleaned_cons in Hd as [_ Hd].
    simpl in Hl. simpl tail. split; [|apply H251; [done|lia]].
    exists ("251" +:+ d). split; [done|]. by rewrite cleaned_app, Hd.
  - split; [exists (cleaned phone); by split|].
    assert (cleaned ("+" +:+ cleaned phone) = cleaned phone) as Hc
      by (rewrite cleaned_app, Hd; done).
    destruct (FormatPhoneNumber_cases ("+" +:+ cleaned phone)) as
      [(Hl & Hf & ->)|[(Hl & Hf & ->)|(_ & _ & ->)]]; cbv zeta in *;
      rewrite Hc in *; try done.
    + destruct H9; congruence.
    + destruct H10; congruence.
Qed.

(** X3.  The ways of writing an Ethiopian mobile number agree: with d nine
    digits of which the first is 9, an input whose digits are d, 0 d or
    251 d (with any punctuation, spaces or a plus sign in between) is
    formatted as +251 d. *)
Theorem phone_forms_agree d phone :
  cleaned d = d → String.length d = 9%nat → first_is "9"%char d = true →
  cleaned phone = d ∨ cleaned phone = "0" +:+ d ∨ cleaned phone = "251" +:+ d →
  FormatPhoneNumber phone = "+251" +:+ d.
Proof.
  intros Hd Hl Hf [Hp|[Hp|Hp]]; unfold FormatPhoneNumber; rewrite Hp.
  - by rewrite Hl, Hf.
  - rewrite string_length_app, Hl. done.
  - rewrite string_length_app, Hl. simpl. by destruct (_ =? _)%string.
Qed.

Lemma phone_forms_agree_witness :
  FormatPhoneNumber "0912 345 678" = "+251912345678" ∧
  FormatPhoneNumber "+251 (91) 234-5678" = "+251912345678" ∧
  FormatPhoneNumber "912345678" = "+251912345678".
Proof.
  split; [|split].
  - apply (phone_forms_agree "912345678" "0912 345 678"); try reflexivity.
    right. left. reflexivity.
  - apply (phone_forms_agree "912345678" "+251 (91) 234-5678"); try reflexivity.
    right. right. reflexivity.
  - apply (phone_forms_agree "912345678" "912345678"); try reflexivity.
    left. reflexivity.
Defined.

End Utils.

(** ** More on the hub *)

Section HubMore.
Context `{Platform}.
Implicit Types (st : State) (p q : positive) (c : Client) (message : string).

Lemma NewHub_bounded : queues_bounded NewHub.
Proof. intros p c Hc. simpl in Hc. by rewrite lookup_empty in Hc. Qed.

Lemma offered_bounded message c :
  (length (buf (send c)) ≤ capacity)%nat → (length (buf (send (offered message c))) ≤ capacity)%nat.
Proof.
  unfold offered, has_room. intros Hc.
  destruct (Nat.ltb_spec (length (buf (send c))) capacity); simpl; [|done].
  rewrite length_app. simpl. lia.
Qed.

Lemma fanout_bounded sel message st st' :
  hub_inv st → queues_bounded st →
  range (keys st) (fanout sel message) st = Some st' → queues_bounded st'.
Proof.
  intros Hinv Hb Hr. destruct (fanout_registry sel message st Hinv) as (st2 & Hr2 & Hh & _).
  assert (st2 = st') as -> by congruence.
  intros p c Hc. rewrite Hh in Hc. destruct (heap st !! p) as [c0|] eqn:E; [|done].
  simpl in Hc. simplify_eq. specialize (Hb p c0 E).
  destruct (_ && _); [by apply offered_bounded|done].
Qed.

Lemma run_op_bounded op st st' :
  hub_inv st → queues_bounded st → run_op op st = Some st' → queues_bounded st'.
Proof.
  intros Hinv Hb Hop. destruct op as [up uid|p|m|id m|id m]; simpl in Hop.
  - simplify_eq. unfold HandleWebSocket. destruct up; [|done]. destruct uid; [|done].
    intros q c. unfold register, store. simpl.
    destruct (decide (q = fresh (dom (heap st)))) as [->|Hne].
    + rewrite lookup_insert_eq. intros [= <-]. simpl. unfold capacity. lia.
    + rewrite lookup_insert_ne by done. apply Hb.
  - unfold unregister in Hop. destruct (clients st !! p) as [b|] eqn:Hp; [|by simplify_eq].
    destruct (heap st !! p) as [c|] eqn:Hc; [|done]. simpl in Hop.
    destruct (close (send c)) as [ch|] eqn:Hcl; [|done]. simpl in Hop. simplify_eq.
    unfold close in Hcl. destruct (closed (send c)); [done|]. simplify_eq.
    intros q cq. simpl. destruct (decide (q = p)) as [->|Hne].
    + rewrite lookup_insert_eq. intros [= <-]. simpl. by apply (Hb p).
    + rewrite lookup_insert_ne by done. apply Hb.
  - rewrite broadcast_fanout in Hop. by eapply fanout_bounded.
  - by eapply (fanout_bounded (λ c, conversationID c =? id)).
  - by eapply (fanout_bounded (λ c, userID c =? id)).
Qed.

Lemma dispatch_bounded p (message : gmap string JValue) st st' :
  hub_inv st → queues_bounded st → dispatch p message st = Some st' → queues_bounded st'.
Proof.
  intros Hinv Hb.
  assert (∀ b, typing p message b st = Some st' → queues_bounded st') as Hty.
  { intros b. unfold typing. destruct (message !! "conversation_id") as [[]|];
      try (by intros [= <-]).
    destruct (heap st !! p) as [c|]; [|done]. simpl.
    by apply (fanout_bounded (λ c, conversationID c =? uint f)). }
  unfold dispatch. destruct (message !! "type") as [[]|]; try (by intros [= <-]).
  repeat case_decide; try (by intros [= <-]); try apply Hty.
  destruct (message !! "conversation_id") as [[]|]; try (by intros [= <-]).
  destruct (heap st !! p) as [c|] eqn:Hc; [|done]. simpl. intros [= <-].
  intros q cq. unfold store. simpl. destruct (decide (q = p)) as [->|Hne].
  - rewrite lookup_insert_eq. intros [= <-]. simpl. by apply (Hb p).
  - rewrite lookup_insert_ne by done. apply Hb.
Qed.

Lemma readPump_bounded p inputs st st' pump :
  hub_inv st → is_Some (heap st !! p) → queues_bounded st →
  readPump p inputs st = Some (st', pump) → queues_bounded st'.
Proof.
  revert st. induction inputs as [|[| |message] inputs IH]; intros st Hinv Hp Hb; simpl.
  - by intros [= <- <-].
  - unfold readPump_deferred.
    destruct (unregister p st) as [st1|] eqn:Hu; [|done]. simpl.
    destruct (heap st1 !! p) as [c|] eqn:Hc; [|done]. simpl. intros [= <- <-].
    pose proof (run_op_bounded (OpUnregister p) st st1 Hinv Hb Hu) as Hb1.
    intros q cq. unfold store. simpl. destruct (decide (q = p)) as [->|Hne].
    + rewrite lookup_insert_eq. intros [= <-]. simpl. by apply (Hb1 p).
    + rewrite lookup_insert_ne by done. apply Hb1.
  - by apply IH.
  - destruct (dispatch_inv p message st Hinv Hp) as (st1 & Hd & Hinv1 & Hp1).
    rewrite Hd. simpl. apply IH; try done. exact (dispatch_bounded p message st st1 Hinv Hb Hd).
Qed.

Lemma writePump_loop_rest pending cl k :
  (length (writePump_loop pending cl k).1.1 ≤ length pending)%nat.
Proof.
  revert k. induction pending as [|m pending IH]; intros k; simpl.
  - by destruct cl; [destruct (WriteMessage k CloseMessage)|].
  - destruct (WriteMessage k (TextMessage m)); simpl; [|lia]. specialize (IH c). lia.
Qed.

Lemma writePump_bounded p st st' pump :
  queues_bounded st → writePump p st = Some (st', pump) → queues_bounded st'.
Proof.
  intros Hb. unfold writePump. destruct (heap st !! p) as [c|] eqn:Hc; [|done]. simpl.
  pose proof (writePump_loop_rest (buf (send c)) (closed (send c)) (conn c)) as Hl.
  destruct (writePump_loop _ _ _) as [[rest k] pm]. simpl in Hl. intros [= <- <-].
  intros q cq. unfold store. simpl. destruct (decide (q = p)) as [->|Hne].
  - rewrite lookup_insert_eq. intros [= <-]. simpl. specialize (Hb p c Hc). lia.
  - rewrite lookup_insert_ne by done. apply Hb.
Qed.

(** X4.  Taken one call at a time, the hub keeps its queues open and
    bounded: from any state in which every registered session is allocated
    with an open outbound queue and no queue holds more than 256 messages,
    each hub operation, and the read pump and the write pump of a client
    that exists, runs to its end without a panic and leaves a state of that
    kind.  Calls that interleave are not covered by this; X29 is about
    them. *)
Theorem hub_calls_keep_queues_open_and_bounded st :
  hub_inv st → queues_bounded st →
  (∀ op, ∃ st', run_op op st = Some st' ∧ hub_inv st' ∧ queues_bounded st') ∧
  (∀ p inputs, is_Some (heap st !! p) →
     ∃ st' pump, readPump p inputs st = Some (st', pump) ∧
                 hub_inv st' ∧ queues_bounded st') ∧
  (∀ p, is_Some (heap st !! p) →
     ∃ st' pump, writePump p st = Some (st', pump) ∧ hub_inv st' ∧ queues_bounded st').
Proof.
  intros Hinv Hb. split; [|split].
  - intros op. destruct (run_op_inv op st Hinv) as (st' & Hop & Hinv').
    exists st'. split; [done|]. split; [done|].
    exact (run_op_bounded op st st' Hinv Hb Hop).
  - intros p inputs Hp.
    destruct (readPump_inv p inputs st Hinv Hp) as (st' & pm & Hrd & Hinv' & _).
    exists st', pm. split; [done|]. split; [done|].
    exact (readPump_bounded p inputs st st' pm Hinv Hp Hb Hrd).
  - intros p Hp. destruct (writePump_inv p st Hinv Hp) as (st' & pm & Hw & Hinv' & _).
    exists st', pm. split; [done|]. split; [done|].
    exact (writePump_bounded p st st' pm Hb Hw).
Qed.

(** X5.  Two messages broadcast to a conversation one after the other arrive
    in that order: a registered session joined to the conversation, with
    room for two more messages, has both at the end of its queue, first
    the first.  A session joined to another conversation receives neither
    and stays as it is. *)
Theorem conversation_messages_in_order id m1 m2 st :
  hub_inv st →
  ∃ st1 st2,
    BroadcastToConversation id m1 st = Some st1 ∧
    BroadcastToConversation id m2 st1 = Some st2 ∧
    (∀ p c, is_Some (clients st !! p) → heap st !! p = Some c → conversationID c = id →
            (length (buf (send c)) + 2 ≤ capacity)%nat →
            heap st2 !! p = Some (with_send c (mkChan (buf (send c) ++ [m1; m2]) false)) ∧
            clients st2 !! p = clients st !! p) ∧
    (∀ p c, heap st !! p = Some c → conversationID c ≠ id →
            heap st2 !! p = Some c ∧ clients st2 !! p = clients st !! p).
Proof.
  intros Hinv.
  destruct (fanout_registry (λ c, conversationID c =? id) m1 st Hinv)
    as (st1 & Hr1 & Hh1 & Hc1 & Hinv1).
  destruct (fanout_registry (λ c, conversationID c =? id) m2 st1 Hinv1)
    as (st2 & Hr2 & Hh2 & Hc2 & _).
  exists st1, st2. split; [exact Hr1|]. split; [exact Hr2|]. split.
  - intros p c Hp Hc Hid Hroom.
    assert (has_room c = true) as Hr by (apply Nat.ltb_lt; lia).
    assert (heap st1 !! p = Some (offered m1 c)) as Hp1.
    { rewrite Hh1, Hc. simpl. rewrite bool_decide_eq_true_2 by done.
      by rewrite (proj2 (N.eqb_eq _ _) Hid). }
    assert (clients st1 !! p = clients st !! p) as Hcl1.
    { rewrite Hc1, Hc, Hr. by rewrite andb_false_r. }
    assert (offered m1 c = with_send c (mkChan (buf (send c) ++ [m1]) false)) as Ho
      by (unfold offered; by rewrite Hr).
    assert (has_room (offered m1 c) = true) as Hr'.
    { rewrite Ho. apply Nat.ltb_lt. simpl. rewrite length_app. simpl. lia. }
    split.
    + rewrite Hh2, Hp1. simpl. rewrite bool_decide_eq_true_2 by by rewrite Hcl1.
      replace (conversationID (offered m1 c) =? id) with true
        by (rewrite Ho; simpl; symmetry; by apply N.eqb_eq).
      simpl. unfold offered at 1. rewrite Hr', Ho. unfold with_send. simpl.
      by rewrite <- app_assoc.
    + rewrite Hc2, Hp1, Hr'. by rewrite andb_false_r.
  - intros p c Hc Hid. apply N.eqb_neq in Hid.
    assert (heap st1 !! p = Some c) as Hp1.
    { rewrite Hh1, Hc. simpl. by rewrite Hid, andb_false_r. }
    assert (clients st1 !! p = clients st !! p) as Hcl1 by by rewrite Hc1, Hc, Hid.
    split.
    + rewrite Hh2, Hp1. simpl. by rewrite Hid, andb_false_r.
    + by rewrite Hc2, Hp1, Hid.
Qed.

(** What a broadcast does to each client, for any of the three tests. *)
Lemma fanout_each sel message st :
  hub_inv st →
  ∃ st',
    range (keys st) (fanout sel message) st = Some st' ∧
    (∀ p c, heap st !! p = Some c →
       (is_Some (clients st !! p) ∧ sel c = true ∧ has_room c = true ∧
        heap st' !! p = Some (with_send c (mkChan (buf (send c) ++ [message]) false)) ∧
        clients st' !! p = clients st !! p) ∨
       (is_Some (clients st !! p) ∧ sel c = true ∧ has_room c = false ∧
        heap st' !! p = Some (with_send c (mkChan (buf (send c)) true)) ∧
        clients st' !! p = None) ∨
       ((clients st !! p = None ∨ sel c = false) ∧
        heap st' !! p = Some c ∧ clients st' !! p = clients st !! p)).
Proof.
  intros Hinv. destruct (fanout_registry sel message st Hinv) as (st' & Hr & Hh & Hc & _).
  exists st'. split; [exact Hr|]. intros p c Hp. rewrite Hh, Hc, Hp. simpl.
  destruct (clients st !! p) as [b|] eqn:Hb.
  - rewrite bool_decide_eq_true_2 by eauto. simpl. unfold offered.
    destruct (sel c) eqn:Hs; simpl; [|right; right; eauto].
    destruct (has_room c) eqn:Hroom; simpl; [left|right; left]; eauto 10.
  - rewrite bool_decide_eq_false_2 by (by intros [? ?]). simpl.
    right; right. split; [by left|]. split; [done|]. by destruct (_ && _).
Qed.

(** X6.  [BroadcastToUser] queues the message on every registered session
    of that user that has room, whatever conversation the session has
    joined; it evicts the user's sessions whose queue is full; and it leaves
    the sessions of every other user exactly as they are. *)
Theorem user_broadcast_reaches_all_sessions_of_the_user uid message st :
  hub_inv st →
  ∃ st',
    BroadcastToUser uid message st = Some st' ∧
    (∀ p c, is_Some (clients st !! p) → heap st !! p = Some c → userID c = uid →
       if has_room c
       then heap st' !! p = Some (with_send c (mkChan (buf (send c) ++ [message]) false)) ∧
            clients st' !! p = clients st !! p
       else heap st' !! p = Some (with_send c (mkChan (buf (send c)) true)) ∧
            clients st' !! p = None) ∧
    (∀ p c, heap st !! p = Some c → userID c ≠ uid →
       heap st' !! p = Some c ∧ clients st' !! p = clients st !! p).
Proof.
  intros Hinv. destruct (fanout_each (λ c, userID c =? uid) message st Hinv) as (st' & Hr & He).
  exists st'. split; [exact Hr|]. split.
  - intros p c [b Hb] Hc Hu. apply N.eqb_eq in Hu.
    destruct (He p c Hc) as [(_ & _ & -> & ? & ?)|[(_ & _ & -> & ? & ?)|([?|?] & _)]];
      try done; congruence.
  - intros p c Hc Hu. apply N.eqb_neq in Hu.
    destruct (He p c Hc) as [(_ & ? & _)|[(_ & ? & _)|(_ & ? & ?)]]; try done; congruence.
Qed.

(** X7.  The broadcast case of [Hub.Run]: every registered session with room
    gets the message at the end of its queue and stays registered; every
    registered session whose queue is full is dropped from the registry
    with its queue closed, without holding up the others; afterwards every
    session still registered has the message as the last element of its
    queue. *)
Theorem broadcast_reaches_everyone_or_evicts message st :
  hub_inv st →
  ∃ st',
    broadcast message st = Some st' ∧
    (∀ p c, is_Some (clients st !! p) → heap st !! p = Some c →
       if has_room c
       then heap st' !! p = Some (with_send c (mkChan (buf (send c) ++ [message]) false)) ∧
            clients st' !! p = clients st !! p
       else heap st' !! p = Some (with_send c (mkChan (buf (send c)) true)) ∧
            clients st' !! p = None) ∧
    (∀ p, is_Some (clients st' !! p) →
       ∃ c', heap st' !! p = Some c' ∧ last (buf (send c')) = Some message).
Proof.
  intros Hinv. rewrite broadcast_fanout.
  destruct (fanout_each (λ _, true) message st Hinv) as (st' & Hr & He).
  exists st'. split; [exact Hr|]. split.
  - intros p c [b Hb] Hc.
    destruct (He p c Hc) as [(_ & _ & -> & ? & ?)|[(_ & _ & -> & ? & ?)|([?|?] & _)]];
      try done; congruence.
  - intros p [b Hb].
    destruct (fanout_registry (λ _, true) message st Hinv) as (st2 & Hr2 & _ & Hc2 & _).
    assert (st2 = st') as -> by congruence.
    destruct (heap st !! p) as [c|] eqn:Hc.
    + destruct (He p c Hc) as [(_ & _ & _ & Hh & _)|[(_ & _ & _ & _ & Hn)|([Hn|?] & _ & Hn')]];
        try done; try congruence.
      exists (with_send c (mkChan (buf (send c) ++ [message]) false)).
      split; [done|]. simpl. apply last_snoc.
    + rewrite Hc2, Hc in Hb. destruct (Hinv p b Hb) as (c & ? & _). congruence.
Qed.

(** X8.  [HandleWebSocket] registers nothing when the upgrade fails or when
    the request carries no user id.  Otherwise it allocates one new client,
    at an address no client had, for that user, joined to no conversation
    (id 0), with an empty open queue and an open socket, and registers it;
    every client that existed is untouched and stays registered or
    unregistered as it was. *)
Theorem HandleWebSocket_admits_one_fresh_client upgraded user_id st :
  match (HandleWebSocket upgraded user_id st).2 with
  | None =>
      (upgraded = false ∨ user_id = None) ∧ (HandleWebSocket upgraded user_id st).1 = st
  | Some p =>
      let st' := (HandleWebSocket upgraded user_id st).1 in
      upgraded = true ∧
      heap st !! p = None ∧
      (∃ uid, user_id = Some uid ∧
              heap st' !! p = Some (mkClient (mkConn [] false) (mkChan [] false) uid 0)) ∧
      clients st' !! p = Some true ∧
      (∀ q, q ≠ p → heap st' !! q = heap st !! q ∧ clients st' !! q = clients st !! q)
  end.
Proof.
  unfold HandleWebSocket. destruct upgraded; [|by split; [left|]].
  destruct user_id as [uid|]; [|by split; [right|]].
  unfold register, store. simpl. split; [done|]. split.
  - apply not_elem_of_dom, is_fresh.
  - split; [exists uid; by rewrite lookup_insert_eq|].
    split; [by rewrite lookup_insert_eq|].
    intros q Hne. by rewrite !lookup_insert_ne.
Qed.

(** X9.  Unregistering is idempotent, and closing a queue happens once: a
    second unregister of the same client changes nothing, and after a
    broadcast has evicted a session for a full queue, the teardown of its
    read pump finds it already gone, leaves the closed queue as it is and
    only closes the socket. *)
Theorem unregister_twice_and_teardown_after_eviction p st :
  hub_inv st →
  (∃ st1, unregister p st = Some st1 ∧ unregister p st1 = Some st1) ∧
  (∀ op c st1 rest,
     is_Some (clients st !! p) → heap st !! p = Some c →
     op_selects op c = true → has_room c = false → run_op op st = Some st1 →
     ∃ st2,
       readPump p (ReadError :: rest) st1 = Some (st2, Returned) ∧
       heap st2 !! p
         = Some (mkClient (Close (conn c)) (mkChan (buf (send c)) true)
                          (userID c) (conversationID c)) ∧
       clients st2 = clients st1 ∧
       (∀ q, q ≠ p → heap st2 !! q = heap st1 !! q)).
Proof.
  intros Hinv. split.
  - destruct (unregister_inv p st Hinv) as (st1 & Hu & _ & Hp1 & _).
    exists st1. split; [done|]. unfold unregister. by rewrite Hp1.
  - intros op c st1 rest Hp Hc Hsel Hroom Hop.
    destruct (run_broadcast_op op st) as [message Hrun]; [by destruct op|].
    destruct (fanout_each (op_selects op) message st Hinv) as (st1' & Hr & He).
    assert (st1' = st1) as -> by congruence.
    destruct (He p c Hc) as [(_ & _ & ? & _)|[(_ & _ & _ & Hh & Hcl)|([Hn|?] & _)]];
      try congruence.
    2:{ rewrite Hn in Hp. by destruct Hp. }
    simpl. unfold readPump_deferred, unregister. rewrite Hcl. simpl. rewrite Hh. simpl.
    eexists. split; [done|]. unfold store. simpl.
    split; [by rewrite lookup_insert_eq|]. split; [done|].
    intros q Hne. by rewrite lookup_insert_ne.
Qed.

(** [writePump] on a socket that is closed already: the write of the first
    queued message fails and ends the pump; with nothing queued the pump
    ends on a closed queue and waits on an open one. *)
Lemma writePump_loop_hung_up pending (chan_closed : bool) (k : Conn) :
  conn_closed k = true →
  writePump_loop pending chan_closed k
  = (tail pending, k,
     match pending with
     | [] => if chan_closed then Returned else Blocked
     | _ :: _ => Returned
     end).
Proof.
  destruct k as [w cl]. simpl. intros ->.
  destruct pending as [|m rest]; simpl; [by destruct chan_closed|done].
Qed.

(** X10.  On an open socket [writePump] writes the queued messages in queue
    order and empties the queue; on an open queue it then waits, and on a
    closed queue (the session was unregistered or evicted) it writes one
    close frame after them, closes the socket and returns.  On a socket that
    is closed already (the teardown of the read pump closes it) it writes
    nothing, no close frame either: the first queued message is taken off
    the queue and lost, the others stay queued and the pump returns; with an
    empty queue it returns if the queue is closed and waits otherwise.  In
    both cases it touches neither the registry nor any other client. *)
Theorem writePump_flushes_in_order p c st :
  heap st !! p = Some c →
  ∃ st',
    writePump p st
      = Some (st',
              if conn_closed (conn c)
              then match buf (send c) with
                   | [] => if closed (send c) then Returned else Blocked
                   | _ :: _ => Returned
                   end
              else if closed (send c) then Returned else Blocked) ∧
    heap st' !! p
      = Some (if conn_closed (conn c)
              then mkClient (conn c) (mkChan (tail (buf (send c))) (closed (send c)))
                            (userID c) (conversationID c)
              else mkClient
                     (mkConn (written (conn c) ++ (TextMessage <$> buf (send c))
                              ++ (if closed (send c) then [CloseMessage] else []))
                             (closed (send c)))
                     (mkChan [] (closed (send c))) (userID c) (conversationID c)) ∧
    clients st' = clients st ∧
    (∀ q, q ≠ p → heap st' !! q = heap st !! q).
Proof.
  intros Hc. unfold writePump. rewrite Hc. simpl.
  assert (∀ pending k, conn_closed k = false →
            writePump_loop pending true k
            = ([], Close (mkConn (written k ++ (TextMessage <$> pending) ++ [CloseMessage])
                                 false), Returned)) as Hclosed.
  { induction pending as [|m pending IH]; intros [w cl] Hcl; simpl in *; subst.
    - done.
    - unfold WriteMessage. simpl. rewrite IH by done. simpl. by rewrite <- app_assoc. }
  destruct (conn_closed (conn c)) eqn:Hk.
  - rewrite writePump_loop_hung_up by done. eexists. split; [done|]. unfold store. simpl.
    split; [by rewrite lookup_insert_eq|]. split; [done|].
    intros q Hne. by rewrite lookup_insert_ne.
  - destruct (closed (send c)) eqn:Hcl.
    + rewrite Hclosed by done. eexists. split; [done|]. unfold store. simpl.
      split; [by rewrite lookup_insert_eq|]. split; [done|].
      intros q Hne. by rewrite lookup_insert_ne.
    + rewrite writePump_loop_open by done. eexists. split; [done|]. unfold store. simpl.
      split; [by rewrite lookup_insert_eq, app_nil_r|]. split; [done|].
      intros q Hne. by rewrite lookup_insert_ne.
Qed.

(** X29.  The eviction of the broadcast loops is two statements, and it is
    safe only when nothing runs between them.  For a registered session
    with a full queue the loop body is [close] followed by [delete].  After
    the [close] and before the [delete] the session is still in the registry
    with its queue closed: an unregister of that session by [Hub.Run] then
    closes the queue a second time, and another broadcast loop that reaches
    the session sends on the closed queue; both are run-time panics.  Once
    the [delete] has run, an unregister finds the session gone and does
    nothing. *)
Theorem eviction_is_not_atomic p c b message st :
  clients st !! p = Some b → heap st !! p = Some c →
  closed (send c) = false → has_room c = false →
  ∃ st1,
    evict_close p st = Some st1 ∧
    offer message p st = Some (evict_delete p st1) ∧
    clients st1 !! p = Some b ∧
    (closed ∘ send) <$> heap st1 !! p = Some true ∧
    unregister p st1 = None ∧
    (∀ other, offer other p st1 = None) ∧
    unregister p (evict_delete p st1) = Some (evict_delete p st1).
Proof.
  intros Hb Hc Ho Hroom. unfold evict_close. rewrite Hc. simpl.
  unfold close. rewrite Ho. simpl. eexists. split; [done|].
  split; [|split; [|split; [|split; [|split]]]].
  - unfold offer. rewrite Hc. simpl. unfold select_send. rewrite Ho.
    unfold has_room in Hroom. rewrite Hroom. simpl. unfold close. rewrite Ho. done.
  - done.
  - unfold store. simpl. by rewrite lookup_insert_eq.
  - unfold unregister, store. simpl. rewrite Hb, lookup_insert_eq. done.
  - intros other. unfold offer, store. simpl. rewrite lookup_insert_eq. done.
  - unfold unregister, evict_delete, store. simpl. by rewrite lookup_delete_eq.
Qed.

(** X11.  A typing or stop_typing frame is attributed to the session that
    sent it: whatever else the frame holds, the frame that is fanned out
    carries the user id of that session.  It goes to the registered
    sessions joined to the conversation it names and changes nobody's
    current conversation, so a sender that has not joined that conversation
    gets no echo. *)
Theorem typing_is_attributed_to_the_session p c st f n (is_typing : bool)
    (message : gmap string JValue) :
  hub_inv st → heap st !! p = Some c → represents f n →
  message !! "type" = Some (JString (if is_typing then "typing" else "stop_typing")) →
  message !! "conversation_id" = Some (JNumber f) →
  ∃ st',
    readPump p [Parsed message] st = Some (st', Blocked) ∧
    (∀ q cq, heap st !! q = Some cq →
       ∃ cq', heap st' !! q = Some cq' ∧
              conversationID cq' = conversationID cq ∧ userID cq' = userID cq ∧
              cq' = if bool_decide (is_Some (clients st !! q)) && (conversationID cq =? n)
                    then offered (typing_frame n (userID c) is_typing) cq else cq) ∧
    (conversationID c ≠ n → heap st' !! p = Some c).
Proof.
  intros Hinv Hc Hf Ht Hi. pose proof (uint_represents f n Hf) as Hu.
  assert (dispatch p message st
          = BroadcastToConversation (uint f) (typing_frame (uint f) (userID c) is_typing) st)
    as Hd.
  { apply (dispatch_typing p message st c f
             (if is_typing then "typing" else "stop_typing") is_typing Hc); try done.
    destruct is_typing; [by left|by right]. }
  simpl. rewrite Hd, Hu.
  destruct (fanout_registry (λ c, conversationID c =? n)
              (typing_frame n (userID c) is_typing) st Hinv) as (st' & Hr & Hh & _).
  unfold BroadcastToConversation, fanout in *. rewrite Hr. simpl.
  exists st'. split; [done|]. split.
  - intros q cq Hq. rewrite Hh, Hq. simpl. eexists. split; [done|].
    destruct (_ && _); [|done]. unfold offered. by destruct (has_room cq).
  - intros Hne. rewrite Hh, Hc. simpl. apply N.eqb_neq in Hne. by rewrite Hne, andb_false_r.
Qed.

(** X12.  A session is joined to one conversation at a time: after
    join_conversation for n and then for m, the session is joined to m, and
    a fan-out to n (other than m) no longer reaches it. *)
Theorem joining_leaves_the_previous_conversation p c st f n g m
    (join_n join_m : gmap string JValue) bytes :
  hub_inv st → heap st !! p = Some c → represents f n → represents g m → n ≠ m →
  join_n !! "type" = Some (JString "join_conversation") →
  join_n !! "conversation_id" = Some (JNumber f) →
  join_m !! "type" = Some (JString "join_conversation") →
  join_m !! "conversation_id" = Some (JNumber g) →
  ∃ st1 st2,
    readPump p [Parsed join_n; Parsed join_m] st = Some (st1, Blocked) ∧
    heap st1 !! p = Some (with_conversationID c m) ∧
    BroadcastToConversation n bytes st1 = Some st2 ∧
    heap st2 !! p = heap st1 !! p ∧ clients st2 !! p = clients st !! p.
Proof.
  intros Hinv Hc Hf Hg Hne Hn1 Hn2 Hm1 Hm2.
  pose proof (uint_represents f n Hf) as Hun. pose proof (uint_represents g m Hg) as Hum.
  simpl. rewrite (dispatch_join p join_n st c f Hc Hn1 Hn2). simpl.
  set (st0 := store p (with_conversationID c (uint f)) st).
  assert (heap st0 !! p = Some (with_conversationID c (uint f))) as Hc0
    by (simpl; by rewrite lookup_insert_eq).
  rewrite (dispatch_join p join_m st0 _ g Hc0 Hm1 Hm2). simpl. rewrite Hum.
  set (st1 := store p _ st0).
  assert (heap st1 !! p = Some (with_conversationID c m)) as Hc1
    by (simpl; by rewrite lookup_insert_eq).
  assert (hub_inv st1) as Hinv1.
  { eapply store_inv; [eapply store_inv; [exact Hinv|exact Hc|done]|exact Hc0|done]. }
  destruct (fanout_registry (λ c, conversationID c =? n) bytes st1 Hinv1)
    as (st2 & Hr & Hh & Hcl & _).
  exists st1, st2. split; [done|]. split; [done|]. split; [exact Hr|].
  assert ((m =? n) = false) as Hmn by (apply N.eqb_neq; congruence).
  split.
  - rewrite Hh, Hc1. simpl. by rewrite Hmn, andb_false_r.
  - rewrite Hcl, Hc1. simpl. by rewrite Hmn.
Qed.

End HubMore.

Lemma hub_calls_keep_queues_open_and_bounded_witness :
  ∃ st', run_op (OpBroadcast "m") st_one = Some st' ∧ hub_inv st' ∧ queues_bounded st'.
Proof.
  assert (queues_bounded st_one) as Hb.
  { apply run_op_bounded with (op := OpConnect true (Some 5)) (st := NewHub);
      [apply hub_inv_NewHub | apply NewHub_bounded | reflexivity]. }
  destruct (hub_calls_keep_queues_open_and_bounded st_one hub_inv_st_one Hb) as (Hop & _).
  exact (Hop (OpBroadcast "m")).
Defined.

Lemma conversation_messages_in_order_witness :
  ∃ st1 st2,
    BroadcastToConversation 0 "a" st_one = Some st1 ∧
    BroadcastToConversation 0 "b" st1 = Some st2 ∧
    heap st2 !! 1%positive
      = Some (mkClient (mkConn [] false) (mkChan ["a"; "b"] false) 5 0).
Proof.
  destruct (conversation_messages_in_order 0 "a" "b" st_one hub_inv_st_one)
    as (st1 & st2 & H1 & H2 & H3 & _).
  exists st1, st2. split; [exact H1|]. split; [exact H2|].
  apply (H3 1%positive (mkClient (mkConn [] false) make_chan 5 0)).
  - eexists. reflexivity.
  - reflexivity.
  - reflexivity.
  - unfold capacity. simpl. lia.
Defined.

Lemma user_broadcast_reaches_all_sessions_of_the_user_witness :
  ∃ st',
    BroadcastToUser 6 "a" st_two = Some st' ∧
    heap st' !! 2%positive
      = Some (mkClient (mkConn [] false) (mkChan ["a"] false) 6 0) ∧
    heap st' !! 1%positive = Some (mkClient (mkConn [] false) make_chan 5 0).
Proof.
  assert (hub_inv st_two) as Hinv by (apply HandleWebSocket_inv, hub_inv_st_one).
  destruct (user_broadcast_reaches_all_sessions_of_the_user 6 "a" st_two Hinv)
    as (st' & H1 & H2 & H3).
  exists st'. split; [exact H1|]. split.
  - apply (H2 2%positive (mkClient (mkConn [] false) make_chan 6 0));
      [eexists; reflexivity | reflexivity | reflexivity].
  - apply (H3 1%positive (mkClient (mkConn [] false) make_chan 5 0));
      [reflexivity | discriminate].
Defined.

Lemma broadcast_reaches_everyone_or_evicts_witness :
  ∃ st',
    broadcast "a" st_full = Some st' ∧
    clients st' !! 1%positive = None ∧
    (closed ∘ send) <$> heap st' !! 1%positive = Some true.
Proof.
  destruct (broadcast_reaches_everyone_or_evicts "a" st_full hub_inv_st_full)
    as (st' & H1 & H2 & _).
  exists st'. split; [exact H1|].
  destruct (H2 1%positive
              (mkClient (mkConn [] false) (mkChan (replicate 256 "m") false) 5 7))
    as [Hh Hc]; [eexists; reflexivity | reflexivity |].
  split; [exact Hc|]. rewrite Hh. reflexivity.
Defined.

Lemma unregister_twice_and_teardown_after_eviction_witness :
  ∃ st1, unregister 1%positive st_one = Some st1 ∧ unregister 1%positive st1 = Some st1.
Proof.
  apply (unregister_twice_and_teardown_after_eviction 1%positive st_one hub_inv_st_one).
Defined.

Lemma writePump_flushes_in_order_witness :
  (∃ st',
     writePump 1%positive st_closing = Some (st', Returned) ∧
     (written ∘ conn) <$> heap st' !! 1%positive
       = Some [TextMessage "a"; TextMessage "b"; CloseMessage]) ∧
  (∃ st',
     writePump 1%positive st_hung_up = Some (st', Returned) ∧
     heap st' !! 1%positive
       = Some (mkClient (mkConn [] true) (mkChan ["b"] true) 5 7)).
Proof.
  split.
  - destruct (writePump_flushes_in_order 1%positive
                (mkClient (mkConn [] false) (mkChan ["a"; "b"] true) 5 7) st_closing)
      as (st' & H1 & H2 & _); [reflexivity|].
    exists st'. split; [exact H1|]. rewrite H2. reflexivity.
  - destruct (writePump_flushes_in_order 1%positive
                (mkClient (mkConn [] true) (mkChan ["a"; "b"] true) 5 7) st_hung_up)
      as (st' & H1 & H2 & _); [reflexivity|].
    exists st'. split; [exact H1 | exact H2].
Defined.

Lemma eviction_is_not_atomic_witness :
  ∃ st1,
    evict_close 1%positive st_full = Some st1 ∧
    offer "m" 1%positive st_full = Some (evict_delete 1%positive st1) ∧
    unregister 1%positive st1 = None.
Proof.
  destruct (eviction_is_not_atomic 1%positive
              (mkClient (mkConn [] false) (mkChan (replicate 256 "m") false) 5 7)
              true "m" st_full)
    as (st1 & H1 & H2 & _ & _ & H3 & _); [reflexivity..|].
  exists st1. split; [exact H1|]. split; [exact H2 | exact H3].
Defined.

Lemma typing_is_attributed_to_the_session_witness :
  ∃ st',
    readPump 1%positive [Parsed typing_7] st_one = Some (st', Blocked) ∧
    heap st' !! 1%positive = Some (mkClient (mkConn [] false) make_chan 5 0).
Proof.
  destruct (typing_is_attributed_to_the_session 1%positive
              (mkClient (mkConn [] false) make_chan 5 0) st_one seven 7 true typing_7)
    as (st' & H1 & _ & H3);
    [exact hub_inv_st_one | reflexivity | split; reflexivity | reflexivity | reflexivity |].
  exists st'. split; [exact H1|]. apply H3. discriminate.
Defined.

Lemma joining_leaves_the_previous_conversation_witness :
  ∃ st1 st2,
    readPump 1%positive [Parsed join_7; Parsed join_8] st_one = Some (st1, Blocked) ∧
    heap st1 !! 1%positive = Some (mkClient (mkConn [] false) make_chan 5 8) ∧
    BroadcastToConversation 7 "a" st1 = Some st2 ∧
    heap st2 !! 1%positive = heap st1 !! 1%positive.
Proof.
  destruct (joining_leaves_the_previous_conversation 1%positive
              (mkClient (mkConn [] false) make_chan 5 0) st_one seven 7 eight 8
              join_7 join_8 "a")
    as (st1 & st2 & H1 & H2 & H3 & H4 & _);
    [exact hub_inv_st_one | reflexivity | split; reflexivity | split; reflexivity
    | discriminate | reflexivity | reflexivity | reflexivity | reflexivity |].
  exists st1, st2. split; [exact H1|]. split; [exact H2|]. split; [exact H3 | exact H4].
Defined.

(** ** Blocks, favorites and account status *)

Section Users.
Import MatchHandler UserHandler AdminHandler.
Implicit Types (db : AppDB) (ok : AppWrite → bool) (u b : N) (p : string).

Lemma existsb_filter_negb {A} (p q : A → bool) (l : list A) :
  existsb q (List.filter (λ x, negb (p x)) l) = existsb (λ x, q x && negb (p x)) l.
Proof.
  induction l as [|x l IH]; simpl; [done|].
  destruct (p x); simpl; rewrite IH; [by rewrite andb_false_r|by rewrite andb_true_r].
Qed.

Lemma existsb_pair_Delete {A} (f g : A → N) (l : list A) u b x y :
  existsb (λ r, (f r =? x) && (g r =? y))
          (List.filter (λ r, negb ((f r =? u) && (g r =? b))) l)
  = existsb (λ r, (f r =? x) && (g r =? y)) l && negb ((x =? u) && (y =? b)).
Proof.
  rewrite existsb_filter_negb.
  destruct ((x =? u) && (y =? b)) eqn:E.
  - rewrite andb_false_r. apply andb_true_iff in E as [->%N.eqb_eq ->%N.eqb_eq].
    induction l as [|r l IH]; simpl; [done|].
    rewrite IH, orb_false_r. by destruct (f r =? u), (g r =? b).
  - rewrite andb_true_r. induction l as [|r l IH]; simpl; [done|].
    rewrite IH. f_equal.
    destruct (N.eqb_spec (f r) x) as [->|]; simpl; [|done].
    destruct (N.eqb_spec (g r) y) as [->|]; simpl; [|done].
    by rewrite E.
Qed.

Lemma has_block_Delete (d : DB) u b x y :
  has_block
    (with_blocked_users d
       (Delete (λ r, (BlockedUser.BlockerID r =? u) && (BlockedUser.BlockedID r =? b))
               (blocked_users d))) x y
  = has_block d x y && negb ((x =? u) && (y =? b)).
Proof. apply existsb_pair_Delete. Qed.

Lemma is_favorite_Delete db u b x y :
  is_favorite
    (with_favorites db
       (Delete (λ r, (Favorite.UserID r =? u) && (Favorite.FavoriteID r =? b))
               (favorites db))) x y
  = is_favorite db x y && negb ((x =? u) && (y =? b)).
Proof. apply existsb_pair_Delete. Qed.

Lemma filter_none {A} (q : A → bool) (l : list A) :
  existsb q l = false → List.filter (λ x, negb (q x)) l = l.
Proof.
  induction l as [|x l IH]; simpl; [done|].
  intros [-> H]%orb_false_iff. simpl. by rewrite IH.
Qed.

Lemma BlockUser_guards ok db u p b :
  strconv.ParseUint p 32 = Some b →
  status (BlockUser ok db u p).1 = http.StatusCreated →
  ∃ r, First (λ x, User.ID x =? b) (users (core db)) = Some r ∧
       has_block (core db) u b = false ∧
       (BlockUser ok db u p).2
       = let db1 := with_core db
                      (with_blocked_users (core db)
                         (insert (λ id, BlockedUser.mk id u b) (blocked_users (core db))).2) in
         if ok DeleteFavorite
         then with_favorites db1
                (Delete (λ x, (Favorite.UserID x =? u) && (Favorite.FavoriteID x =? b))
                        (favorites db1))
         else db1.
Proof.
  intros Hp. unfold BlockUser. rewrite Hp.
  destruct (First _ (users (core db))) as [r|]; [|done].
  destruct (First _ (blocked_users (core db))) as [x|] eqn:Hb; [done|].
  apply First_None in Hb. destruct (ok CreateBlockedUser); [|done].
  intros _. exists r. by repeat split.
Qed.

(** X13.  [BlockUser] asks only that an account row with the id exists,
    active or not: it answers 404 exactly when there is none.  It changes
    the store only when it answers 201, and then the block is recorded while
    the accounts, likes, dislikes, matches and conversations are as before.
    Blocking again is answered 409 and changes nothing. *)
Theorem BlockUser_records_the_block_once ok ok2 db u p b :
  strconv.ParseUint p 32 = Some b →
  (status (BlockUser ok db u p).1 = http.StatusNotFound ↔ user_exists (core db) b = false) ∧
  (status (BlockUser ok db u p).1 ≠ http.StatusCreated → (BlockUser ok db u p).2 = db) ∧
  (status (BlockUser ok db u p).1 = http.StatusCreated →
     let db' := (BlockUser ok db u p).2 in
     has_block (core db) u b = false ∧ has_block (core db') u b = true ∧
     users (core db') = users (core db) ∧ likes (core db') = likes (core db) ∧
     dislikes (core db') = dislikes (core db) ∧ matches (core db') = matches (core db) ∧
     conversations (core db') = conversations (core db) ∧ messages db' = messages db ∧
     BlockUser ok2 db' u p
       = (JSON http.StatusConflict (Error "User already blocked"), db')).
Proof.
  intros Hp.
  assert (∀ (d : AppDB) r, First (λ x, User.ID x =? b) (users (core d)) = Some r →
            existsb (λ x, (BlockedUser.BlockerID x =? u) && (BlockedUser.BlockedID x =? b))
                    (rows (blocked_users (core d))) = true →
            BlockUser ok2 d u p = (JSON http.StatusConflict (Error "User already blocked"), d))
    as Hagain.
  { intros d r Hd Hbl. unfold BlockUser. rewrite Hp, Hd.
    destruct (First_is_Some _ _ Hbl) as [y ->]. done. }
  remember (BlockUser ok2) as again eqn:Hag.
  unfold BlockUser. rewrite Hp.
  destruct (First _ (users (core db))) as [r|] eqn:Hu.
  2:{ apply First_None in Hu. unfold user_exists. simpl. by rewrite Hu. }
  assert (user_exists (core db) b = true) as Hex.
  { apply First_Some in Hu as [? ?]. apply existsb_elem. eauto. }
  destruct (First _ (blocked_users (core db))) as [x|] eqn:Hb.
  { simpl. rewrite Hex. by repeat split. }
  apply First_None in Hb. destruct (ok CreateBlockedUser); simpl.
  2:{ rewrite Hex. by repeat split. }
  rewrite Hex. split; [done|]. split; [done|]. intros _.
  assert (existsb (λ x, (BlockedUser.BlockerID x =? u) && (BlockedUser.BlockedID x =? b))
            (rows (blocked_users (core db)) ++ [BlockedUser.mk (next_id (blocked_users (core db))) u b])
          = true) as Hnew.
  { rewrite existsb_snoc. simpl. by rewrite !N.eqb_refl, orb_true_r. }
  split; [exact Hb|]. subst again.
  destruct (ok DeleteFavorite); simpl; (split; [exact Hnew|]); repeat (split; [done|]);
    by apply (Hagain _ r).
Qed.

Lemma BlockUser_records_the_block_once_witness :
  (status (BlockUser all_accepted app0 1 "9").1 = http.StatusNotFound ↔
     user_exists (core app0) 9 = false) ∧
  has_block (core (BlockUser all_accepted app0 1 "4").2) 1 4 = true.
Proof.
  split.
  - apply (BlockUser_records_the_block_once all_accepted all_accepted app0 1 "9" 9).
    reflexivity.
  - apply (BlockUser_records_the_block_once all_accepted all_accepted app0 1 "4" 4);
      reflexivity.
Defined.

(** X14.  Blocking takes effect on likes at once and unblocking lifts it:
    after a [BlockUser] answered 201, a like of the blocked user by the
    blocker (an active account not liked before) is answered 403 and writes
    nothing; after an [UnblockUser] answered 200 the same like is no longer
    refused for a block.  [UnblockUser] removes the blocks of that one
    ordered pair and keeps every other block, the reverse one included. *)
Theorem block_then_like_then_unblock ok okU okL db u p b :
  strconv.ParseUint p 32 = Some b →
  status (BlockUser ok db u p).1 = http.StatusCreated →
  okU DeleteBlockedUser = true →
  active_user (core db) b = true → has_like (core db) u b = false →
  let db1 := (BlockUser ok db u p).2 in
  let db2 := (UnblockUser okU db1 u p).2 in
  LikeUser okL (core db1) u p
    = (JSON http.StatusForbidden (Error "Cannot like blocked user"), core db1) ∧
  status (UnblockUser okU db1 u p).1 = http.StatusOK ∧
  (∀ x y, has_block (core db2) x y = has_block (core db1) x y && negb ((x =? u) && (y =? b))) ∧
  status (LikeUser okL (core db2) u p).1 ≠ http.StatusForbidden.
Proof.
  intros Hp Hs HokU Ha Hl db1 db2.
  destruct (BlockUser_records_the_block_once ok ok db u p b Hp) as (_ & _ & H201).
  destruct (H201 Hs) as (_ & Hb1 & Hu1 & Hl1 & _). fold db1 in Hb1, Hu1, Hl1.
  assert (active_user (core db1) b = true) as Ha1 by (unfold active_user; by rewrite Hu1).
  assert (has_like (core db1) u b = false) as Hl1' by (unfold has_like; by rewrite Hl1).
  split; [by apply (LikeUser_forbidden _ _ _ _ b)|].
  unfold db2, UnblockUser. rewrite Hp, HokU. simpl. split; [done|].
  split; [intros x y; apply has_block_Delete|].
  intros H403. apply LikeUser_forbidden_inv in H403 as (b' & Hb' & _ & _ & Hbl).
  assert (b' = b) as -> by congruence.
  rewrite has_block_Delete, !N.eqb_refl in Hbl. simpl in Hbl. by rewrite andb_false_r in Hbl.
Qed.

Lemma block_then_like_then_unblock_witness :
  LikeUser all_ok (core (BlockUser all_accepted app0 1 "2").2) 1 "2"
    = (JSON http.StatusForbidden (Error "Cannot like blocked user"),
       core (BlockUser all_accepted app0 1 "2").2) ∧
  status (LikeUser all_ok
            (core (UnblockUser all_accepted (BlockUser all_accepted app0 1 "2").2 1 "2").2)
            1 "2").1 ≠ http.StatusForbidden.
Proof.
  pose proof (block_then_like_then_unblock all_accepted all_accepted all_ok app0 1 "2" 2
                eq_refl eq_refl eq_refl eq_refl eq_refl) as (H1 & _ & _ & H2).
  split; [exact H1 | exact H2].
Defined.

(** X15.  Favorites round trip: an [AddToFavorites] answered 201 makes the
    target a favorite of that user and of nobody else, and a
    [RemoveFromFavorites] that the store accepts brings the rows of the
    table back to what they were.  Removing answers 200 also when there was
    nothing to remove, and then changes no row. *)
Theorem favorites_round_trip ok okR db u p f :
  strconv.ParseUint p 32 = Some f →
  status (AddToFavorites ok db u p).1 = http.StatusCreated →
  okR DeleteFavorite = true →
  let db1 := (AddToFavorites ok db u p).2 in
  let db2 := (RemoveFromFavorites okR db1 u p).2 in
  is_favorite db u f = false ∧
  (∀ x y, is_favorite db1 x y = is_favorite db x y || ((x =? u) && (y =? f))) ∧
  status (RemoveFromFavorites okR db1 u p).1 = http.StatusOK ∧
  rows (favorites db2) = rows (favorites db) ∧ core db2 = core db ∧
  RemoveFromFavorites okR db2 u p
    = (JSON http.StatusOK (Message "Removed from favorites successfully"), db2).
Proof.
  intros Hp Hs HokR. unfold AddToFavorites in *. rewrite Hp in *.
  destruct (First _ (users (core db))) as [r|]; [|done].
  destruct (First _ (favorites db)) as [x|] eqn:Hf; [done|].
  destruct (ok CreateFavorite); [|done]. clear Hs. simpl.
  apply First_None in Hf. split; [exact Hf|].
  split.
  { intros x y. unfold is_favorite. simpl. rewrite existsb_snoc. simpl.
    by rewrite (N.eqb_sym u x), (N.eqb_sym f y). }
  unfold RemoveFromFavorites. rewrite Hp, HokR. simpl. split; [done|].
  assert (List.filter
            (λ x, negb ((Favorite.UserID x =? u) && (Favorite.FavoriteID x =? f)))
            (rows (favorites db) ++ [Favorite.mk (next_id (favorites db)) u f])
          = rows (favorites db)) as Hrows.
  { rewrite List.filter_app. simpl. rewrite !N.eqb_refl. simpl.
    by rewrite app_nil_r, filter_none. }
  split; [exact Hrows|]. split; [done|].
  f_equal. unfold with_favorites, Delete. simpl. f_equal. f_equal.
  rewrite Hrows. by rewrite filter_none.
Qed.

Lemma favorites_round_trip_witness :
  rows (favorites (RemoveFromFavorites all_accepted
                     (AddToFavorites all_accepted app0 1 "2").2 1 "2").2)
  = rows (favorites app0).
Proof.
  pose proof (favorites_round_trip all_accepted all_accepted app0 1 "2" 2
                eq_refl eq_refl eq_refl) as (_ & _ & _ & H & _).
  exact H.
Defined.

(** X16.  A block that goes through with its clean-up takes the blocked user
    out of the blocker's favorites and touches no other favorite, not even
    the blocked user's favorite of the blocker.  Nothing in
    [AddToFavorites] looks at blocks: the blocker can put the blocked user
    back among the favorites straight away. *)
Theorem blocking_drops_the_favorite ok okF db u p b :
  strconv.ParseUint p 32 = Some b →
  status (BlockUser ok db u p).1 = http.StatusCreated →
  ok DeleteFavorite = true → okF CreateFavorite = true →
  let db1 := (BlockUser ok db u p).2 in
  (∀ x y, is_favorite db1 x y = is_favorite db x y && negb ((x =? u) && (y =? b))) ∧
  has_block (core db1) u b = true ∧
  status (AddToFavorites okF db1 u p).1 = http.StatusCreated ∧
  is_favorite (AddToFavorites okF db1 u p).2 u b = true.
Proof.
  intros Hp Hs Hok HokF db1.
  destruct (BlockUser_guards ok db u p b Hp Hs) as (r & Hu & Hb & Heq).
  assert (∀ x y, is_favorite db1 x y = is_favorite db x y && negb ((x =? u) && (y =? b)))
    as Hfav.
  { intros x y. unfold db1. rewrite Heq, Hok. apply existsb_pair_Delete. }
  split; [exact Hfav|].
  assert (users (core db1) = users (core db)) as Husers
    by (unfold db1; rewrite Heq; by destruct (ok DeleteFavorite)).
  split.
  { unfold db1. rewrite Heq, Hok. unfold has_block. simpl. rewrite existsb_snoc.
    simpl. by rewrite !N.eqb_refl, orb_true_r. }
  unfold AddToFavorites. rewrite Hp, Husers, Hu.
  assert (is_favorite db1 u b = false) as Hnone
    by (rewrite Hfav, !N.eqb_refl; apply andb_false_r).
  apply First_None in Hnone. rewrite Hnone, HokF. simpl. split; [done|].
  unfold is_favorite. simpl. rewrite existsb_snoc. simpl.
  by rewrite !N.eqb_refl, orb_true_r.
Qed.

Lemma blocking_drops_the_favorite_witness :
  is_favorite (BlockUser all_accepted (AddToFavorites all_accepted app0 1 "2").2 1 "2").2 1 2
  = false.
Proof.
  pose proof (blocking_drops_the_favorite all_accepted all_accepted
                (AddToFavorites all_accepted app0 1 "2").2 1 "2" 2
                eq_refl eq_refl eq_refl eq_refl) as (H & _).
  rewrite H. reflexivity.
Defined.

(** X17.  [UpdateUserStatus] with a status the binder admits, for an
    existing account and an accepted save, answers 200 and leaves the account
    active exactly when the status is "active"; "inactive" and "suspended"
    are the same to the store.  No other account changes, and likes, blocks,
    matches and conversations stay as they are: a deactivated user keeps the
    matches, but a like of that user is answered 404 from then on. *)
Theorem status_update_gates_likes ok okL db p b s bindError clientIP userAgent liker :
  strconv.ParseUint p 32 = Some b →
  s ∈ ["active"; "inactive"; "suspended"] →
  user_exists (core db) b = true →
  ok SaveUser = true →
  let r := UpdateUserStatus ok db p (Some s) bindError clientIP userAgent in
  status r.1 = http.StatusOK ∧
  active_user (core r.2) b = bool_decide (s = "active") ∧
  (∀ x, x ≠ b → active_user (core r.2) x = active_user (core db) x) ∧
  likes (core r.2) = likes (core db) ∧ blocked_users (core r.2) = blocked_users (core db) ∧
  matches (core r.2) = matches (core db) ∧
  conversations (core r.2) = conversations (core db) ∧
  messages r.2 = messages db ∧
  (s ≠ "active" →
   LikeUser okL (core r.2) liker p
     = (JSON http.StatusNotFound (Error "User not found"), core r.2)).
Proof.
  intros Hp Hs Hex Hok r.
  destruct (First_is_Some _ _ Hex) as [usr Husr].
  assert (∃ d, r = (JSON http.StatusOK (Message "User status updated successfully"), d) ∧
               users (core d)
                 = Save User.ID (User.mk (User.ID usr) (User.FirstName usr)
                                         (bool_decide (s = "active")))
                        (users (core db)) ∧
               likes (core d) = likes (core db) ∧
               blocked_users (core d) = blocked_users (core db) ∧
               matches (core d) = matches (core db) ∧
               conversations (core d) = conversations (core db) ∧
               messages d = messages db) as (d & Hr & Hu & Hrest).
  { unfold r, UpdateUserStatus. rewrite Hp.
    rewrite (bool_decide_eq_true_2 _ Hs). simpl. rewrite Husr, Hok.
    eexists. split; [reflexivity|].
    assert (s = "active" ∨ s = "inactive" ∨ s = "suspended") as Hcase.
    { rewrite !elem_of_cons, elem_of_nil in Hs. tauto. }
    destruct Hcase as [Hc|[Hc|Hc]]; subst s; simpl; by destruct (ok CreateUserActivity). }
  rewrite Hr. simpl. split; [done|].
  apply First_Some in Husr as [Hin Hid]. apply N.eqb_eq in Hid.
  assert (∀ x, active_user (core d) x
               = if x =? b then bool_decide (s = "active") else active_user (core db) x)
    as Hact.
  { intros x. unfold active_user. rewrite Hu. unfold Save. simpl. rewrite Hid.
    clear Hin. destruct (N.eqb_spec x b) as [->|Hx].
    - unfold user_exists in Hex. revert Hex.
      induction (rows (users (core db))) as [|y l IH]; intros Hex; [done|].
      simpl in Hex. rewrite !fmap_cons. simpl.
      destruct (N.eqb_spec (User.ID y) b) as [Hy|Hy]; simpl.
      + rewrite N.eqb_refl. simpl. destruct (bool_decide (s = "active")); [done|].
        simpl. clear Hex IH.
        induction l as [|z l IH]; [done|]. rewrite fmap_cons. simpl. rewrite IH.
        destruct (N.eqb_spec (User.ID z) b) as [Hz|Hz]; simpl.
        * by rewrite N.eqb_refl.
        * by rewrite (proj2 (N.eqb_neq _ _) Hz).
      + rewrite (proj2 (N.eqb_neq _ _) Hy). simpl. apply IH. exact Hex.
    - induction (rows (users (core db))) as [|y l IH]; [done|].
      rewrite fmap_cons. simpl. rewrite IH. f_equal.
      destruct (N.eqb_spec (User.ID y) b) as [Hy|Hy]; simpl; [|done].
      rewrite Hy. by rewrite (proj2 (N.eqb_neq b x)) by done. }
  split; [by rewrite Hact, N.eqb_refl|].
  split. { intros x Hx. rewrite Hact. by rewrite (proj2 (N.eqb_neq _ _) Hx). }
  destruct Hrest as (? & ? & ? & ? & ?). repeat (split; [done|]).
  intros Hs'. apply (LikeUser_not_found _ _ _ _ b Hp).
  rewrite Hact, N.eqb_refl. by apply bool_decide_eq_false_2.
Qed.

Lemma status_update_gates_likes_witness :
  LikeUser all_ok
    (core (UpdateUserStatus all_accepted app0 "2" (Some "suspended") "invalid" "10.0.0.1" "curl").2) 1 "2"
  = (JSON http.StatusNotFound (Error "User not found"),
     core (UpdateUserStatus all_accepted app0 "2" (Some "suspended") "invalid" "10.0.0.1" "curl").2).
Proof.
  assert ("suspended" ∈ ["active"; "inactive"; "suspended"]) as Hs
    by (right; right; left).
  pose proof (status_update_gates_likes all_accepted all_ok app0 "2" 2 "suspended"
                "invalid" "10.0.0.1" "curl" 1 eq_refl Hs eq_refl eq_refl)
    as (_ & _ & _ & _ & _ & _ & _ & _ & H).
  apply H. discriminate.
Defined.

End Users.

(** ** Conversations and messages *)

Section Messages.
Import MatchHandler MessageHandler.
Implicit Types (db : DB) (app : AppDB) (u b x c : N) (p : string).

Ltac split_match :=
  match goal with
  | |- context [match ?x with _ => _ end] =>
      lazymatch x with
      | context [match _ with _ => _ end] => fail
      | _ => let E := fresh "E" in destruct x eqn:E
      end
  end.

Lemma filter_length_pos {A} (q : A → bool) (l : list A) :
  (0 <? length (List.filter q l))%nat = existsb q l.
Proof. induction l as [|x l IH]; simpl; [done|]. by destruct (q x). Qed.

Lemma existsb_bind {A B} (q : B → bool) (f : A → list B) (l : list A) :
  existsb q (l ≫= f) = existsb (λ a, existsb q (f a)) l.
Proof.
  induction l as [|x l IH]; [done|]. rewrite bind_cons, existsb_app. simpl. by rewrite IH.
Qed.

Lemma existsb_fmap {A B} (q : B → bool) (g : A → B) (l : list A) :
  existsb q (g <$> l) = existsb (λ a, q (g a)) l.
Proof. induction l as [|x l IH]; [done|]. rewrite fmap_cons. simpl. by rewrite IH. Qed.

Lemma existsb_filter {A} (q r : A → bool) (l : list A) :
  existsb q (List.filter r l) = existsb (λ a, r a && q a) l.
Proof.
  induction l as [|x l IH]; simpl; [done|]. destruct (r x); simpl; by rewrite IH.
Qed.

Lemma existsb_ext_in {A} (q r : A → bool) (l : list A) :
  (∀ a, a ∈ l → q a = r a) → existsb q l = existsb r l.
Proof.
  induction l as [|x l IH]; intros H; simpl; [done|].
  rewrite (H x) by left. rewrite IH; [done|]. intros a Ha. apply H. by right.
Qed.

Lemma existsb_none {A} (q : A → bool) (l : list A) :
  (∀ a, a ∈ l → q a = false) → existsb q l = false.
Proof.
  intros H. rewrite (existsb_ext_in q (λ _, false)) by exact H.
  clear H. induction l as [|? ? IH]; [done|]. exact IH.
Qed.

(** The count of [userHasAccessToConversation] is positive exactly when an
    active conversation row with the id joins a match row with the user. *)
Lemma access_spec db x c :
  userHasAccessToConversation db x c
  = existsb (λ cv, (Conversation.ID cv =? c) && Conversation.IsActive cv
                   && existsb (λ m, (Match.ID m =? Conversation.MatchID cv) && participant x m)
                              (rows (matches db)))
            (rows (conversations db)).
Proof.
  unfold userHasAccessToConversation, conversations_join_matches.
  rewrite filter_length_pos, existsb_bind. apply existsb_ext_in. intros cv _.
  rewrite existsb_fmap, existsb_filter. simpl.
  destruct (Conversation.ID cv =? c), (Conversation.IsActive cv); simpl;
    try (by apply existsb_none; intros; rewrite ?andb_false_r).
  apply existsb_ext_in. intros m _. unfold participant. by rewrite andb_true_r.
Qed.

Lemma LikeUser_matched ok db u p :
  status (LikeUser ok db u p).1 = http.StatusCreated →
  ∃ b, strconv.ParseUint p 32 = Some b ∧
       rows (matches (LikeUser ok db u p).2)
         = rows (matches db) ++ [Match.mk (next_id (matches db)) u b true] ∧
       rows (conversations (LikeUser ok db u p).2)
         = rows (conversations db)
           ++ [Conversation.mk (next_id (conversations db)) (next_id (matches db)) true] ∧
       users (LikeUser ok db u p).2 = users db ∧
       blocked_users (LikeUser ok db u p).2 = blocked_users db.
Proof.
  unfold LikeUser, createMatchNotification, cacheMatchData, Create, insert.
  repeat split_match; simplify_eq/=; try done; intros _; eexists; (split; [done|]); done.
Qed.

(** X18.  A like answered 201 opens one conversation, to the two matched
    users and to nobody else: under the keys of the store,
    [userHasAccessToConversation] holds of the new conversation exactly for
    the liker and the liked user, and for every other conversation id it
    answers as before the like. *)
Theorem match_opens_the_conversation ok db u p b :
  db_wf db →
  strconv.ParseUint p 32 = Some b →
  status (LikeUser ok db u p).1 = http.StatusCreated →
  let db' := (LikeUser ok db u p).2 in
  let cid := next_id (conversations db) in
  (∀ x, userHasAccessToConversation db' x cid = (x =? u) || (x =? b)) ∧
  (∀ x c, c ≠ cid →
     userHasAccessToConversation db' x c = userHasAccessToConversation db x c).
Proof.
  intros Hwf Hp Hs db' cid.
  destruct (LikeUser_matched ok db u p Hs) as (b' & Hp' & Hm & Hc & _).
  assert (b' = b) as -> by congruence. fold db' in Hm, Hc.
  assert (∀ cv, cv ∈ rows (conversations db) →
            Conversation.ID cv ≠ cid ∧ Conversation.MatchID cv ≠ next_id (matches db))
    as Hold.
  { intros cv Hcv. split.
    - pose proof (wf_conv_seq _ Hwf) as H. rewrite Forall_forall in H.
      specialize (H (Conversation.ID cv)). unfold cid.
      assert (Conversation.ID cv < next_id (conversations db)); [|lia].
      apply H. apply list_elem_of_fmap. eauto.
    - pose proof (wf_conv_match_seq _ Hwf) as H. rewrite Forall_forall in H.
      specialize (H (Conversation.MatchID cv)).
      assert (Conversation.MatchID cv < next_id (matches db)); [|lia].
      apply H. apply list_elem_of_fmap. eauto. }
  assert (∀ m, m ∈ rows (matches db) → Match.ID m ≠ next_id (matches db)) as Holdm.
  { intros m Hin. pose proof (wf_match_seq _ Hwf) as H. rewrite Forall_forall in H.
    specialize (H (Match.ID m)).
    assert (Match.ID m < next_id (matches db)); [|lia].
    apply H. apply list_elem_of_fmap. eauto. }
  split.
  - intros x. rewrite access_spec, Hc, Hm, existsb_snoc. simpl.
    rewrite existsb_none.
    2:{ intros cv Hcv. destruct (Hold cv Hcv) as [Hne _].
        by rewrite (proj2 (N.eqb_neq _ _) Hne). }
    fold cid. rewrite N.eqb_refl, existsb_snoc. simpl.
    rewrite existsb_none.
    2:{ intros m Hin. by rewrite (proj2 (N.eqb_neq _ _) (Holdm m Hin)). }
    rewrite N.eqb_refl. unfold participant. simpl.
    by rewrite (N.eqb_sym u x), (N.eqb_sym b x).
  - intros x c Hne. rewrite !access_spec, Hc, Hm, existsb_snoc. simpl.
    rewrite (proj2 (N.eqb_neq (next_id (conversations db)) c)) by (by intros ?; apply Hne).
    simpl. rewrite orb_false_r.
    apply existsb_ext_in. intros cv Hcv. f_equal. rewrite existsb_snoc. simpl.
    destruct (Hold cv Hcv) as [_ Hne'].
    rewrite (proj2 (N.eqb_neq (next_id (matches db)) (Conversation.MatchID cv))) by done.
    simpl. apply orb_false_r.
Qed.

Lemma match_opens_the_conversation_witness :
  userHasAccessToConversation (LikeUser all_ok (LikeUser all_ok db0 1 "2").2 2 "1").2 1 1
  = true ∧
  userHasAccessToConversation (LikeUser all_ok (LikeUser all_ok db0 1 "2").2 2 "1").2 3 1
  = false.
Proof.
  assert (db_wf (LikeUser all_ok db0 1 "2").2) as Hwf
    by (apply LikeUser_wf, db_wf_initial; reflexivity).
  destruct (match_opens_the_conversation all_ok (LikeUser all_ok db0 1 "2").2 2 "1" 1
              Hwf eq_refl eq_refl) as [Hnew _].
  split.
  - exact (eq_trans (Hnew 1) eq_refl).
  - exact (eq_trans (Hnew 3) eq_refl).
Defined.

Lemma Unmatch_answered_OK ok db u p mid :
  strconv.ParseUint p 32 = Some mid →
  status (Unmatch ok db u p).1 = http.StatusOK →
  existsb (unmatch_query u mid) (rows (matches db)) = true ∧ ok SaveMatch = true.
Proof.
  intros Hp Hs.
  destruct (existsb (unmatch_query u mid) (rows (matches db))) eqn:Hq.
  2:{ by rewrite (Unmatch_not_found _ _ _ _ _ Hp Hq) in Hs. }
  destruct (ok SaveMatch) eqn:Hok; [done|].
  by rewrite (Unmatch_refused _ _ _ _ _ Hp Hq Hok) in Hs.
Qed.

(** X19.  An [Unmatch] answered 200 closes the conversation of that match
    to everybody, and no other conversation, provided the store accepted the
    write of the conversation row; the handler does not look at the outcome
    of that write, so when it is refused the answer is still 200 and the
    access to every conversation is as before. *)
Theorem unmatch_closes_the_conversation ok db u p mid :
  db_wf db →
  strconv.ParseUint p 32 = Some mid →
  status (Unmatch ok db u p).1 = http.StatusOK →
  let db' := (Unmatch ok db u p).2 in
  ∀ x c,
    userHasAccessToConversation db' x c
    = userHasAccessToConversation db x c
      && negb (ok SaveConversation
               && existsb (λ cv, (Conversation.ID cv =? c) && (Conversation.MatchID cv =? mid))
                          (rows (conversations db))).
Proof.
  intros Hwf Hp Hs db' x c.
  destruct (Unmatch_answered_OK ok db u p mid Hp Hs) as [Hq Hok].
  destruct (Unmatch_done ok db u p mid Hp Hwf Hq Hok)
    as (d & Heq & Hm & _ & _ & Hc & _).
  assert (db' = d) as -> by (unfold db'; by rewrite Heq). clear Heq.
  rewrite !access_spec, Hm, Hc.
  assert (∀ k, existsb (λ m, (Match.ID m =? k) && participant x m)
                 ((λ m, if Match.ID m =? mid then deactivate_match m else m)
                    <$> rows (matches db))
               = existsb (λ m, (Match.ID m =? k) && participant x m) (rows (matches db)))
    as Hin.
  { intros k. rewrite existsb_fmap. apply existsb_ext_in. intros m _.
    by destruct (Match.ID m =? mid). }
  destruct (ok SaveConversation); simpl.
  2:{ rewrite andb_true_r. apply existsb_ext_in. intros cv _. by rewrite Hin. }
  rewrite existsb_fmap.
  rewrite (existsb_ext_in _
             (λ cv, (Conversation.ID cv =? c) && Conversation.IsActive cv
                    && existsb (λ m, (Match.ID m =? Conversation.MatchID cv) && participant x m)
                               (rows (matches db))
                    && negb (Conversation.MatchID cv =? mid))).
  2:{ intros cv _. rewrite Hin. destruct (Conversation.MatchID cv =? mid); simpl.
      - by rewrite andb_false_r, andb_false_r.
      - by rewrite andb_true_r. }
  destruct (existsb (λ cv, (Conversation.ID cv =? c) && (Conversation.MatchID cv =? mid))
                    (rows (conversations db))) eqn:Hex; simpl.
  - rewrite andb_false_r. apply existsb_none. intros cv Hcv.
    apply existsb_elem in Hex as (cv0 & Hcv0 & [Hid0 Hm0]%andb_true_iff).
    apply N.eqb_eq in Hid0.
    destruct (N.eqb_spec (Conversation.ID cv) c) as [Hid|]; [|done].
    assert (cv = cv0) as ->.
    { apply (NoDup_fmap_eq Conversation.ID (rows (conversations db)));
        [apply Hwf|done..|congruence]. }
    rewrite Hm0. simpl. by rewrite andb_false_r.
  - rewrite andb_true_r. apply existsb_ext_in. intros cv Hcv.
    destruct (N.eqb_spec (Conversation.ID cv) c) as [Hid|]; [|done].
    destruct (N.eqb_spec (Conversation.MatchID cv) mid) as [Hmid|]; simpl.
    2:{ by rewrite andb_true_r. }
    assert (existsb (λ cv, (Conversation.ID cv =? c) && (Conversation.MatchID cv =? mid))
                    (rows (conversations db)) = true) as Hyes; [|congruence].
    apply existsb_elem. exists cv. split; [done|].
    by rewrite (proj2 (N.eqb_eq _ _) Hid), (proj2 (N.eqb_eq _ _) Hmid).
Qed.

Lemma unmatch_closes_the_conversation_witness :
  userHasAccessToConversation db_matched 1 1 = true ∧
  userHasAccessToConversation (Unmatch all_ok db_matched 1 "1").2 1 1 = false.
Proof.
  split; [reflexivity|].
  rewrite (unmatch_closes_the_conversation all_ok db_matched 1 "1" 1).
  - reflexivity.
  - apply LikeUser_wf, LikeUser_wf, db_wf_initial; reflexivity.
  - reflexivity.
  - reflexivity.
Defined.

(** X20.  [LikeUser] does not compare the liked id with the caller: an
    active user who likes their own id, with no such like or block on
    record, has the like just written found as the mutual like, and is
    answered 201 with a match row and a conversation of their own. *)
Theorem self_like_is_a_match ok db u p :
  strconv.ParseUint p 32 = Some u →
  active_user db u = true → has_like db u u = false → has_block db u u = false →
  ok CreateLike = true → ok CreateMatch = true → ok CreateConversation = true →
  let r := LikeUser ok db u p in
  status r.1 = http.StatusCreated ∧
  rows (matches r.2) = rows (matches db) ++ [Match.mk (next_id (matches db)) u u true] ∧
  rows (conversations r.2)
    = rows (conversations db)
      ++ [Conversation.mk (next_id (conversations db)) (next_id (matches db)) true].
Proof.
  intros Hp Ha Hl Hb Hok1 Hok2 Hok3 r.
  assert (status r.1 = http.StatusCreated) as Hs.
  { destruct (LikeUser_guards_passed ok db u p u Hp Ha Hl Hb Hok1) as (lu & _ & Heq).
    cbv zeta in Heq. rewrite has_like_insert, !N.eqb_refl, orb_true_r in Heq.
    unfold Create in Heq. rewrite Hok2 in Heq. simpl in Heq. rewrite Hok3 in Heq.
    unfold r. by rewrite Heq. }
  split; [exact Hs|].
  destruct (LikeUser_matched ok db u p Hs) as (b & Hp' & Hm & Hc & _).
  assert (b = u) as -> by congruence. by split.
Qed.

Lemma self_like_is_a_match_witness :
  status (LikeUser all_ok db0 1 "1").1 = http.StatusCreated.
Proof.
  apply (self_like_is_a_match all_ok db0 1 "1"); reflexivity.
Defined.

(** X21.  [Unmatch] leaves the likes in place, so it cannot be undone by
    liking again: when two active users have liked each other, then after
    any [Unmatch] a new like from either of them to the other is answered
    409 and writes nothing. *)
Theorem unmatch_cannot_be_undone_by_a_like ok okA okB db requester p a b pa pb :
  strconv.ParseUint pa 32 = Some a → strconv.ParseUint pb 32 = Some b →
  active_user db a = true → active_user db b = true →
  has_like db a b = true → has_like db b a = true →
  let db' := (Unmatch ok db requester p).2 in
  LikeUser okA db' a pb = (JSON http.StatusConflict (Error "User already liked"), db') ∧
  LikeUser okB db' b pa = (JSON http.StatusConflict (Error "User already liked"), db').
Proof.
  intros Hpa Hpb Ha Hb Hab Hba db'.
  destruct (Unmatch_frame ok db requester p) as (Hu & _ & Hl & _). fold db' in Hu, Hl.
  split; eapply LikeUser_conflict; try eassumption;
    unfold active_user, has_like; by rewrite ?Hu, ?Hl.
Qed.

Lemma unmatch_cannot_be_undone_by_a_like_witness :
  LikeUser all_ok (Unmatch all_ok db_matched 1 "1").2 1 "2"
  = (JSON http.StatusConflict (Error "User already liked"),
     (Unmatch all_ok db_matched 1 "1").2).
Proof.
  apply (unmatch_cannot_be_undone_by_a_like all_ok all_ok all_ok db_matched 1 "1" 1 2 "1" "2");
    reflexivity.
Defined.

Section Sending.
Context `{JSONStrings}.

(** X22.  [SendMessage] checks before it writes.  On a hub whose registered
    sessions are open it always answers, without a panic; whatever it answers
    other than 201 leaves the store and the hub as they were.  It answers 403
    exactly when the id and the body are well formed and the caller has no
    access to the conversation, and 201 exactly when besides the caller has
    access and the store accepts the message. *)
Theorem SendMessage_checks_before_it_writes ok now app st u param body :
  hub_inv st →
  ∃ a app' st',
    SendMessage ok now app st u param body = Some (a, app', st') ∧ hub_inv st' ∧
    (code a ≠ http.StatusCreated → app' = app ∧ st' = st) ∧
    (code a = http.StatusForbidden ↔
       ∃ c req, strconv.ParseUint param 32 = Some c ∧ body = Some req ∧ valid req = true ∧
                userHasAccessToConversation (core app) u c = false) ∧
    (code a = http.StatusCreated ↔
       ∃ c req, strconv.ParseUint param 32 = Some c ∧ body = Some req ∧ valid req = true ∧
                userHasAccessToConversation (core app) u c = true ∧ ok CreateMessage = true).
Proof.
  intros Hinv. unfold SendMessage.
  destruct (strconv.ParseUint param 32) as [c|] eqn:Hp.
  2:{ eexists _, _, _. split; [done|]. split; [done|]. split; [done|].
      split; (split; [done|]); intros (? & ? & Hx); destruct_and!; congruence. }
  destruct body as [req|].
  2:{ eexists _, _, _. split; [done|]. split; [done|]. split; [done|].
      split; (split; [done|]); intros (? & ? & Hx); destruct_and!; congruence. }
  destruct (valid req) eqn:Hv; simpl.
  2:{ eexists _, _, _. split; [done|]. split; [done|]. split; [done|].
      split; (split; [done|]); intros (? & ? & Hx); destruct_and!; congruence. }
  destruct (userHasAccessToConversation (core app) u c) eqn:Ha; simpl.
  2:{ eexists _, _, _. split; [done|]. split; [done|]. split; [done|]. split.
      - split; [|done]. intros _. by exists c, req.
      - split; [done|]. intros (? & ? & Hx); destruct_and!; congruence. }
  destruct (ok CreateMessage) eqn:Hok.
  2:{ eexists _, _, _. split; [done|]. split; [done|]. split; [done|].
      split; (split; [done|]); intros (? & ? & Hx); destruct_and!; congruence. }
  match goal with |- context [BroadcastToConversation c ?f st] =>
    destruct (fanout_registry (λ cl, conversationID cl =? c) f st Hinv)
      as (st' & Hr & _ & _ & Hinv') end.
  unfold BroadcastToConversation. unfold fanout in Hr. rewrite Hr. simpl.
  eexists _, _, _. split; [done|]. split; [done|]. split; [done|]. split.
  - split; [done|]. intros (? & ? & Hx); destruct_and!; congruence.
  - split; [|done]. intros _. by exists c, req.
Qed.

Lemma filter_length_fmap {A} (q : A → bool) (g : A → A) (l : list A) :
  (∀ a, a ∈ l → q (g a) = q a) →
  length (List.filter q (g <$> l)) = length (List.filter q l).
Proof.
  induction l as [|a l IH]; intros Hq; [done|]. rewrite fmap_cons. simpl.
  rewrite (Hq a) by left. destruct (q a); simpl; rewrite IH; try done;
    intros; apply Hq; by right.
Qed.

Lemma createMessageNotification_frame ok db c s content :
  users (createMessageNotification ok db c s content) = users db ∧
  matches (createMessageNotification ok db c s content) = matches db ∧
  conversations (createMessageNotification ok db c s content) = conversations db.
Proof.
  unfold createMessageNotification. cbv zeta.
  destruct (_ =? 0); [done|]. by destruct (ok CreateMessageNotification).
Qed.

(** X23.  What a [SendMessage] answered 201 has done.  The message is the
    new last row of the table, unread, with the next id, the caller as
    sender and "text" for a missing type; it counts as unread for everybody
    but the sender.  The frame went once through [BroadcastToConversation]:
    every registered session that has joined the conversation, the sender's
    own and those of non-members included, has it at the end of its queue or,
    if the queue was full, is evicted; the other sessions are untouched.
    Matches, conversations and accounts are as before. *)
Theorem SendMessage_stores_and_delivers ok now app st u param c req a app' st' :
  hub_inv st →
  strconv.ParseUint param 32 = Some c →
  SendMessage ok now app st u param (Some req) = Some (a, app', st') →
  code a = http.StatusCreated →
  let mt := if String.eqb (req_MessageType req) EmptyString
            then "text" else req_MessageType req in
  let frame := MarshalFrame (mkFrame "message" c u (req_Content req) mt now) in
  rows (messages app')
    = rows (messages app)
      ++ [ChatMessage.mk (next_id (messages app)) c u (req_Content req) mt false] ∧
  payload a
    = PMessage (mkMessageResponse (next_id (messages app)) u (req_Content req) mt false
                  (First (λ r, User.ID r =? u) (users (core app)))) ∧
  unread_count app' u c = unread_count app u c ∧
  (∀ x, x ≠ u → unread_count app' x c = S (unread_count app x c)) ∧
  (∀ (q : ptr) cl, is_Some (clients st !! q) → heap st !! q = Some cl → conversationID cl = c →
     if has_room cl
     then heap st' !! q = Some (with_send cl (mkChan (buf (send cl) ++ [frame]) false)) ∧
          clients st' !! q = clients st !! q
     else heap st' !! q = Some (with_send cl (mkChan (buf (send cl)) true)) ∧
          clients st' !! q = None) ∧
  (∀ (q : ptr) cl, heap st !! q = Some cl → conversationID cl ≠ c →
     heap st' !! q = Some cl ∧ clients st' !! q = clients st !! q) ∧
  core app' = createMessageNotification ok (core app) c u (req_Content req) ∧
  users (core app') = users (core app) ∧ matches (core app') = matches (core app) ∧
  conversations (core app') = conversations (core app) ∧
  favorites app' = favorites app.
Proof.
  intros Hinv Hp Hsend Hcode mt frame.
  unfold SendMessage in Hsend. rewrite Hp in Hsend.
  destruct (valid req); simpl in Hsend; [|by simplify_eq].
  destruct (userHasAccessToConversation (core app) u c); simpl in Hsend; [|by simplify_eq].
  destruct (ok CreateMessage); [|by simplify_eq].
  destruct (fanout_each (λ cl, conversationID cl =? c) frame st Hinv) as (st1 & Hr & He).
  unfold BroadcastToConversation in Hsend. unfold fanout in Hr.
  fold mt in Hsend. fold frame in Hsend. rewrite Hr in Hsend. simpl in Hsend.
  injection Hsend as <- <- <-.
  destruct (createMessageNotification_frame ok (core app) c u (req_Content req))
    as (Hfu & Hfm & Hfc).
  simpl.
  split; [done|]. split; [done|].
  split; [|split; [|split; [|split]]].
  - unfold unread_count. simpl. rewrite List.filter_app, length_app. simpl.
    unfold unread_by at 2. simpl. rewrite !N.eqb_refl. simpl. lia.
  - intros x Hx. unfold unread_count. simpl. rewrite List.filter_app, length_app. simpl.
    unfold unread_by at 2. simpl. rewrite !N.eqb_refl.
    rewrite (proj2 (N.eqb_neq u x)) by done. simpl. lia.
  - intros q cl [bb Hb] Hc Hconv. apply N.eqb_eq in Hconv.
    destruct (He q cl Hc) as [(_ & _ & -> & ? & ?)|[(_ & _ & -> & ? & ?)|([?|?] & _)]];
      try done; congruence.
  - intros q cl Hc Hconv. apply N.eqb_neq in Hconv.
    destruct (He q cl Hc) as [(_ & ? & _)|[(_ & ? & _)|(_ & ? & ?)]]; try done; congruence.
  - by repeat split.
Qed.

End Sending.

Lemma SendMessage_checks_before_it_writes_witness :
  ∃ a app' st', SendMessage all_accepted "2026-01-01T00:00:00Z" app_matched st_one 3 "1"
                  (Some (mkSendMessageRequest "hi" "text")) = Some (a, app', st') ∧
                (code a ≠ http.StatusCreated → app' = app_matched ∧ st' = st_one).
Proof.
  destruct (SendMessage_checks_before_it_writes all_accepted "2026-01-01T00:00:00Z"
              app_matched st_one 3 "1" (Some (mkSendMessageRequest "hi" "text"))
              hub_inv_st_one) as (a & app' & st' & H1 & _ & H2 & _).
  by exists a, app', st'.
Defined.

Lemma SendMessage_stores_and_delivers_witness :
  match SendMessage all_accepted "2026-01-01T00:00:00Z" app_matched st_one 1 "1"
          (Some (mkSendMessageRequest "hi" EmptyString)) with
  | Some (_, app', _) => unread_count app' 2 1 = S (unread_count app_matched 2 1)
  | None => False
  end.
Proof.
  destruct (SendMessage all_accepted "2026-01-01T00:00:00Z" app_matched st_one 1 "1"
              (Some (mkSendMessageRequest "hi" EmptyString)))
    as [[[a app'] st']|] eqn:E.
  - pose proof (SendMessage_stores_and_delivers all_accepted "2026-01-01T00:00:00Z"
                  app_matched st_one 1 "1" 1 _ a app' st' hub_inv_st_one eq_refl E) as Hthm.
    assert (code a = http.StatusCreated) as Hc.
    { revert E. vm_compute. intros E. by injection E as <- _ _. }
    destruct (Hthm Hc) as (_ & _ & _ & Hn & _). by apply Hn.
  - revert E. vm_compute. discriminate.
Defined.

Lemma filter_nil {A} (q : A → bool) (l : list A) :
  (∀ a, a ∈ l → q a = false) → List.filter q l = [].
Proof.
  induction l as [|a l IH]; intros Hq; [done|]. simpl.
  rewrite (Hq a) by left. apply IH. intros; apply Hq; by right.
Qed.

Lemma filter_unique {A} (f : A → N) (l : list A) (a : A) :
  NoDup (f <$> l) → a ∈ l → List.filter (λ y, f y =? f a) l = [a].
Proof.
  induction l as [|y l IH]; intros Hnd Hin; [by apply elem_of_nil in Hin|].
  rewrite fmap_cons in Hnd. apply NoDup_cons in Hnd as [Hy Hnd]. simpl.
  apply elem_of_cons in Hin as [->|Hin].
  - rewrite N.eqb_refl. f_equal. apply filter_nil. intros z Hz.
    apply N.eqb_neq. intros Heq. apply Hy. rewrite <- Heq.
    apply list_elem_of_fmap. eauto.
  - rewrite (proj2 (N.eqb_neq (f y) (f a))); [by apply IH|].
    intros Heq. apply Hy. rewrite Heq. apply list_elem_of_fmap. eauto.
Qed.

Lemma filter_join {A B} (r : A → bool) (g : A → list B) (l : list A) :
  List.filter (λ '(a, _), r a) (l ≫= λ a, (λ y : B, (a, y)) <$> g a)
  = List.filter r l ≫= λ a, (λ y : B, (a, y)) <$> g a.
Proof.
  induction l as [|a l IH]; [done|]. rewrite bind_cons, List.filter_app, IH. simpl.
  destruct (r a) eqn:Hr.
  - rewrite bind_cons. f_equal. induction (g a) as [|y ys IHy]; [done|].
    rewrite fmap_cons. simpl. by rewrite Hr, IHy.
  - rewrite filter_nil; [done|]. intros [a' y'] Hin.
    apply list_elem_of_fmap in Hin as (y & [= -> ->] & _). done.
Qed.

(** The conversation row with its match row is the one row of the join for
    that conversation id. *)
Lemma join_of_conversation db cv m :
  db_wf db →
  cv ∈ rows (conversations db) → m ∈ rows (matches db) →
  Match.ID m = Conversation.MatchID cv →
  List.filter (λ '(cv0, _), Conversation.ID cv0 =? Conversation.ID cv)
              (conversations_join_matches db) = [(cv, m)].
Proof.
  intros Hwf Hcv Hm Hid. unfold conversations_join_matches.
  rewrite (filter_join (λ cv0, Conversation.ID cv0 =? Conversation.ID cv)
             (λ cv0, List.filter (λ m0, Match.ID m0 =? Conversation.MatchID cv0)
                                (rows (matches db)))).
  rewrite (filter_unique Conversation.ID) by (apply Hwf || done).
  rewrite bind_cons. simpl. rewrite app_nil_r, <- Hid.
  by rewrite (filter_unique Match.ID) by (apply Hwf || done).
Qed.

(** X24.  The message notification goes to the other user of the match that
    owns the conversation: to the second user when the sender is the first,
    to the first otherwise.  One row is added for that user, unread, with the
    content as body and the conversation id as data; nothing is added when
    the store refuses the row or that user's id is 0.  No other table
    changes. *)
Theorem message_notification_goes_to_the_other_user ok db s content cv m :
  db_wf db →
  cv ∈ rows (conversations db) → m ∈ rows (matches db) →
  Match.ID m = Conversation.MatchID cv →
  let c := Conversation.ID cv in
  let other := if Match.User1ID m =? s then Match.User2ID m else Match.User1ID m in
  let db' := createMessageNotification ok db c s content in
  rows (notifications db')
    = rows (notifications db)
      ++ (if negb (other =? 0) && ok CreateMessageNotification
          then [Notification.mk (next_id (notifications db)) other "message" "New Message"
                  content
                  ("{" +:+ dq +:+ "conversation_id" +:+ dq +:+ ": "
                   +:+ strconv.FormatUint c +:+ "}")
                  false]
          else []) ∧
  users db' = users db ∧ likes db' = likes db ∧ blocked_users db' = blocked_users db ∧
  matches db' = matches db ∧ conversations db' = conversations db.
Proof.
  intros Hwf Hcv Hm Hid c other db'. unfold db', createMessageNotification.
  unfold c. rewrite (join_of_conversation db cv m Hwf Hcv Hm Hid). fold other.
  destruct (other =? 0); simpl; [by rewrite app_nil_r|].
  destruct (ok CreateMessageNotification); simpl; [done|by rewrite app_nil_r].
Qed.

Lemma message_notification_goes_to_the_other_user_witness :
  Notification.UserID
    <$> rows (notifications (createMessageNotification all_accepted db_matched 1 2 "hi"))
  = (Notification.UserID <$> rows (notifications db_matched)) ++ [1].
Proof.
  assert (db_wf db_matched) as Hwf
    by (apply LikeUser_wf, LikeUser_wf, db_wf_initial; reflexivity).
  assert (Conversation.mk 1 1 true ∈ rows (conversations db_matched)) as Hcv
    by (vm_compute; apply list_elem_of_here).
  assert (Match.mk 1 2 1 true ∈ rows (matches db_matched)) as Hm
    by (vm_compute; apply list_elem_of_here).
  pose proof (message_notification_goes_to_the_other_user all_accepted db_matched 2 "hi"
                (Conversation.mk 1 1 true) (Match.mk 1 2 1 true) Hwf Hcv Hm eq_refl)
    as Hthm.
  cbv zeta in Hthm. destruct Hthm as (Hrows & _).
  exact (eq_trans (f_equal (fmap Notification.UserID) Hrows) eq_refl).
Defined.

(** X25.  A [MarkAsRead] answered 200 leaves the caller with no unread
    message in that conversation.  It changes no row the caller sent and no
    row of another conversation, keeps the number of rows and the unread
    counts of every other conversation, and writes nothing outside the
    message table.  Marking again changes nothing more. *)
Theorem MarkAsRead_clears_the_callers_unread ok ok2 app u p c :
  strconv.ParseUint p 32 = Some c →
  code (MarkAsRead ok app u p).1 = http.StatusOK →
  ok2 UpdateMessages = true →
  let app' := (MarkAsRead ok app u p).2 in
  unread_count app' u c = 0%nat ∧
  (∀ x c', c' ≠ c → unread_count app' x c' = unread_count app x c') ∧
  length (rows (messages app')) = length (rows (messages app)) ∧
  (∀ i m, rows (messages app) !! i = Some m →
     ChatMessage.SenderID m = u ∨ ChatMessage.ConversationID m ≠ c →
     rows (messages app') !! i = Some m) ∧
  core app' = core app ∧ favorites app' = favorites app ∧
  MarkAsRead ok2 app' u p
    = (mkAnswer http.StatusOK (PInfo "Messages marked as read"), app').
Proof.
  intros Hp Hs Hok2. unfold MarkAsRead in *. rewrite Hp in *.
  destruct (userHasAccessToConversation (core app) u c) eqn:Ha; [|done]. simpl in *.
  destruct (ok UpdateMessages); [|done]. simpl. rewrite Ha, Hok2. simpl.
  set (g := λ m, if unread_by u c m then mark_read m else m).
  assert (∀ m, unread_by u c (g m) = false) as Hdone.
  { intros m. unfold g. destruct (unread_by u c m) eqn:E; [|done].
    unfold unread_by, mark_read. simpl. by rewrite andb_false_r. }
  split; [|split; [|split; [|split; [|split; [|split]]]]]; try done.
  - unfold unread_count. simpl. fold g. rewrite filter_nil; [done|].
    intros m' Hin. apply list_elem_of_fmap in Hin as (m & -> & _). apply Hdone.
  - intros x c' Hc'. unfold unread_count. simpl. fold g. apply filter_length_fmap.
    intros m _. unfold g. destruct (unread_by u c m) eqn:E; [|done].
    unfold unread_by in *. simpl.
    apply andb_true_iff in E as [[E _]%andb_true_iff _]. apply N.eqb_eq in E.
    rewrite E, (proj2 (N.eqb_neq c c')) by done. done.
  - by rewrite length_fmap.
  - intros i m Hi Hm. rewrite list_lookup_fmap, Hi. simpl. f_equal.
    unfold g, unread_by. destruct Hm as [Hm|Hm].
    + rewrite Hm, N.eqb_refl. simpl. by rewrite andb_false_r.
    + by rewrite (proj2 (N.eqb_neq _ _) Hm).
  - f_equal. unfold with_messages, Updates. simpl. f_equal. f_equal. fold g.
    rewrite <- list_fmap_compose. apply list_fmap_ext. intros i m _. simpl.
    unfold g at 1. by rewrite Hdone.
Qed.

Lemma MarkAsRead_clears_the_callers_unread_witness :
  unread_count
    (MarkAsRead all_accepted
       (with_messages app_matched
          (mkTable [ChatMessage.mk 1 1 1 "hi" "text" false;
                    ChatMessage.mk 2 1 2 "hello" "text" false] 3)) 2 "1").2 2 1
  = 0%nat.
Proof.
  apply (MarkAsRead_clears_the_callers_unread all_accepted all_accepted _ 2 "1" 1);
    reflexivity.
Defined.

Lemma BlockUser_frame ok app u p :
  users (core (UserHandler.BlockUser ok app u p).2) = users (core app) ∧
  matches (core (UserHandler.BlockUser ok app u p).2) = matches (core app) ∧
  conversations (core (UserHandler.BlockUser ok app u p).2) = conversations (core app) ∧
  messages (UserHandler.BlockUser ok app u p).2 = messages app.
Proof. unfold UserHandler.BlockUser. repeat split_match; done. Qed.

(** X26.  A block does not reach the conversations.  Whatever [BlockUser]
    answers, every user has the access to every conversation that they had
    before, and a [SendMessage] afterwards, from the blocked user to the
    blocker as well, gets the answer and the deliveries it would have got
    without the block. *)
Theorem blocking_does_not_close_the_conversation `{JSONStrings}
    okB ok now app st blocker pb u param body :
  let app' := (UserHandler.BlockUser okB app blocker pb).2 in
  (∀ x c, userHasAccessToConversation (core app') x c
          = userHasAccessToConversation (core app) x c) ∧
  (λ r, (r.1.1, r.2)) <$> SendMessage ok now app' st u param body
  = (λ r, (r.1.1, r.2)) <$> SendMessage ok now app st u param body.
Proof.
  intros app'. destruct (BlockUser_frame okB app blocker pb) as (Hu & Hm & Hc & Hmsg).
  fold app' in Hu, Hm, Hc, Hmsg.
  assert (∀ x c, userHasAccessToConversation (core app') x c
                 = userHasAccessToConversation (core app) x c) as Hacc.
  { intros x c. unfold userHasAccessToConversation, conversations_join_matches.
    by rewrite Hm, Hc. }
  split; [exact Hacc|].
  unfold SendMessage. destruct (strconv.ParseUint param 32) as [c|]; [|done].
  destruct body as [req|]; [|done]. destruct (valid req); [|done]. simpl.
  rewrite Hacc. destruct (userHasAccessToConversation (core app) u c); [|done]. simpl.
  destruct (ok CreateMessage); [|done]. unfold insert. simpl. rewrite Hmsg, Hu.
  by destruct (BroadcastToConversation _ _ st).
Qed.

(** *** What a match leaves besides its rows *)

(** X27.  A like answered 201 notifies both users of the match, the liker
    first, each with an unread "match" notification that carries the match
    id, as far as the store accepts the rows; a refused notification is
    passed over and does not change the answer.  The match is written to
    the cache under its key "match:<id>" with the liker as first user. *)
Theorem match_notifies_both_users_and_is_cached ok db u p b :
  strconv.ParseUint p 32 = Some b →
  status (LikeUser ok db u p).1 = http.StatusCreated →
  let db' := (LikeUser ok db u p).2 in
  let mid := next_id (matches db) in
  let note := λ id who,
    Notification.mk id who "match" "New Match!" "You have a new match! Start chatting now."
      ("{" +:+ dq +:+ "match_id" +:+ dq +:+ ": " +:+ strconv.FormatUint mid +:+ "}") false in
  let n := next_id (notifications db) in
  rows (notifications db')
    = rows (notifications db)
      ++ (if ok (CreateNotification u) then [note n u] else [])
      ++ (if ok (CreateNotification b)
          then [note (if ok (CreateNotification u) then n + 1 else n) b] else []) ∧
  redis db'
    = (if ok CacheHSet
       then <["match:" +:+ strconv.FormatUint mid := mkMatchData mid u b]> (redis db)
       else redis db).
Proof.
  intros Hp. unfold LikeUser, createMatchNotification, cacheMatchData, Create, insert.
  rewrite Hp. repeat split_match; simplify_eq/=; try done; intros _;
    rewrite ?app_nil_r, <- ?app_assoc; done.
Qed.

Lemma match_notifies_both_users_and_is_cached_witness :
  Notification.UserID <$> rows (notifications db_matched) = [2; 1] ∧
  redis db_matched !! "match:1" = Some (mkMatchData 1 2 1).
Proof.
  destruct (match_notifies_both_users_and_is_cached all_ok
              (LikeUser all_ok db0 1 "2").2 2 "1" 1 eq_refl eq_refl) as [Hn Hr].
  split.
  - exact (eq_trans (f_equal (fmap Notification.UserID) Hn) eq_refl).
  - exact (eq_trans (f_equal (λ r, r !! "match:1") Hr) eq_refl).
Defined.

(** X28.  An [Unmatch] answered 200 whose cache deletion is accepted
    removes the cache entry of that match and of no other match. *)
Theorem unmatch_drops_the_cache_entry ok db u p mid :
  strconv.ParseUint p 32 = Some mid →
  status (Unmatch ok db u p).1 = http.StatusOK →
  ok CacheDel = true →
  let db' := (Unmatch ok db u p).2 in
  redis db' !! ("match:" +:+ strconv.FormatUint mid) = None ∧
  (∀ k, k ≠ mid →
     redis db' !! ("match:" +:+ strconv.FormatUint k)
     = redis db !! ("match:" +:+ strconv.FormatUint k)).
Proof.
  intros Hp Hs Hok db'.
  assert (redis db' = delete ("match:" +:+ strconv.FormatUint mid) (redis db)) as ->.
  { unfold db'. revert Hs. unfold Unmatch. rewrite Hp, Hok.
    repeat split_match; simplify_eq/=; done. }
  split; [apply lookup_delete_eq|].
  intros k Hk. apply lookup_delete_ne. unfold strconv.FormatUint. simpl.
  intros Heq. apply Hk. by simplify_eq.
Qed.

Lemma unmatch_drops_the_cache_entry_witness :
  redis (Unmatch all_ok db_matched 1 "1").2 !! "match:1" = None.
Proof.
  apply (unmatch_drops_the_cache_entry all_ok db_matched 1 "1" 1); reflexivity.
Defined.

End Messages.
